(** * get_mod_items.py: a shallow embedding of [ModItemsFetcher]

    The crawler is embedded as state-passing code over a small exception
    monad.  Python values that come out of [json.load] / [response.json()]
    are kept dynamically typed ([value]), because the program never
    validates them: every subscription, membership test and attribute call
    can raise, and the [try]/[except] blocks of the source decide what the
    caller sees.

    Conventions of the model.
    - A Python [str] is a [string]; one [ascii] stands for one character
      (titles and URLs are taken over 8-bit characters, and [str.lower]
      acts on the letters A-Z).
    - JSON numbers are integers ([VInt]); the program never computes with
      them.
    - A [dict] is an association list in insertion order with distinct
      keys, as [json] produces it.
    - The remote API, the image hosts, [urlparse], [hash] and [str()] of a
      non-string are library or environment behaviour and are taken from a
      [World]; the same request always gets the same answer.
    - The files are a map from paths to what they hold.  Every write goes
      through [write_file]: it needs the directory of the path, and when
      it fails after [open] the file is left with what had been written
      so far.  What [logging] sends to its handlers is kept in the trace;
      the log file is not part of the map.
    - A [ThreadPoolExecutor] task is run to completion when it is
      submitted, and [as_completed] yields in submission order; the
      interleaving of several [process_mod] tasks is modelled separately
      (see [step_task]). *)

From Stdlib Require Import ZArith List String Ascii Bool Lia DecimalString.
Import ListNotations.
Open Scope string_scope.
Open Scope Z_scope.

(* ===================================================================== *)
(** ** Strings *)
(* ===================================================================== *)

Module Str.

(** [c.lower()] for one character. *)
Definition lower_char (c : ascii) : ascii :=
  let n := nat_of_ascii c in
  if (Nat.leb 65 n && Nat.leb n 90)%bool then ascii_of_nat (n + 32) else c.

(** [s.lower()] *)
Fixpoint lower (s : string) : string :=
  match s with
  | EmptyString => EmptyString
  | String c s' => String (lower_char c) (lower s')
  end.

(** [s.startswith(p)] *)
Definition startswith (p s : string) : bool := String.prefix p s.

(** [sub in s] for two strings. *)
Fixpoint contains (sub s : string) : bool :=
  startswith sub s ||
  match s with
  | EmptyString => false
  | String _ s' => contains sub s'
  end.

(** [s.endswith(suf)] *)
Fixpoint endswith (suf s : string) : bool :=
  String.eqb suf s ||
  match s with
  | EmptyString => false
  | String _ s' => endswith suf s'
  end.

(** [s.replace(old, new)] where [old] is a single character. *)
Fixpoint replace_char (old : ascii) (new : string) (s : string) : string :=
  match s with
  | EmptyString => EmptyString
  | String c s' =>
      if Ascii.eqb c old then new ++ replace_char old new s'
      else String c (replace_char old new s')
  end.

(** [s[:n]] *)
Fixpoint take (n : nat) (s : string) : string :=
  match n, s with
  | O, _ => EmptyString
  | _, EmptyString => EmptyString
  | S n', String c s' => String c (take n' s')
  end.

(** [s[n:]] *)
Fixpoint drop (n : nat) (s : string) : string :=
  match n, s with
  | O, _ => s
  | _, EmptyString => EmptyString
  | S n', String _ s' => drop n' s'
  end.

(** [c in s] for a character. *)
Fixpoint mem_char (c : ascii) (s : string) : bool :=
  match s with
  | EmptyString => false
  | String d s' => Ascii.eqb d c || mem_char c s'
  end.

(** [s.rfind(c)] for a character: the last index of [c], or -1. *)
Fixpoint rfind_from (c : ascii) (s : string) (i : Z) (last : Z) : Z :=
  match s with
  | EmptyString => last
  | String d s' => rfind_from c s' (i + 1) (if Ascii.eqb d c then i else last)
  end.

Definition rfind (c : ascii) (s : string) : Z := rfind_from c s 0 (-1).

(** The characters of a string, as [for ch in s] yields them. *)
Fixpoint chars (s : string) : list string :=
  match s with
  | EmptyString => []
  | String c s' => String c EmptyString :: chars s'
  end.

(** [str(z)] for an integer. *)
Definition of_Z (z : Z) : string := NilZero.string_of_int (Z.to_int z).

End Str.

(* ===================================================================== *)
(** ** [sanitize_filename] and [os.path.splitext] *)
(* ===================================================================== *)

(** [invalid_chars]: less-than, greater-than, colon, double quote, slash,
    backslash, vertical bar, question mark, asterisk. *)
Definition invalid_chars : list ascii :=
  ["<"; ">"; ":"; "034"; "/"; "\"; "|"; "?"; "*"]%char.

(** for char in invalid_chars: filename = filename.replace(char, '_')
    return filename[:255] *)
Definition sanitize_filename (filename : string) : string :=
  let filename :=
    fold_left (fun fn char => Str.replace_char char "_" fn) invalid_chars filename in
  Str.take 255 filename.

(** [os.path.splitext(p)[1]] (posixpath): the extension starts at the last
    dot of the last path component, unless that component has only dots
    before it. *)
Definition splitext_ext (p : string) : string :=
  let sepIndex := Str.rfind "/" p in
  let dotIndex := Str.rfind "." p in
  if dotIndex >? sepIndex then
    let filenameIndex := Z.to_nat (sepIndex + 1) in
    let before := Str.take (Z.to_nat dotIndex - filenameIndex)%nat (Str.drop filenameIndex p) in
    if existsb (fun ch => negb (String.eqb ch ".")) (Str.chars before)
    then Str.drop (Z.to_nat dotIndex) p
    else EmptyString
  else EmptyString.


(* ===================================================================== *)
(** ** Python values *)
(* ===================================================================== *)

(** What [json.load] and [response.json()] return, and what the program
    builds from it. *)
#[warnings="-register-all"]
Inductive value : Type :=
| VNone
| VBool (b : bool)
| VInt (z : Z)
| VStr (s : string)
| VList (l : list value)
| VDict (kv : list (string * value)).

Inductive exn : Type :=
| KeyError | IndexError | TypeError | AttributeError
| RequestException | JSONDecodeError | OSError | ValueError.

Inductive result (A : Type) : Type :=
| Ret (a : A)
| Raise (e : exn).
Arguments Ret {A} a.
Arguments Raise {A} e.

(** [bool(v)], the test of [if v:] *)
Definition truthy (v : value) : bool :=
  match v with
  | VNone => false
  | VBool b => b
  | VInt z => negb (z =? 0)
  | VStr EmptyString => false
  | VStr _ => true
  | VList [] => false
  | VList _ => true
  | VDict [] => false
  | VDict _ => true
  end.

Fixpoint dict_get (kv : list (string * value)) (k : string) : option value :=
  match kv with
  | [] => None
  | (k', v) :: kv' => if String.eqb k' k then Some v else dict_get kv' k
  end.

(** [d[k] = v]: an existing key keeps its place, a new one goes last. *)
Fixpoint dict_set (kv : list (string * value)) (k : string) (v : value)
  : list (string * value) :=
  match kv with
  | [] => [(k, v)]
  | (k', v') :: kv' =>
      if String.eqb k' k then (k', v) :: kv' else (k', v') :: dict_set kv' k v
  end.

(** [v == s] for a string [s]. *)
Definition py_eq_str (v : value) (s : string) : bool :=
  match v with
  | VStr t => String.eqb t s
  | _ => false
  end.

(** [k in c] for a string [k]. *)
Definition py_in (k : string) (c : value) : result bool :=
  match c with
  | VDict kv => Ret (match dict_get kv k with Some _ => true | None => false end)
  | VList l => Ret (existsb (fun v => py_eq_str v k) l)
  | VStr s => Ret (Str.contains k s)
  | _ => Raise TypeError
  end.

(** An index usable on a sequence: an [int], or a [bool] (which is one). *)
Definition as_index (k : value) : option Z :=
  match k with
  | VInt z => Some z
  | VBool b => Some (if b then 1 else 0)
  | _ => None
  end.

(** [l[i]] on a sequence: negative indices count from the end. *)
Definition seq_index {A : Type} (l : list A) (i : Z) : result A :=
  let n := Z.of_nat (List.length l) in
  let j := if i <? 0 then i + n else i in
  if (0 <=? j) && (j <? n) then
    match nth_error l (Z.to_nat j) with
    | Some a => Ret a
    | None => Raise IndexError
    end
  else Raise IndexError.

(** [c[k]] *)
Definition py_getitem (c k : value) : result value :=
  match c with
  | VDict kv =>
      match k with
      | VStr s => match dict_get kv s with Some v => Ret v | None => Raise KeyError end
      | VList _ | VDict _ => Raise TypeError
      | _ => Raise KeyError
      end
  | VList l =>
      match as_index k with
      | Some i => seq_index l i
      | None => Raise TypeError
      end
  | VStr s =>
      match as_index k with
      | Some i => match seq_index (Str.chars s) i with
                  | Ret ch => Ret (VStr ch)
                  | Raise e => Raise e
                  end
      | None => Raise TypeError
      end
  | _ => Raise TypeError
  end.

(** What [for x in c] yields. *)
Definition py_iter (c : value) : result (list value) :=
  match c with
  | VDict kv => Ret (map (fun p => VStr (fst p)) kv)
  | VList l => Ret l
  | VStr s => Ret (map VStr (Str.chars s))
  | _ => Raise TypeError
  end.

(** [c.get(k, default)]: only a [dict] has the method. *)
Definition py_get (c : value) (k : string) (default : value) : result value :=
  match c with
  | VDict kv => Ret (match dict_get kv k with Some v => v | None => default end)
  | _ => Raise AttributeError
  end.

(** [v.lower()]: only a [str] has the method. *)
Definition py_lower (v : value) : result string :=
  match v with
  | VStr s => Ret (Str.lower s)
  | _ => Raise AttributeError
  end.

(* ===================================================================== *)
(** ** The environment and the state of a fetcher *)
(* ===================================================================== *)

Inductive response : Type :=
| ConnectionFailed            (* [requests.get] raised *)
| NotJson                     (* [response.json()] raised *)
| Json (v : value).

(** What the program cannot decide by itself. *)
Record World : Type := {
  (** GET [api_base] with these parameters *)
  api_get : list (string * value) -> response;
  (** GET an image URL with [raise_for_status]: the body, or a failure *)
  image_get : string -> option string;
  (** [urlparse(url).path]; [None] where [urlparse] raises *)
  urlparse_path : string -> option string;
  (** [hash(s)] *)
  py_hash : string -> Z;
  (** [str(v)] for a value that is not a string *)
  py_str : value -> string;
  (** whether, the directory of [path] being there, [open(path, 'w')]
      and the write succeed *)
  writable : string -> bool;
  (** when they do not: [None] if [open] itself raises, [Some b] if
      [open] made or emptied the file and the write then raised after
      the bytes [b], which are not a JSON document *)
  failed_write : string -> option string
}.

Inductive file : Type :=
| JsonText (v : value)        (* the text [json.dump] writes for [v] *)
| Blob (content : string)     (* bytes that are not a JSON document *)
| Unreadable                  (* exists, but [open] raises *)
| Directory.

Inductive level : Type := INFO | WARNING | ERROR.

Inductive event : Type :=
| ApiGet (params : list (string * value))
| ImageGet (url : value)
| FileWrite (path : string)
| MakeDirs (path : string)
| Log (lvl : level)
| Sleep (secs : Z).

(** [self], with the file system and the effects performed so far
    (latest first). *)
Record fetcher : Type := {
  data : value;
  download_images : bool;
  processed_count : Z;
  total_count : Z;
  failed_count : Z;
  files : list (string * file);
  trace : list event
}.

Definition api_base : string := "https://minecraft.fandom.com/api.php".
Definition json_file : string := "mod_items_data.json".
Definition images_dir : string := "mod_items_data".
Definition MAX_WORKERS : Z := 10.
Definition DELAY_BETWEEN_REQUESTS : Z := 1.

Fixpoint fs_get (fs : list (string * file)) (path : string) : option file :=
  match fs with
  | [] => None
  | (p, f) :: fs' => if String.eqb p path then Some f else fs_get fs' path
  end.

Fixpoint fs_set (fs : list (string * file)) (path : string) (f : file)
  : list (string * file) :=
  match fs with
  | [] => [(path, f)]
  | (p, g) :: fs' =>
      if String.eqb p path then (p, f) :: fs' else (p, g) :: fs_set fs' path f
  end.

Definition set_data (d : value) (st : fetcher) : fetcher :=
  {| data := d; download_images := download_images st;
     processed_count := processed_count st; total_count := total_count st;
     failed_count := failed_count st; files := files st; trace := trace st |}.

Definition set_processed_count (n : Z) (st : fetcher) : fetcher :=
  {| data := data st; download_images := download_images st;
     processed_count := n; total_count := total_count st;
     failed_count := failed_count st; files := files st; trace := trace st |}.

Definition set_failed_count (n : Z) (st : fetcher) : fetcher :=
  {| data := data st; download_images := download_images st;
     processed_count := processed_count st; total_count := total_count st;
     failed_count := n; files := files st; trace := trace st |}.

Definition set_files (fs : list (string * file)) (st : fetcher) : fetcher :=
  {| data := data st; download_images := download_images st;
     processed_count := processed_count st; total_count := total_count st;
     failed_count := failed_count st; files := fs; trace := trace st |}.

Definition emit (e : event) (st : fetcher) : fetcher :=
  {| data := data st; download_images := download_images st;
     processed_count := processed_count st; total_count := total_count st;
     failed_count := failed_count st; files := files st; trace := e :: trace st |}.

(* ===================================================================== *)
(** ** The monad of methods: state plus exceptions *)
(* ===================================================================== *)

Definition M (A : Type) : Type := fetcher -> result A * fetcher.

Definition ret {A : Type} (a : A) : M A := fun st => (Ret a, st).

Definition raise {A : Type} (e : exn) : M A := fun st => (Raise e, st).

Definition bind {A B : Type} (m : M A) (k : A -> M B) : M B :=
  fun st =>
    match m st with
    | (Ret a, st') => k a st'
    | (Raise e, st') => (Raise e, st')
    end.

(** [try: m / except Exception as e: h e]; what the state was at the
    [raise] is what the handler sees. *)
Definition try_except {A : Type} (m : M A) (h : exn -> M A) : M A :=
  fun st =>
    match m st with
    | (Ret a, st') => (Ret a, st')
    | (Raise e, st') => h e st'
    end.

Definition lift {A : Type} (r : result A) : M A := fun st => (r, st).

Definition get_state : M fetcher := fun st => (Ret st, st).

Definition modify (f : fetcher -> fetcher) : M unit := fun st => (Ret tt, f st).

Declare Scope py_scope.
Delimit Scope py_scope with py.
Notation "x <- m ;; k" := (bind m (fun x => k))
  (at level 100, m at next level, right associativity) : py_scope.
Notation "m ;;; k" := (bind m (fun _ => k))
  (at level 100, right associativity) : py_scope.
Open Scope py_scope.

Definition logging (lvl : level) : M unit := modify (emit (Log lvl)).

Definition and_then {A B : Type} (r : result A) (k : A -> result B) : result B :=
  match r with
  | Ret a => k a
  | Raise e => Raise e
  end.

(** A list comprehension whose element expression can raise. *)
Fixpoint map_result {A B : Type} (f : A -> result B) (l : list A) : result (list B) :=
  match l with
  | [] => Ret []
  | a :: l' =>
      and_then (f a) (fun b =>
      and_then (map_result f l') (fun bs => Ret (b :: bs)))
  end.

Definition empty_store : value := VDict [("mods", VList [])].

Definition bump_failed : M unit :=
  modify (fun st => set_failed_count (failed_count st + 1) st).

Definition bump_processed : M unit :=
  modify (fun st => set_processed_count (processed_count st + 1) st).

(** [os.path.join(a, b)] (posixpath) for a non-empty [a] without a
    trailing slash. *)
Definition path_join (a b : string) : string :=
  if Str.startswith "/" b then b else a ++ "/" ++ b.

(** [os.path.dirname(path)], or [None] for a path without a slash, which
    names a file of the working directory. *)
Definition parent_dir (path : string) : option string :=
  let i := Str.rfind "/" path in
  if i <? 0 then None else Some (Str.take (Z.to_nat i) path).

(** [open(path, 'w')] finds the directory the file is to be in. *)
Definition parent_ok (fs : list (string * file)) (path : string) : bool :=
  match parent_dir path with
  | None => true
  | Some EmptyString => true
  | Some dir =>
      match fs_get fs dir with
      | Some Directory => true
      | _ => false
      end
  end.

(** The file of the [FileHandler]; what is logged is kept in the trace,
    not in this file. *)
Definition log_file : string := "mod_items.log".

(* ===================================================================== *)
(** ** The methods of [ModItemsFetcher] *)
(* ===================================================================== *)

Section Methods.

Variable w : World.

(** [requests.get(self.api_base, params=params)] followed by
    [response.json()] *)
Definition requests_get_json (params : list (string * value)) : M value :=
  modify (emit (ApiGet params)) ;;;
  match api_get w params with
  | Json v => ret v
  | NotJson => raise JSONDecodeError
  | ConnectionFailed => raise RequestException
  end.

(** [with open(path, mode) as f: f.write(...)]: [open] raises when the
    directory is missing or the file cannot be opened, and then nothing
    changes; once it has opened the file, the old content is gone, and a
    write that raises leaves what it had written so far. *)
Definition write_file (path : string) (f : file) : M unit :=
  st <- get_state ;;
  if parent_ok (files st) path then
    if writable w path then
      modify (fun st => emit (FileWrite path) (set_files (fs_set (files st) path f) st))
    else
      match failed_write w path with
      | Some partial =>
          modify (fun st => set_files (fs_set (files st) path (Blob partial)) st) ;;;
          raise OSError
      | None => raise OSError
      end
  else raise OSError.

Definition load_existing_data : M unit :=
  try_except
    (st <- get_state ;;
     match fs_get (files st) json_file with
     | Some (JsonText v) => modify (set_data v)
     | Some (Blob _) => raise JSONDecodeError
     | Some Unreadable => raise OSError
     | Some Directory => raise OSError
     | None => modify (set_data empty_store)
     end)
    (fun e =>
       logging ERROR ;;;
       modify (set_data empty_store)).

Definition save_data : M unit :=
  try_except
    (st <- get_state ;;
     write_file json_file (JsonText (data st)) ;;;
     logging INFO)
    (fun e => logging ERROR).

(** [f"{v}"] *)
Definition format_value (v : value) : string :=
  match v with
  | VStr s => s
  | _ => py_str w v
  end.

(** The name under which [download_image] stores the image of [url]. *)
Definition local_filename (url path : string) (item_name : value) : string :=
  let extension := splitext_ext path in
  let extension :=
    if String.eqb extension EmptyString then ".png" else extension in
  sanitize_filename
    (format_value item_name ++ "_" ++ Str.of_Z (py_hash w url) ++ extension).

(** [requests.get(url, timeout=10)] with [raise_for_status()]; a [url]
    that is not a string has no usable scheme and makes [requests]
    raise. *)
Definition requests_get_content (url : value) : M string :=
  modify (emit (ImageGet url)) ;;;
  match url with
  | VStr u =>
      match image_get w u with
      | Some content => ret content
      | None => raise RequestException
      end
  | _ => raise RequestException
  end.

Definition download_image (url item_name : value) : M string :=
  try_except
    (content <- requests_get_content url ;;
     match url with
     | VStr u =>
         match urlparse_path w u with
         | Some path =>
             let safe_name := local_filename u path item_name in
             let filepath := path_join images_dir safe_name in
             write_file filepath (Blob content) ;;;
             logging INFO ;;;
             ret filepath
         | None => raise ValueError
         end
     | _ => raise TypeError
     end)
    (fun e =>
       logging ERROR ;;;
       ret EmptyString).

Definition search_params (mod_name : string) : list (string * value) :=
  let search_query := mod_name ++ " items" in
  [ ("action", VStr "query");
    ("format", VStr "json");
    ("list", VStr "search");
    ("srsearch", VStr search_query);
    ("srnamespace", VStr "0");
    ("srlimit", VStr "50") ].

Definition get_mod_items (mod_name : string) : M value :=
  let params := search_params mod_name in
  r <- try_except
         (data <- requests_get_json params ;;
          has_query <- lift (py_in "query" data) ;;
          if has_query then
            q <- lift (py_getitem data (VStr "query")) ;;
            has_search <- lift (py_in "search" q) ;;
            if has_search then
              q <- lift (py_getitem data (VStr "query")) ;;
              found <- lift (py_getitem q (VStr "search")) ;;
              ret (Some found)
            else ret None
          else ret None)
         (fun e =>
            logging ERROR ;;;
            ret None) ;;
  match r with
  | Some found => ret found
  | None => ret (VList [])
  end.

Definition details_params (page_title : value) : list (string * value) :=
  [ ("action", VStr "query");
    ("format", VStr "json");
    ("prop", VStr "images|extracts");
    ("titles", page_title);
    ("exintro", VBool true);
    ("explaintext", VBool true) ].

(** The [dict] built in the loop body of [get_item_details]. *)
Definition item_record (page : value) : result value :=
  and_then (py_get page "title" (VStr EmptyString)) (fun title =>
  and_then (py_get page "extract" (VStr EmptyString)) (fun description =>
  and_then (py_in "images" page) (fun has_images =>
  and_then
    (if has_images then
       and_then (py_get page "images" (VList [])) (fun imgs =>
       and_then (py_iter imgs) (fun l =>
       map_result (fun img => py_getitem img (VStr "title")) l))
     else Ret [])
    (fun images =>
  Ret (VDict [ ("title", title);
               ("description", description);
               ("images", VList images) ]))))).

Definition get_item_details (page_title : value) : M value :=
  let params := details_params page_title in
  r <- try_except
         (data <- requests_get_json params ;;
          q <- lift (py_getitem data (VStr "query")) ;;
          pages <- lift (py_getitem q (VStr "pages")) ;;
          ids <- lift (py_iter pages) ;;
          match ids with
          | page_id :: _ =>
              page <- lift (py_getitem pages page_id) ;;
              rec <- lift (item_record page) ;;
              ret (Some rec)
          | [] => ret None
          end)
         (fun e =>
            logging ERROR ;;;
            ret None) ;;
  match r with
  | Some rec => ret rec
  | None => ret VNone
  end.

Definition imageinfo_params (image_title : value) : list (string * value) :=
  [ ("action", VStr "query");
    ("format", VStr "json");
    ("prop", VStr "imageinfo");
    ("iiprop", VStr "url");
    ("titles", image_title) ].

(** The loop of [get_image_url]: the first page with an [imageinfo]
    decides. *)
Fixpoint first_imageinfo_url (pages : value) (ids : list value)
  : result (option value) :=
  match ids with
  | [] => Ret None
  | page_id :: ids' =>
      and_then (py_getitem pages page_id) (fun page =>
      and_then (py_in "imageinfo" page) (fun has =>
      if has then
        and_then (py_getitem pages page_id) (fun page =>
        and_then (py_getitem page (VStr "imageinfo")) (fun info =>
        and_then (py_getitem info (VInt 0)) (fun first =>
        and_then (py_getitem first (VStr "url")) (fun url =>
        Ret (Some url)))))
      else first_imageinfo_url pages ids'))
  end.

Definition get_image_url (image_title : value) : M value :=
  let params := imageinfo_params image_title in
  r <- try_except
         (data <- requests_get_json params ;;
          q <- lift (py_getitem data (VStr "query")) ;;
          pages <- lift (py_getitem q (VStr "pages")) ;;
          ids <- lift (py_iter pages) ;;
          lift (first_imageinfo_url pages ids))
         (fun e =>
            logging ERROR ;;;
            ret None) ;;
  match r with
  | Some url => ret url
  | None => ret VNone
  end.

Definition process_image (image_title item_details : value) : M value :=
  r <- try_except
         (image_url <- get_image_url image_title ;;
          if truthy image_url then
            name <- lift (py_getitem item_details (VStr "title")) ;;
            let image_data :=
              [ ("name", name); ("url", image_url); ("localPath", VStr EmptyString) ] in
            st <- get_state ;;
            if download_images st then
              title <- lift (py_getitem item_details (VStr "title")) ;;
              local_path <- download_image image_url title ;;
              ret (Some (VDict (dict_set image_data "localPath" (VStr local_path))))
            else ret (Some (VDict image_data))
          else ret None)
         (fun e =>
            logging ERROR ;;;
            ret None) ;;
  match r with
  | Some image_data => ret image_data
  | None => ret VNone
  end.

End Methods.

(* ===================================================================== *)
(** ** [process_mod] *)
(* ===================================================================== *)

(** next((mod for mod in mods if mod['mod_name'] == mod_name), None) *)
Fixpoint find_mod (mods : list value) (mod_name : string) : result value :=
  match mods with
  | [] => Ret VNone
  | m :: mods' =>
      and_then (py_getitem m (VStr "mod_name")) (fun name =>
      if py_eq_str name mod_name then Ret m else find_mod mods' mod_name)
  end.

(** any(ext in lowered for ext in ['.png', '.jpg', '.gif']) *)
Definition keeps_image (lowered : string) : bool :=
  existsb (fun ext => Str.contains ext lowered) [".png"; ".jpg"; ".gif"].

(** The test applied to one image title. *)
Definition image_title_qualifies (image_title : string) : bool :=
  keeps_image (Str.lower image_title).

Section Orchestrator.

Variable w : World.

(** The loop that fills [image_futures]; each submitted [process_image]
    is run on the spot and its result stands for the future. *)
Fixpoint submit_images (titles : list value) (item_details : value)
  : M (list value) :=
  match titles with
  | [] => ret []
  | image_title :: rest =>
      lowered <- lift (py_lower image_title) ;;
      if keeps_image lowered then
        image_data <- process_image w image_title item_details ;;
        results <- submit_images rest item_details ;;
        ret (image_data :: results)
      else submit_images rest item_details
  end.

(** The body of [for future in as_completed(future_to_item)], on the
    items gathered so far in [mod_data['items']]. *)
Definition process_item (item_details : value) (items : list value)
  : M (list value) :=
  if truthy item_details then
    imgs <- lift (py_getitem item_details (VStr "images")) ;;
    titles <- lift (py_iter imgs) ;;
    results <- submit_images titles item_details ;;
    let images := filter truthy results in
    if truthy (VList images) then
      let item_data := VDict [("images", VList images)] in
      bump_processed ;;;
      _ <- lift (py_getitem item_details (VStr "title")) ;;
      logging INFO ;;;
      ret (items ++ [item_data])%list
    else ret items
  else
    bump_failed ;;;
    ret items.

(** The comprehension that fills [future_to_item]. *)
Fixpoint submit_items (items : list value) : M (list value) :=
  match items with
  | [] => ret []
  | item :: rest =>
      title <- lift (py_getitem item (VStr "title")) ;;
      item_details <- get_item_details w title ;;
      results <- submit_items rest ;;
      ret (item_details :: results)
  end.

Fixpoint collect_items (details : list value) (items : list value)
  : M (list value) :=
  match details with
  | [] => ret items
  | item_details :: rest =>
      items' <- process_item item_details items ;;
      collect_items rest items'
  end.

(** Lines 172-178: [true] when the mod is already in the store. *)
Definition process_mod_check (mod_name : string) : M bool :=
  logging INFO ;;;
  st <- get_state ;;
  mods <- lift (py_getitem (data st) (VStr "mods")) ;;
  l <- lift (py_iter mods) ;;
  existing_mod <- lift (find_mod l mod_name) ;;
  if truthy existing_mod then
    logging INFO ;;;
    ret true
  else ret false.

(** Lines 180-224: [None] when the search gave nothing, else [mod_data]. *)
Definition process_mod_fetch (mod_name : string) : M (option value) :=
  items <- get_mod_items w mod_name ;;
  if negb (truthy items) then
    logging WARNING ;;;
    bump_failed ;;;
    ret None
  else
    l <- lift (py_iter items) ;;
    details <- submit_items l ;;
    its <- collect_items details [] ;;
    ret (Some (VDict [("mod_name", VStr mod_name); ("items", VList its)])).

(** self.data['mods'].append(mod_data) *)
Definition append_mod (mod_data : value) : M unit :=
  st <- get_state ;;
  mods <- lift (py_getitem (data st) (VStr "mods")) ;;
  match data st, mods with
  | VDict kv, VList ms =>
      modify (set_data (VDict (dict_set kv "mods" (VList (ms ++ [mod_data])%list))))
  | _, _ => raise AttributeError
  end.

(** Lines 226-232. *)
Definition process_mod_commit (mod_data : value) : M unit :=
  append_mod mod_data ;;;
  save_data w ;;;
  modify (emit (Sleep DELAY_BETWEEN_REQUESTS)).

(** The [except Exception] of [process_mod]. *)
Definition process_mod_failed {A : Type} (a : A) (e : exn) : M A :=
  logging ERROR ;;;
  bump_failed ;;;
  ret a.

Definition process_mod (mod_name : string) : M bool :=
  try_except
    (exists_already <- process_mod_check mod_name ;;
     if exists_already then ret true
     else
       fetched <- process_mod_fetch mod_name ;;
       match fetched with
       | None => ret false
       | Some mod_data =>
           process_mod_commit mod_data ;;;
           ret true
       end)
    (process_mod_failed false).

(* --------------------------------------------------------------------- *)
(** *** Several [process_mod] tasks on the pool of [main] *)

(** A task of the outer pool, between two of the points where another
    task can run: before the check of the store, between the check and
    the search, and between the last reply and the append. *)
Inductive task : Type :=
| Pending (mod_name : string)
| Checked (mod_name : string)
| Fetched (mod_data : value)
| Done (ok : bool).

Definition step_task (t : task) : M task :=
  match t with
  | Pending mod_name =>
      try_except
        (exists_already <- process_mod_check mod_name ;;
         ret (if exists_already then Done true else Checked mod_name))
        (process_mod_failed (Done false))
  | Checked mod_name =>
      try_except
        (fetched <- process_mod_fetch mod_name ;;
         ret (match fetched with
              | None => Done false
              | Some mod_data => Fetched mod_data
              end))
        (process_mod_failed (Done false))
  | Fetched mod_data =>
      try_except
        (process_mod_commit mod_data ;;;
         ret (Done true))
        (process_mod_failed (Done false))
  | Done ok => ret (Done ok)
  end.

Fixpoint update_nth {A : Type} (n : nat) (a : A) (l : list A) : list A :=
  match n, l with
  | _, [] => []
  | O, _ :: l' => a :: l'
  | S n', b :: l' => b :: update_nth n' a l'
  end.

(** One scheduling decision: the task number [i] runs up to its next
    switching point. *)
Definition run_step (i : nat) (ts : list task) (st : fetcher)
  : list task * fetcher :=
  match nth_error ts i with
  | Some t =>
      match step_task t st with
      | (Ret t', st') => (update_nth i t' ts, st')
      | (Raise _, st') => (ts, st')
      end
  | None => (ts, st)
  end.

Fixpoint run_schedule (schedule : list nat) (ts : list task) (st : fetcher)
  : list task * fetcher :=
  match schedule with
  | [] => (ts, st)
  | i :: schedule' =>
      let '(ts', st') := run_step i ts st in
      run_schedule schedule' ts' st'
  end.

(** The mods one after the other, as a pool of one worker runs them. *)
Fixpoint run_sequential (mods : list string) : M (list bool) :=
  match mods with
  | [] => ret []
  | mod_name :: rest =>
      ok <- process_mod mod_name ;;
      oks <- run_sequential rest ;;
      ret (ok :: oks)
  end.

(** [ModItemsFetcher.__init__] on the state of a fresh object. *)
Definition init : M unit :=
  st <- get_state ;;
  (if download_images st &&
      match fs_get (files st) images_dir with Some _ => false | None => true end
   then
     if writable w images_dir then
       modify (fun st => emit (MakeDirs images_dir)
                           (set_files (fs_set (files st) images_dir Directory) st))
     else raise OSError
   else ret tt) ;;;
  load_existing_data.

End Orchestrator.

(** The object before [__init__] has run. *)
Definition fresh (download : bool) (fs : list (string * file)) : fetcher :=
  {| data := VNone; download_images := download;
     processed_count := 0; total_count := 0; failed_count := 0;
     files := fs; trace := [] |}.

(** The mod names of the records of a store. *)
Definition mod_names (store : value) : list value :=
  match store with
  | VDict kv =>
      match dict_get kv "mods" with
      | Some (VList ms) =>
          map (fun m => match m with
                        | VDict r => match dict_get r "mod_name" with
                                     | Some n => n
                                     | None => VNone
                                     end
                        | _ => VNone
                        end) ms
      | _ => []
      end
  | _ => []
  end.

(* ===================================================================== *)
(** ** A small concrete world *)
(* ===================================================================== *)

Module Demo.

(** The part of a URL after its host ([https://host/path]), up to a
    question mark or a hash sign. *)
Fixpoint after_slashes (n : nat) (s : string) : string :=
  match s with
  | EmptyString => EmptyString
  | String c s' =>
      if Ascii.eqb c "/" then
        match n with
        | O => s
        | S n' => after_slashes n' s'
        end
      else after_slashes n s'
  end.

Fixpoint until_query (s : string) : string :=
  match s with
  | EmptyString => EmptyString
  | String c s' =>
      if (Ascii.eqb c "?" || Ascii.eqb c "#")%bool then EmptyString
      else String c (until_query s')
  end.

Definition url_path (url : string) : option string :=
  Some (until_query (after_slashes 2 url)).

Definition param (params : list (string * value)) (k : string) : value :=
  match dict_get params k with
  | Some v => v
  | None => VNone
  end.

(** The wiki knows one mod, [AppleSkin], with two pages: [Apple] has a
    raster image, a vector image and an image whose name only contains
    [.png]; [Stick] has no image that resolves. *)
Definition wiki (params : list (string * value)) : response :=
  if py_eq_str (param params "list") "search" then
    if py_eq_str (param params "srsearch") "AppleSkin items" then
      Json (VDict [("query", VDict [("search",
              VList [ VDict [("title", VStr "Apple")];
                      VDict [("title", VStr "Stick")] ])])])
    else if py_eq_str (param params "srsearch") "Broken items" then NotJson
    else Json (VDict [("query", VDict [("search", VList [])])])
  else if py_eq_str (param params "prop") "images|extracts" then
    if py_eq_str (param params "titles") "Apple" then
      Json (VDict [("query", VDict [("pages", VDict [("17",
              VDict [ ("title", VStr "Apple");
                      ("extract", VStr "A fruit.");
                      ("images",
                       VList [ VDict [("title", VStr "File:Apple.PNG")];
                               VDict [("title", VStr "File:Apple.svg")];
                               VDict [("title", VStr "File:Apple.png.txt")] ]) ])])])])
    else if py_eq_str (param params "titles") "Stick" then
      Json (VDict [("query", VDict [("pages", VDict [("18",
              VDict [ ("title", VStr "Stick");
                      ("images",
                       VList [ VDict [("title", VStr "File:Stick.gif")] ]) ])])])])
    else Json (VDict [("query", VDict [("pages", VDict [])])])
  else if py_eq_str (param params "prop") "imageinfo" then
    if py_eq_str (param params "titles") "File:Apple.PNG" then
      Json (VDict [("query", VDict [("pages", VDict [("-1",
              VDict [("imageinfo",
                      VList [VDict [("url", VStr "https://img.example/a/Apple.PNG?cb=1")]])])])])])
    else if py_eq_str (param params "titles") "File:Apple.png.txt" then
      Json (VDict [("query", VDict [("pages", VDict [("-1",
              VDict [("imageinfo",
                      VList [VDict [("url", VStr "https://img.example/a/notes")]])])])])])
    else Json (VDict [("query", VDict [("pages", VDict [("-1", VDict [("missing", VStr EmptyString)])])])])
  else ConnectionFailed.

Definition world : World :=
  {| api_get := wiki;
     image_get := fun url => if Str.startswith "https://img.example/a/Apple" url
                             then Some "PNG-bytes" else None;
     urlparse_path := url_path;
     py_hash := fun url => - Z.of_nat (String.length url);
     py_str := fun _ => "None";
     writable := fun _ => true;
     failed_write := fun _ => None |}.

(** A process that starts on a store file that is not JSON. *)
Definition corrupted : fetcher :=
  fresh false [(json_file, Blob "{ mods: [")].

(** The description of the page [Apple]. *)
Definition apple : value :=
  VDict [ ("title", VStr "Apple");
          ("description", VStr "A fruit.");
          ("images", VList [ VStr "File:Apple.PNG"; VStr "File:Apple.svg";
                             VStr "File:Apple.png.txt" ]) ].

(** The same wiki on a read-only disk. *)
Definition read_only_world : World :=
  {| api_get := wiki;
     image_get := image_get world;
     urlparse_path := url_path;
     py_hash := py_hash world;
     py_str := py_str world;
     writable := fun _ => false;
     failed_write := fun _ => None |}.

Definition start (download : bool) (fs : list (string * file)) : fetcher :=
  snd (init world (fresh download fs)).

(** A run that finds [AppleSkin] already in the file of the store. *)
Definition cached : fetcher :=
  start false
    [(json_file,
      JsonText (VDict [("mods",
        VList [VDict [("mod_name", VStr "AppleSkin"); ("items", VList [])]])]))].


End Demo.


(* ===================================================================== *)
(** ** Vocabulary of the statements *)
(* ===================================================================== *)

(** The filter as the specification words it: the title ends in one of
    the extensions png, jpg, gif, whatever the case of its letters. *)
Definition ends_in_raster_extension (image_title : string) : bool :=
  existsb (fun ext => Str.endswith ext (Str.lower image_title)) ["png"; "jpg"; "gif"].

(** The store is a [dict] whose [mods] entry is the list [ms]. *)
Definition store_mods (store : value) (ms : list value) : Prop :=
  exists kv, store = VDict kv /\ dict_get kv "mods" = Some (VList ms).

(** [m] is a mod record with name [name]. *)
Definition mod_record (m name : value) : Prop :=
  exists r, m = VDict r /\ dict_get r "mod_name" = Some name.

(** Every entry of the store is a mod record. *)
Definition well_formed_store (store : value) : Prop :=
  exists ms, store_mods store ms /\ Forall (fun m => exists name, mod_record m name) ms.

(** The store has a record for [mod_name]. *)
Definition has_mod (store : value) (mod_name : string) : Prop :=
  exists ms m, store_mods store ms /\ In m ms /\ mod_record m (VStr mod_name).

(** The state after one API request whose reply could, or could not, be
    used. *)
Definition after_request (params : list (string * value)) (failed : bool)
  (st : fetcher) : fetcher :=
  if failed then emit (Log ERROR) (emit (ApiGet params) st)
  else emit (ApiGet params) st.

(** What the search stage makes of a reply. *)
Definition search_reply (r : response) : value :=
  match r with
  | Json (VDict kv) =>
      match dict_get kv "query" with
      | Some (VDict q) =>
          match dict_get q "search" with
          | Some found => found
          | None => VList []
          end
      | _ => VList []
      end
  | _ => VList []
  end.

(** The pages of a reply, [data['query']['pages']]. *)
Definition reply_pages (data : value) : result value :=
  and_then (py_getitem data (VStr "query")) (fun q => py_getitem q (VStr "pages")).

(** What the detail stage makes of a reply. *)
Definition details_reply (r : response) : value :=
  match r with
  | Json data =>
      match
        and_then (reply_pages data) (fun pages =>
        and_then (py_iter pages) (fun ids =>
        match ids with
        | page_id :: _ =>
            and_then (py_getitem pages page_id) (fun page =>
            and_then (item_record page) (fun rec => Ret (Some rec)))
        | [] => Ret None
        end))
      with
      | Ret (Some rec) => rec
      | _ => VNone
      end
  | _ => VNone
  end.

(** What the image resolution stage makes of a reply. *)
Definition imageinfo_reply (r : response) : value :=
  match r with
  | Json data =>
      match
        and_then (reply_pages data) (fun pages =>
        and_then (py_iter pages) (fun ids => first_imageinfo_url pages ids))
      with
      | Ret (Some url) => url
      | _ => VNone
      end
  | _ => VNone
  end.

(** The URL the wiki gives for an image title, [VNone] if it gives none. *)
Definition resolved_url (w : World) (image_title : value) : value :=
  imageinfo_reply (api_get w (imageinfo_params image_title)).


(** The images directory is there. *)
Definition images_dir_ready (fs : list (string * file)) : bool :=
  match fs_get fs images_dir with
  | Some Directory => true
  | _ => false
  end.

(** The local path [download_image] returns, [ready] telling whether the
    images directory is there. *)
Definition download_path (w : World) (ready : bool) (url item_name : value) : string :=
  match url with
  | VStr u =>
      match image_get w u, urlparse_path w u with
      | Some _, Some path =>
          let filepath := path_join images_dir (local_filename w u path item_name) in
          if ready && writable w filepath then filepath else EmptyString
      | _, _ => EmptyString
      end
  | _ => EmptyString
  end.

(** The methods change neither the store, nor the switch, nor the
    counters; files and trace may grow. *)
Definition same_object (st st' : fetcher) : Prop :=
  data st' = data st /\
  download_images st' = download_images st /\
  processed_count st' = processed_count st /\
  total_count st' = total_count st /\
  failed_count st' = failed_count st.

(** An image record as [process_image] builds it. *)
Definition image_record (name url : value) (local_path : string) : value :=
  VDict [("name", name); ("url", url); ("localPath", VStr local_path)].

(** An item description as [get_item_details] builds it. *)
Definition item_details_record (title description : value) (images : list value)
  : value :=
  VDict [("title", title); ("description", description); ("images", VList images)].

(** What [process_image] returns for an image title of an item. *)
Definition image_result (w : World) (download ready : bool) (title image_title : value)
  : value :=
  let url := resolved_url w image_title in
  if truthy url then
    image_record title url
      (if download then download_path w ready url title else EmptyString)
  else VNone.

(** The store and the switch are the same in both states. *)
Definition same_store (st st' : fetcher) : Prop :=
  data st' = data st /\ download_images st' = download_images st.

(** The image records an item with these image titles ends up with. *)
Definition item_images (w : World) (download ready : bool) (title : value)
  (titles : list string) : list value :=
  filter truthy
    (map (fun t => image_result w download ready title (VStr t))
         (filter image_title_qualifies titles)).

(** A mod record as [process_mod] builds it. *)
Definition mod_data_record (mod_name : string) (items : list value) : value :=
  VDict [("mod_name", VStr mod_name); ("items", VList items)].

(** The reply is a [dict] whose [query] entry is a [dict] with these
    [pages]. *)
Definition has_pages (data pages : value) : Prop :=
  exists kv q,
    data = VDict kv /\ dict_get kv "query" = Some (VDict q) /\
    dict_get q "pages" = Some pages.

(** [page.get(k, '')] on the entries of a page. *)
Definition page_field (page : list (string * value)) (k : string) : value :=
  match dict_get page k with
  | Some v => v
  | None => VStr EmptyString
  end.

(** The page lists these image titles: it has no [images] entry and
    there are none, or the entry is a list of records with a [title]
    each. *)
Definition page_image_titles (page : list (string * value)) (titles : list value)
  : Prop :=
  match dict_get page "images" with
  | None => titles = []
  | Some (VList imgs) =>
      Forall2 (fun img t => exists r, img = VDict r /\ dict_get r "title" = Some t)
              imgs titles
  | Some _ => False
  end.

(** An image record whose URL the wiki resolved for a title that passed
    the filter. *)
Definition resolved_image (w : World) (r : value) : Prop :=
  exists name image_title local_path,
    r = image_record name (resolved_url w (VStr image_title)) local_path /\
    image_title_qualifies image_title = true /\
    truthy (resolved_url w (VStr image_title)) = true.

(** An image record checked against the files: it keeps a remote URL;
    its local path is empty when downloading is off; and a local path
    that is not empty names a file of the images directory that holds
    bytes. *)
Definition image_record_ok (download : bool) (fs : list (string * file)) (r : value)
  : Prop :=
  exists name url local_path,
    r = image_record name url local_path /\
    truthy url = true /\
    (download = false -> local_path = EmptyString) /\
    (local_path <> EmptyString ->
     exists fname content,
       local_path = images_dir ++ "/" ++ fname /\
       fs_get fs local_path = Some (Blob content)).

(** An image record of the store: resolved, and sound against the files. *)
Definition stored_image (w : World) (download : bool) (fs : list (string * file))
  (r : value) : Prop :=
  resolved_image w r /\ image_record_ok download fs r.

(** An item record of the store: at least one image, all of them sound. *)
Definition stored_item (w : World) (download : bool) (fs : list (string * file))
  (item : value) : Prop :=
  exists images,
    item = VDict [("images", VList images)] /\
    images <> [] /\
    Forall (stored_image w download fs) images.

(** The image records of an item record. *)
Definition item_image_records (item : value) : list value :=
  match item with
  | VDict kv =>
      match dict_get kv "images" with
      | Some (VList images) => images
      | _ => []
      end
  | _ => []
  end.

(** The item records of a mod record. *)
Definition mod_items (m : value) : list value :=
  match m with
  | VDict r =>
      match dict_get r "items" with
      | Some (VList items) => items
      | _ => []
      end
  | _ => []
  end.

(** Every image record of the store: those of every item of every mod. *)
Definition store_image_records (store : value) : list value :=
  match store with
  | VDict kv =>
      match dict_get kv "mods" with
      | Some (VList ms) =>
          flat_map (fun m => flat_map item_image_records (mod_items m)) ms
      | _ => []
      end
  | _ => []
  end.

(** A file of the images directory that held bytes still holds bytes. *)
Definition images_kept (fs fs' : list (string * file)) : Prop :=
  forall fname content,
    fs_get fs (images_dir ++ "/" ++ fname) = Some (Blob content) ->
    exists content', fs_get fs' (images_dir ++ "/" ++ fname) = Some (Blob content').

(** What the detail stage returned for a search hit, when it is null or
    a record whose image titles are strings. *)
Definition typed_details : Type := option (value * value * list string).

Definition render_details (d : typed_details) : value :=
  match d with
  | Some (title, description, titles) =>
      item_details_record title description (map VStr titles)
  | None => VNone
  end.



(** The item record of an item that is kept. *)
Definition item_data (w : World) (download ready : bool) (d : typed_details) : value :=
  match d with
  | Some (title, _, titles) =>
      VDict [("images", VList (item_images w download ready title titles))]
  | None => VNone
  end.

(* ===================================================================== *)
(** ** The worklist and [main] *)
(* ===================================================================== *)

Definition mods_file : string := "mods_data.json".

(** [get_mods_from_json]: the [name] of every entry of [mods_data.json],
    or the empty list when anything goes wrong.  It runs before the
    fetcher exists; of the state it uses the file system and the trace. *)
Definition get_mods_from_json : M (list value) :=
  try_except
    (st <- get_state ;;
     match fs_get (files st) mods_file with
     | Some (JsonText data) =>
         l <- lift (py_iter data) ;;
         lift (map_result (fun entry => py_getitem entry (VStr "name")) l)
     | Some (Blob _) => raise JSONDecodeError
     | Some Unreadable => raise OSError
     | Some Directory => raise OSError
     | None => raise OSError
     end)
    (fun e =>
       logging ERROR ;;;
       ret []).

(** What [argparse] hands to [main]. *)
Record args : Type := {
  arg_mods : option (list string);
  arg_download : bool;
  arg_from_json : bool;
  arg_workers : Z
}.

Definition set_total_count (n : Z) (st : fetcher) : fetcher :=
  {| data := data st; download_images := download_images st;
     processed_count := processed_count st; total_count := n;
     failed_count := failed_count st; files := files st; trace := trace st |}.

(** Lines 281-290 of [main]: the worklist, or [None] where [main]
    returns at once. *)
Definition select_mods (a : args) : M (option (list value)) :=
  if arg_from_json a then
    mods <- get_mods_from_json ;;
    if negb (truthy (VList mods)) then
      logging ERROR ;;;
      ret None
    else
      logging INFO ;;;
      ret (Some mods)
  else
    match arg_mods a with
    | Some (mod_name :: rest) => ret (Some (map VStr (mod_name :: rest)))
    | _ => ret (Some [VStr "AppleSkin"])
    end.

(** The names of a worklist when all of them are strings, the case
    [process_mod] is modelled for. *)
Fixpoint names_of (mods : list value) : option (list string) :=
  match mods with
  | [] => Some []
  | VStr s :: rest =>
      match names_of rest with
      | Some names => Some (s :: names)
      | None => None
      end
  | _ :: _ => None
  end.

(** Every task up to its end, one after the other: what leaving the
    [with] block of the pool waits for. *)
Definition drain (n : nat) : list nat :=
  flat_map (fun i => [i; i; i]) (seq 0 n).

Section Driver.

Variable w : World.

(** Lines 292-310 of [main] on a worklist of strings.  [schedule] is the
    order in which the pool lets the tasks advance; [process_mod] catches
    what it raises, so [future.result()] has nothing to re-raise.
    [ThreadPoolExecutor] raises [ValueError] for a number of workers that
    is not positive. *)
Definition run_mods (a : args) (schedule : list nat) (names : list string) : M unit :=
  init w ;;;
  modify (set_total_count (Z.of_nat (List.length names))) ;;;
  (if arg_workers a <=? 0 then raise ValueError else ret tt) ;;;
  modify (fun st =>
            snd (run_schedule w (schedule ++ drain (List.length names))
                   (map Pending names) st)) ;;;
  logging INFO ;;;
  logging INFO ;;;
  logging INFO ;;;
  logging INFO.

(** [main].  The state it starts from is [fresh (arg_download a) fs];
    the result is [None] when the worklist of [mods_data.json] has a name
    that is not a string. *)
Definition main (a : args) (schedule : list nat) (st : fetcher)
  : option (result unit * fetcher) :=
  match select_mods a st with
  | (Ret None, st1) => Some (Ret tt, st1)
  | (Ret (Some mods), st1) =>
      match names_of mods with
      | Some names => Some (run_mods a schedule names st1)
      | None => None
      end
  | (Raise e, st1) => Some (Raise e, st1)
  end.

End Driver.

(** The store file is what it was. *)
Definition store_file_kept (st st' : fetcher) : Prop :=
  fs_get (files st') json_file = fs_get (files st) json_file.

(** What no stage of [process_mod] before the append undoes: the store,
    the switch, the total and the store file are what they were, and the
    two counters did not go down. *)
Definition grows (st st' : fetcher) : Prop :=
  data st' = data st /\
  download_images st' = download_images st /\
  total_count st' = total_count st /\
  store_file_kept st st' /\
  failed_count st <= failed_count st' /\
  processed_count st <= processed_count st' /\
  fs_get (files st') images_dir = fs_get (files st) images_dir /\
  images_kept (files st) (files st').

(** [sanitize_filename] character by character. *)
Definition sanitize_char (c : ascii) : ascii :=
  if existsb (Ascii.eqb c) invalid_chars then "_"%char else c.

Fixpoint map_chars (f : ascii -> ascii) (s : string) : string :=
  match s with
  | EmptyString => EmptyString
  | String c s' => String (f c) (map_chars f s')
  end.

(** The entries of a worklist file are records with a name each. *)
Definition worklist_names (data : value) (names : list value) : Prop :=
  exists entries,
    data = VList entries /\
    Forall2 (fun entry name =>
               exists r, entry = VDict r /\ dict_get r "name" = Some name)
            entries names.

(** The pages before the first one with an [imageinfo] are records
    without one. *)
Definition no_imageinfo (page : string * value) : Prop :=
  exists r, snd page = VDict r /\ dict_get r "imageinfo" = None.

(** The keys of a [dict] are distinct, as [json] makes them. *)
Definition distinct_keys (kv : list (string * value)) : Prop :=
  NoDup (map fst kv).

Module Scenario.

(** A worklist file with two mods and a key the program ignores. *)
Definition worklist : list (string * file) :=
  [(mods_file,
    JsonText (VList [ VDict [("name", VStr "AppleSkin"); ("id", VInt 7)];
                      VDict [("name", VStr "Nothing")] ]))].

(** A worklist file with one entry that has no name. *)
Definition bad_worklist : list (string * file) :=
  [(mods_file,
    JsonText (VList [ VDict [("name", VStr "AppleSkin")];
                      VDict [("title", VStr "Nothing")] ]))].

(** A store file that is JSON but not a store. *)
Definition list_store : list (string * file) :=
  [(json_file, JsonText (VList []))].

Definition from_json_args : args :=
  {| arg_mods := Some ["AppleSkin"]; arg_download := true;
     arg_from_json := true; arg_workers := 10 |}.

Definition mods_args (names : list string) (download : bool) (workers : Z) : args :=
  {| arg_mods := Some names; arg_download := download;
     arg_from_json := false; arg_workers := workers |}.

(** The reply to an image query with two pages, the second of which has
    the URL. *)
Definition two_pages : World :=
  {| api_get := fun _ =>
       Json (VDict [("query", VDict [("pages", VDict [
               ("-1", VDict [("title", VStr "File:A.png"); ("missing", VStr EmptyString)]);
               ("12", VDict [("imageinfo",
                              VList [VDict [("url", VStr "https://img.example/A.png")]])])
             ])])]);
     image_get := fun _ => None;
     urlparse_path := fun _ => None;
     py_hash := fun _ => 0;
     py_str := fun _ => "None";
     writable := fun _ => true;
     failed_write := fun _ => None |}.

(** The reply to an image query whose first page has an empty
    [imageinfo] and whose second page has the URL. *)
Definition empty_info : World :=
  {| api_get := fun _ =>
       Json (VDict [("query", VDict [("pages", VDict [
               ("5", VDict [("imageinfo", VList [])]);
               ("12", VDict [("imageinfo",
                              VList [VDict [("url", VStr "https://img.example/A.png")]])])
             ])])]);
     image_get := fun _ => None;
     urlparse_path := fun _ => None;
     py_hash := fun _ => 0;
     py_str := fun _ => "None";
     writable := fun _ => true;
     failed_write := fun _ => None |}.


(** A wiki that has no page of the title asked for, and says so the way
    MediaWiki does: with one entry, marked as missing, under the key -1. *)
Definition missing_page : World :=
  {| api_get := fun _ =>
       Json (VDict [("query", VDict [("pages", VDict [
               ("-1", VDict [("ns", VInt 0); ("title", VStr "Nobody");
                             ("missing", VStr EmptyString)])
             ])])]);
     image_get := fun _ => None;
     urlparse_path := fun _ => None;
     py_hash := fun _ => 0;
     py_str := fun _ => "None";
     writable := fun _ => true;
     failed_write := fun _ => None |}.

(** The wiki of [Demo] on a disk that is full: a file can be opened for
    writing, which empties it, and nothing can be written to it. *)
Definition full_disk : World :=
  {| api_get := Demo.wiki;
     image_get := image_get Demo.world;
     urlparse_path := Demo.url_path;
     py_hash := py_hash Demo.world;
     py_str := py_str Demo.world;
     writable := fun _ => false;
     failed_write := fun _ => Some EmptyString |}.

(** A store with one mod, in memory. *)
Definition one_mod : fetcher :=
  set_data (VDict [("mods", VList [mod_data_record "AppleSkin" []])]) (fresh false []).

End Scenario.

(* ===================================================================== *)
(** ** Facts about strings *)
(* ===================================================================== *)

Lemma mem_char_app (c : ascii) (s t : string) :
  Str.mem_char c (s ++ t) = (Str.mem_char c s || Str.mem_char c t)%bool.
Proof.
  induction s as [|d s IH]; simpl.
  - reflexivity.
  - rewrite IH. now rewrite orb_assoc.
Qed.

Lemma replace_char_removes (old : ascii) (s : string) :
  old <> "_"%char -> Str.mem_char old (Str.replace_char old "_" s) = false.
Proof.
  intros Hne. induction s as [|d s IH]; cbn [Str.replace_char Str.mem_char].
  - reflexivity.
  - destruct (Ascii.eqb d old) eqn:E; cbn [Str.mem_char String.append].
    + rewrite IH.
      destruct (Ascii.eqb_spec "_"%char old) as [Heq|_]; [now subst|reflexivity].
    + now rewrite E, IH.
Qed.

Lemma replace_char_keeps_absent (c old : ascii) (s : string) :
  c <> "_"%char -> Str.mem_char c s = false ->
  Str.mem_char c (Str.replace_char old "_" s) = false.
Proof.
  intros Hne. induction s as [|d s IH]; cbn [Str.replace_char Str.mem_char]; intros H.
  - reflexivity.
  - apply orb_false_iff in H as [Hd Hs].
    destruct (Ascii.eqb d old); cbn [Str.mem_char String.append].
    + rewrite (IH Hs).
      destruct (Ascii.eqb_spec "_"%char c) as [Heq|_]; [now subst|reflexivity].
    + now rewrite Hd, (IH Hs).
Qed.

Lemma take_keeps_absent (c : ascii) (n : nat) (s : string) :
  Str.mem_char c s = false -> Str.mem_char c (Str.take n s) = false.
Proof.
  revert s; induction n as [|n IH]; intros [|d s]; simpl; intros H; try reflexivity.
  apply orb_false_iff in H as [Hd Hs]. now rewrite Hd, (IH s Hs).
Qed.


(** Replacing the characters of [cs] one after the other leaves none of
    them, and none of those that were already gone. *)
Lemma replace_all_removes (cs : list ascii) :
  Forall (fun c => c <> "_"%char) cs ->
  forall (gone : list ascii) (s : string),
    Forall (fun c => c <> "_"%char) gone ->
    Forall (fun c => Str.mem_char c s = false) gone ->
    Forall (fun c =>
              Str.mem_char c
                (fold_left (fun fn char => Str.replace_char char "_" fn) cs s) = false)
           (gone ++ cs).
Proof.
  induction cs as [|c cs IH]; intros Hcs gone s Hgone Habs; simpl.
  - now rewrite app_nil_r.
  - inversion Hcs as [|? ? Hc Hcs']; subst.
    replace (gone ++ c :: cs)%list with ((gone ++ [c]) ++ cs)%list
      by now rewrite <- app_assoc.
    apply IH; auto.
    + apply Forall_app; split; auto.
    + apply Forall_app; split.
      * rewrite Forall_forall in *. intros d Hd.
        apply replace_char_keeps_absent; auto.
      * constructor; [|constructor]. now apply replace_char_removes.
Qed.

Lemma invalid_chars_not_underscore :
  Forall (fun c => c <> "_"%char) invalid_chars.
Proof. repeat constructor; discriminate. Qed.

Lemma sanitize_filename_clean (filename : string) :
  Forall (fun c => Str.mem_char c (sanitize_filename filename) = false) invalid_chars.
Proof.
  unfold sanitize_filename.
  pose proof (replace_all_removes invalid_chars invalid_chars_not_underscore
                [] filename (Forall_nil _) (Forall_nil _)) as H.
  simpl app in H. rewrite Forall_forall in *. intros c Hc.
  apply take_keeps_absent. now apply H.
Qed.

Lemma startswith_char_mem (c : ascii) (s : string) :
  Str.startswith (String c EmptyString) s = true -> Str.mem_char c s = true.
Proof.
  destruct s as [|d s]; simpl; [discriminate|].
  destruct (ascii_dec c d) as [->|]; [|discriminate].
  now rewrite Ascii.eqb_refl.
Qed.

Lemma path_join_sanitized (dir name : string) :
  path_join dir (sanitize_filename name) = dir ++ "/" ++ sanitize_filename name.
Proof.
  unfold path_join.
  destruct (Str.startswith "/" (sanitize_filename name)) eqn:E; [|reflexivity].
  apply startswith_char_mem in E.
  pose proof (sanitize_filename_clean name) as H.
  rewrite Forall_forall in H.
  rewrite (H "/"%char) in E; [discriminate|].
  unfold invalid_chars; simpl; tauto.
Qed.

(** [sub in s] holds exactly when [s] splits around [sub]. *)
Lemma prefix_split (p s : string) :
  String.prefix p s = true <-> exists post, s = p ++ post.
Proof.
  revert s; induction p as [|c p IH]; intros s; simpl.
  - destruct s; split; eauto.
  - destruct s as [|d s]; simpl.
    + split; [discriminate|intros [post H]; discriminate].
    + destruct (ascii_dec c d) as [->|Hne].
      * rewrite IH. split; intros [post H]; exists post; [now subst|now inversion H].
      * split; [discriminate|intros [post H]; congruence].
Qed.

Lemma contains_split (sub s : string) :
  Str.contains sub s = true <-> exists pre post, s = pre ++ sub ++ post.
Proof.
  induction s as [|d s IH]; cbn [Str.contains]; unfold Str.startswith.
  - rewrite orb_false_r, prefix_split. split.
    + intros [post H]. exists EmptyString, post. exact H.
    + intros [pre [post H]]. destruct pre; simpl in H; [eauto|discriminate].
  - rewrite orb_true_iff, IH, prefix_split. split.
    + intros [[post H]|[pre [post H]]].
      * exists EmptyString, post. exact H.
      * exists (String d pre), post. simpl. now rewrite H.
    + intros [pre [post H]]. destruct pre as [|e pre]; simpl in H.
      * left. eauto.
      * right. inversion H. eauto.
Qed.

(* ===================================================================== *)
(** ** Files and records *)
(* ===================================================================== *)

Lemma fs_get_set (fs : list (string * file)) (path : string) (f : file) :
  fs_get (fs_set fs path f) path = Some f.
Proof.
  induction fs as [|[p g] fs IH]; simpl.
  - now rewrite String.eqb_refl.
  - destruct (String.eqb p path) eqn:E; simpl; now rewrite E.
Qed.

Lemma fs_get_set_other (fs : list (string * file)) (p q : string) (f : file) :
  q <> p -> fs_get (fs_set fs p f) q = fs_get fs q.
Proof.
  intros Hne. induction fs as [|[p' g] fs IH]; cbn [fs_set fs_get].
  - destruct (String.eqb_spec p q); [congruence|reflexivity].
  - destruct (String.eqb_spec p' p) as [->|Hp]; cbn [fs_get].
    + destruct (String.eqb_spec p q); [congruence|reflexivity].
    + destruct (String.eqb p' q); [reflexivity|exact IH].
Qed.

Lemma dict_get_set (kv : list (string * value)) (k : string) (v : value) :
  dict_get (dict_set kv k v) k = Some v.
Proof.
  induction kv as [|[k' v'] kv IH]; simpl.
  - now rewrite String.eqb_refl.
  - destruct (String.eqb k' k) eqn:E; simpl; now rewrite E.
Qed.

Lemma rfind_from_absent (c : ascii) (s : string) (i last : Z) :
  Str.mem_char c s = false -> Str.rfind_from c s i last = last.
Proof.
  revert i last. induction s as [|d s IH]; intros i last;
    cbn [Str.mem_char Str.rfind_from].
  - reflexivity.
  - intros H. apply orb_false_iff in H as [Hd Hs]. rewrite Hd. now apply IH.
Qed.

(** The store file lies in the working directory. *)
Lemma parent_ok_json_file (fs : list (string * file)) : parent_ok fs json_file = true.
Proof. reflexivity. Qed.

(** An image file lies in the images directory. *)
Lemma parent_ok_image (fs : list (string * file)) (name : string) :
  Str.mem_char "/" name = false ->
  parent_ok fs (images_dir ++ "/" ++ name) = images_dir_ready fs.
Proof.
  intros H. unfold parent_ok, parent_dir, Str.rfind, images_dir_ready.
  change (images_dir ++ "/" ++ name) with ("mod_items_data" ++ String "/" name).
  cbn [String.append Str.rfind_from]. cbn -[Str.rfind_from fs_get].
  rewrite (rfind_from_absent _ _ _ _ H).
  reflexivity.
Qed.

Lemma image_path_not_store (name : string) : images_dir ++ "/" ++ name <> json_file.
Proof. discriminate. Qed.

Lemma image_path_not_dir (name : string) : images_dir ++ "/" ++ name <> images_dir.
Proof. discriminate. Qed.

Lemma images_kept_refl (fs : list (string * file)) : images_kept fs fs.
Proof. intros fname content H. eauto. Qed.

Lemma images_kept_trans (a b c : list (string * file)) :
  images_kept a b -> images_kept b c -> images_kept a c.
Proof.
  intros Hab Hbc fname content H.
  destruct (Hab fname content H) as [content' H']. eauto.
Qed.

Lemma images_kept_blob (fs : list (string * file)) (path content : string) :
  images_kept fs (fs_set fs path (Blob content)).
Proof.
  intros fname c H.
  destruct (string_dec (images_dir ++ "/" ++ fname) path) as [<-|Hne].
  - rewrite fs_get_set. eauto.
  - rewrite fs_get_set_other by exact Hne. eauto.
Qed.

Lemma images_kept_store (fs : list (string * file)) (f : file) :
  images_kept fs (fs_set fs json_file f).
Proof.
  intros fname c H. rewrite fs_get_set_other by apply image_path_not_store. eauto.
Qed.

(* ===================================================================== *)
(** ** What one call of each stage does *)
(* ===================================================================== *)

Ltac run :=
  unfold bind, try_except, ret, raise, lift, modify, get_state, logging.

Ltac sched :=
  cbv beta iota delta [run_schedule run_step step_task process_mod_failed
                       bind try_except ret raise lift modify get_state logging
                       bump_failed bump_processed fst snd];
  cbn [nth_error update_nth];
  cbv beta iota delta [run_schedule run_step step_task process_mod_failed
                       bind try_except ret raise lift modify get_state logging
                       bump_failed bump_processed fst snd].

Ltac run_all :=
  cbv beta iota delta [bind try_except ret raise lift modify get_state logging
                       bump_failed bump_processed fst snd].

Lemma same_object_refl (st : fetcher) : same_object st st.
Proof. unfold same_object; tauto. Qed.

Lemma same_object_trans (a b c : fetcher) :
  same_object a b -> same_object b c -> same_object a c.
Proof. unfold same_object; intuition congruence. Qed.

Lemma same_object_emit (e : event) (st : fetcher) : same_object st (emit e st).
Proof. unfold same_object; simpl; tauto. Qed.

Lemma same_object_after_request params failed st :
  same_object st (after_request params failed st).
Proof. unfold after_request; destruct failed; unfold same_object; simpl; tauto. Qed.

Lemma get_mod_items_run (w : World) (mod_name : string) (st : fetcher) :
  exists failed,
    get_mod_items w mod_name st =
    (Ret (search_reply (api_get w (search_params mod_name))),
     after_request (search_params mod_name) failed st).
Proof.
  unfold get_mod_items, requests_get_json, search_reply, after_request. run.
  cbn [fst snd].
  destruct (api_get w (search_params mod_name)) as [| |d].
  - exists true; reflexivity.
  - exists true; reflexivity.
  - destruct d as [|b|z|s|l|kv]; cbn.
    + exists true; reflexivity.
    + exists true; reflexivity.
    + exists true; reflexivity.
    + destruct (Str.contains "query" s); [exists true|exists false]; reflexivity.
    + destruct (existsb _ l); [exists true|exists false]; reflexivity.
    + destruct (dict_get kv "query") as [q|] eqn:Eq; cbn.
      * destruct q as [|b|z|s|l|q]; cbn; try (exists true; reflexivity).
        -- destruct (Str.contains "search" s); cbn; [exists true|exists false]; reflexivity.
        -- destruct (existsb _ l); cbn; [exists true|exists false]; reflexivity.
        -- destruct (dict_get q "search") as [found|]; cbn; exists false; reflexivity.
      * exists false; reflexivity.
Qed.

Lemma get_item_details_run (w : World) (page_title : value) (st : fetcher) :
  exists failed,
    get_item_details w page_title st =
    (Ret (details_reply (api_get w (details_params page_title))),
     after_request (details_params page_title) failed st).
Proof.
  unfold get_item_details, requests_get_json, details_reply, reply_pages, after_request.
  run. cbn [fst snd].
  destruct (api_get w (details_params page_title)) as [| |d];
    try (exists true; reflexivity).
  destruct (py_getitem d (VStr "query")) as [q|e]; cbn [and_then];
    [|exists true; reflexivity].
  destruct (py_getitem q (VStr "pages")) as [pages|e]; cbn [and_then];
    [|exists true; reflexivity].
  destruct (py_iter pages) as [ids|e]; cbn [and_then];
    [|exists true; reflexivity].
  destruct ids as [|page_id ids]; [exists false; reflexivity|].
  destruct (py_getitem pages page_id) as [page|e]; cbn [and_then];
    [|exists true; reflexivity].
  destruct (item_record page) as [rec|e]; cbn [and_then];
    [exists false|exists true]; reflexivity.
Qed.

Lemma get_image_url_run (w : World) (image_title : value) (st : fetcher) :
  exists failed,
    get_image_url w image_title st =
    (Ret (resolved_url w image_title),
     after_request (imageinfo_params image_title) failed st).
Proof.
  unfold get_image_url, requests_get_json, resolved_url, imageinfo_reply,
    reply_pages, after_request.
  run. cbn [fst snd].
  destruct (api_get w (imageinfo_params image_title)) as [| |d];
    try (exists true; reflexivity).
  destruct (py_getitem d (VStr "query")) as [q|e]; cbn [and_then];
    [|exists true; reflexivity].
  destruct (py_getitem q (VStr "pages")) as [pages|e]; cbn [and_then];
    [|exists true; reflexivity].
  destruct (py_iter pages) as [ids|e]; cbn [and_then];
    [|exists true; reflexivity].
  destruct (first_imageinfo_url pages ids) as [[url|]|e];
    [exists false|exists false|exists true]; reflexivity.
Qed.

Lemma write_file_run (w : World) (path : string) (f : file) (st : fetcher) :
  write_file w path f st =
    if parent_ok (files st) path then
      if writable w path then
        (Ret tt, emit (FileWrite path) (set_files (fs_set (files st) path f) st))
      else
        match failed_write w path with
        | Some partial =>
            (Raise OSError, set_files (fs_set (files st) path (Blob partial)) st)
        | None => (Raise OSError, st)
        end
    else (Raise OSError, st).
Proof.
  unfold write_file. run.
  destruct (parent_ok (files st) path); [|reflexivity].
  destruct (writable w path); [reflexivity|].
  destruct (failed_write w path); reflexivity.
Qed.

(** What [download_image] returns, and what it does to the files and to
    the trace. *)
Lemma download_image_files (w : World) (url item_name : value) (st : fetcher) :
  exists st',
    download_image w url item_name st =
      (Ret (download_path w (images_dir_ready (files st)) url item_name), st') /\
    same_object st st' /\
    (download_path w (images_dir_ready (files st)) url item_name = EmptyString ->
     trace st' = Log ERROR :: ImageGet url :: trace st /\
     (files st' = files st \/
      exists name partial,
        files st' = fs_set (files st) (images_dir ++ "/" ++ name) (Blob partial))) /\
    (download_path w (images_dir_ready (files st)) url item_name <> EmptyString ->
     exists u content name,
       url = VStr u /\ image_get w u = Some content /\
       download_path w (images_dir_ready (files st)) url item_name =
         images_dir ++ "/" ++ name /\
       Str.mem_char "/" name = false /\ Str.mem_char "\" name = false /\
       images_dir_ready (files st) = true /\
       files st' = fs_set (files st) (images_dir ++ "/" ++ name) (Blob content) /\
       trace st' =
         Log INFO :: FileWrite (images_dir ++ "/" ++ name) :: ImageGet url :: trace st).
Proof.
  unfold download_image, requests_get_content, download_path.
  run_all.
  destruct url as [|b|z|u|l|kv];
    try (eexists; split; [reflexivity|]; split;
         [unfold same_object; simpl; tauto|split; [auto|congruence]]).
  destruct (image_get w u) as [content|] eqn:Ei;
    [|eexists; split; [reflexivity|]; split;
      [unfold same_object; simpl; tauto|split; [auto|congruence]]].
  destruct (urlparse_path w u) as [path|];
    [|eexists; split; [reflexivity|]; split;
      [unfold same_object; simpl; tauto|split; [auto|congruence]]].
  cbv zeta. rewrite write_file_run. unfold local_filename.
  rewrite path_join_sanitized.
  match goal with |- context [sanitize_filename ?x] =>
    pose proof (sanitize_filename_clean x) as Hclean;
    set (name := sanitize_filename x) in * end.
  rewrite Forall_forall in Hclean.
  assert (Hs : Str.mem_char "/" name = false)
    by (apply Hclean; unfold invalid_chars; simpl; tauto).
  assert (Hb : Str.mem_char "\" name = false)
    by (apply Hclean; unfold invalid_chars; simpl; tauto).
  cbn [files emit]. rewrite (parent_ok_image _ name Hs).
  destruct (images_dir_ready (files st)) eqn:Er; cbn [andb].
  - destruct (writable w (images_dir ++ "/" ++ name)).
    + eexists; split; [reflexivity|]. split; [unfold same_object; simpl; tauto|].
      split; [discriminate|]. intros _.
      exists u, content, name. repeat (split; [reflexivity || assumption|]).
      reflexivity.
    + destruct (failed_write w (images_dir ++ "/" ++ name)) as [partial|];
        eexists; (split; [reflexivity|]); (split; [unfold same_object; simpl; tauto|]);
        (split; [|congruence]); intros _; (split; [reflexivity|]).
      * right. exists name, partial. reflexivity.
      * left. reflexivity.
  - eexists; split; [reflexivity|]. split; [unfold same_object; simpl; tauto|].
    split; [|congruence]. intros _. split; [reflexivity|left; reflexivity].
Qed.

Lemma download_image_run (w : World) (url item_name : value) (st : fetcher) :
  exists st',
    download_image w url item_name st =
      (Ret (download_path w (images_dir_ready (files st)) url item_name), st') /\
    same_object st st'.
Proof.
  destruct (download_image_files w url item_name st) as [st' [Hrun [Hso _]]].
  eauto.
Qed.

(** [process_image] on the description of an item: the URL is asked
    for, and the image is downloaded when there is a URL and downloading
    is on. *)
Lemma process_image_steps (w : World) (image_title title description : value)
  (images : list value) (st : fetcher) :
  exists failed st',
    process_image w image_title (item_details_record title description images) st =
      (Ret (image_result w (download_images st) (images_dir_ready (files st))
              title image_title), st') /\
    (if truthy (resolved_url w image_title) && download_images st
     then download_image w (resolved_url w image_title) title
            (after_request (imageinfo_params image_title) failed st) =
          (Ret (download_path w (images_dir_ready (files st))
                  (resolved_url w image_title) title), st')
     else st' = after_request (imageinfo_params image_title) failed st).
Proof.
  unfold process_image, image_result. cbv zeta.
  destruct (get_image_url_run w image_title st) as [failed Hurl].
  exists failed.
  unfold bind at 2. unfold try_except. unfold bind at 1. rewrite Hurl.
  pose proof (same_object_after_request (imageinfo_params image_title) failed st) as Hso.
  assert (Hfiles : files (after_request (imageinfo_params image_title) failed st) =
                   files st) by (unfold after_request; destruct failed; reflexivity).
  set (st1 := after_request (imageinfo_params image_title) failed st) in *.
  destruct (truthy (resolved_url w image_title)); cbn [andb].
  - unfold item_details_record. cbn [py_getitem dict_get String.eqb Ascii.eqb Bool.eqb].
    run. cbn [fst snd].
    replace (download_images st1) with (download_images st) by (symmetry; apply Hso).
    destruct (download_images st).
    + destruct (download_image_run w (resolved_url w image_title) title st1)
        as [st2 [Hd Hso2]].
      rewrite Hfiles in Hd. rewrite Hd. eexists; split; reflexivity.
    + eexists; split; reflexivity.
  - run. eexists; split; reflexivity.
Qed.

Lemma process_image_run (w : World) (image_title title description : value)
  (images : list value) (st : fetcher) :
  exists st',
    process_image w image_title (item_details_record title description images) st =
    (Ret (image_result w (download_images st) (images_dir_ready (files st))
            title image_title), st') /\
    same_object st st'.
Proof.
  destruct (process_image_steps w image_title title description images st)
    as [failed [st' [Hrun Hst]]].
  exists st'. split; [exact Hrun|].
  pose proof (same_object_after_request (imageinfo_params image_title) failed st) as Hso.
  destruct (truthy (resolved_url w image_title) && download_images st).
  - destruct (download_image_run w (resolved_url w image_title) title
                (after_request (imageinfo_params image_title) failed st))
      as [st2 [Hd Hso2]].
    rewrite Hd in Hst. inversion Hst; subst st2.
    eapply same_object_trans; eauto.
  - subst st'. exact Hso.
Qed.

Lemma item_record_shape (page rec : value) :
  item_record page = Ret rec ->
  exists title description images, rec = item_details_record title description images.
Proof.
  unfold item_record, item_details_record.
  destruct (py_get page "title" (VStr EmptyString)) as [title|]; cbn [and_then]; [|discriminate].
  destruct (py_get page "extract" (VStr EmptyString)) as [description|]; cbn [and_then]; [|discriminate].
  destruct (py_in "images" page) as [has|]; cbn [and_then]; [|discriminate].
  match goal with |- and_then ?x _ = _ -> _ => destruct x as [images|] end;
    cbn [and_then]; [|discriminate].
  intros H; inversion H; eauto.
Qed.

Lemma details_reply_shape (r : response) :
  details_reply r = VNone \/
  exists title description images,
    details_reply r = item_details_record title description images.
Proof.
  unfold details_reply. destruct r as [| |data]; auto.
  destruct (reply_pages data) as [pages|]; cbn [and_then]; auto.
  destruct (py_iter pages) as [[|page_id ids]|]; cbn [and_then]; auto.
  destruct (py_getitem pages page_id) as [page|]; cbn [and_then]; auto.
  destruct (item_record page) as [rec|] eqn:E; cbn [and_then]; auto.
  right. eapply item_record_shape; eauto.
Qed.

(* ===================================================================== *)
(** ** What every stage leaves alone, whatever its outcome *)
(* ===================================================================== *)

Lemma same_store_refl (st : fetcher) : same_store st st.
Proof. unfold same_store; tauto. Qed.

Lemma same_object_store (st st' : fetcher) : same_object st st' -> same_store st st'.
Proof. unfold same_object, same_store; tauto. Qed.

Lemma same_store_trans (a b c : fetcher) :
  same_store a b -> same_store b c -> same_store a c.
Proof. unfold same_store; intuition congruence. Qed.

Lemma process_image_frame (w : World) (image_title item_details : value)
  (st : fetcher) :
  same_object st (snd (process_image w image_title item_details st)) /\
  exists r, fst (process_image w image_title item_details st) = Ret r.
Proof.
  unfold process_image. run_all.
  destruct (get_image_url_run w image_title st) as [failed Hurl]. rewrite Hurl.
  pose proof (same_object_after_request (imageinfo_params image_title) failed st) as Hso.
  set (st1 := after_request (imageinfo_params image_title) failed st) in *.
  destruct (truthy (resolved_url w image_title)); [|split; [exact Hso|eauto]].
  destruct (py_getitem item_details (VStr "title")) as [name|e].
  - destruct (download_images st1); [|split; [exact Hso|eauto]].
    destruct (download_image_run w (resolved_url w image_title) name st1)
      as [st2 [Hd Hso2]].
    rewrite Hd. split; [|eauto].
    eapply same_object_trans; eauto.
  - split; [|eauto].
    eapply same_object_trans; [exact Hso|apply same_object_emit].
Qed.

Lemma submit_images_frame (w : World) (titles : list value) (item_details : value)
  (st : fetcher) :
  same_object st (snd (submit_images w titles item_details st)).
Proof.
  revert st. induction titles as [|t titles IH]; intros st; cbn [submit_images]; run.
  - apply same_object_refl.
  - destruct (py_lower t) as [lowered|e]; [|apply same_object_refl].
    destruct (keeps_image lowered); [|apply IH].
    destruct (process_image_frame w t item_details st) as [Hso [r Hr]].
    destruct (process_image w t item_details st) as [r1 st1]. cbn [fst snd] in *.
    subst r1. specialize (IH st1).
    destruct (submit_images w titles item_details st1) as [[rs|e] st2];
      cbn [fst snd] in *; eapply same_object_trans; eauto.
Qed.

Lemma process_item_frame (w : World) (item_details : value) (items : list value)
  (st : fetcher) :
  same_store st (snd (process_item w item_details items st)).
Proof.
  unfold process_item. destruct (truthy item_details).
  - run. destruct (py_getitem item_details (VStr "images")) as [imgs|e];
      [|apply same_store_refl].
    destruct (py_iter imgs) as [titles|e]; [|apply same_store_refl].
    pose proof (submit_images_frame w titles item_details st) as Hso.
    destruct (submit_images w titles item_details st) as [[results|e] st1];
      cbn [fst snd] in *; [|now apply same_object_store].
    apply same_object_store in Hso.
    destruct (truthy (VList (filter truthy results))); [|exact Hso].
    unfold bump_processed. run. cbn [fst snd].
    destruct (py_getitem item_details (VStr "title")); cbn [fst snd];
      unfold same_store in *; simpl; tauto.
  - unfold bump_failed. run. cbn [fst snd]. unfold same_store; simpl; tauto.
Qed.

Lemma collect_items_frame (w : World) (details : list value) (items : list value)
  (st : fetcher) :
  same_store st (snd (collect_items w details items st)).
Proof.
  revert items st. induction details as [|d details IH]; intros items st;
    cbn [collect_items]; run.
  - apply same_store_refl.
  - pose proof (process_item_frame w d items st) as Hso.
    destruct (process_item w d items st) as [[items1|e] st1]; cbn [fst snd] in *;
      [|exact Hso].
    eapply same_store_trans; [exact Hso|apply IH].
Qed.

Lemma submit_items_frame (w : World) (l : list value) (st : fetcher) :
  same_object st (snd (submit_items w l st)).
Proof.
  revert st. induction l as [|item l IH]; intros st; cbn [submit_items]; run.
  - apply same_object_refl.
  - destruct (py_getitem item (VStr "title")) as [title|e]; [|apply same_object_refl].
    destruct (get_item_details_run w title st) as [failed Hd]. rewrite Hd.
    specialize (IH (after_request (details_params title) failed st)).
    destruct (submit_items w l (after_request (details_params title) failed st))
      as [[ds|e] st2]; cbn [fst snd] in *;
      (eapply same_object_trans; [apply same_object_after_request|exact IH]).
Qed.

Lemma process_mod_fetch_frame (w : World) (mod_name : string) (st : fetcher) :
  same_store st (snd (process_mod_fetch w mod_name st)).
Proof.
  unfold process_mod_fetch.
  destruct (get_mod_items_run w mod_name st) as [failed Hg].
  unfold bind at 1. rewrite Hg.
  pose proof (same_object_store _ _
                (same_object_after_request (search_params mod_name) failed st)) as Hso0.
  set (st0 := after_request (search_params mod_name) failed st) in *.
  destruct (truthy (search_reply (api_get w (search_params mod_name)))); cbn [negb].
  - run.
    destruct (py_iter (search_reply (api_get w (search_params mod_name)))) as [l|e];
      [|exact Hso0].
    pose proof (same_object_store _ _ (submit_items_frame w l st0)) as Hso1.
    destruct (submit_items w l st0) as [[details|e] st1]; cbn [fst snd] in *;
      [|eapply same_store_trans; eauto].
    pose proof (collect_items_frame w details [] st1) as Hso2.
    destruct (collect_items w details [] st1) as [[its|e] st2]; cbn [fst snd] in *;
      (eapply same_store_trans; [exact Hso0|eapply same_store_trans; eauto]).
  - unfold bump_failed. run. cbn [fst snd].
    unfold same_store in *; simpl; tauto.
Qed.

(* --------------------------------------------------------------------- *)
(** *** What the stages before the append leave alone *)

Lemma grows_refl (st : fetcher) : grows st st.
Proof.
  unfold grows, store_file_kept.
  repeat (split; [reflexivity || lia|]). apply images_kept_refl.
Qed.

Lemma grows_trans (a b c : fetcher) : grows a b -> grows b c -> grows a c.
Proof.
  unfold grows, store_file_kept.
  intros [H1 [H2 [H3 [H4 [H5 [H6 [H7 H8]]]]]]] [K1 [K2 [K3 [K4 [K5 [K6 [K7 K8]]]]]]].
  repeat (split; [congruence || lia|]). eapply images_kept_trans; eauto.
Qed.

Lemma grows_emit (e : event) (st : fetcher) : grows st (emit e st).
Proof.
  unfold grows, store_file_kept. cbn.
  repeat (split; [reflexivity || lia|]). apply images_kept_refl.
Qed.

Lemma grows_after_request params failed st : grows st (after_request params failed st).
Proof.
  unfold after_request. destruct failed; unfold grows, store_file_kept; cbn;
    repeat (split; [reflexivity || lia|]); apply images_kept_refl.
Qed.

Lemma grows_same_files (st st' : fetcher) :
  same_object st st' -> files st' = files st -> grows st st'.
Proof.
  unfold same_object, grows, store_file_kept. intros [H1 [H2 [H3 [H4 H5]]]] Hf.
  rewrite Hf. repeat (split; [assumption || reflexivity || lia|]).
  apply images_kept_refl.
Qed.

Lemma grows_image_write (st st' : fetcher) (name content : string) :
  same_object st st' ->
  files st' = fs_set (files st) (images_dir ++ "/" ++ name) (Blob content) ->
  grows st st'.
Proof.
  unfold same_object, grows, store_file_kept. intros [H1 [H2 [H3 [H4 H5]]]] Hf.
  rewrite Hf. do 3 (split; [assumption|]).
  split; [|split; [lia|split; [lia|split]]].
  - apply fs_get_set_other. intros E. symmetry in E. now apply image_path_not_store in E.
  - apply fs_get_set_other. intros E. symmetry in E. now apply image_path_not_dir in E.
  - apply images_kept_blob.
Qed.


Lemma grows_download (st st' : fetcher) :
  grows st st' -> download_images st' = download_images st.
Proof. unfold grows. tauto. Qed.

Lemma grows_kept (st st' : fetcher) : grows st st' -> images_kept (files st) (files st').
Proof. unfold grows. tauto. Qed.

Lemma download_image_grows (w : World) (url item_name : value) (st : fetcher) :
  grows st (snd (download_image w url item_name st)).
Proof.
  destruct (download_image_files w url item_name st) as [st' [Hrun [Hso [He Hne]]]].
  rewrite Hrun. cbn [snd].
  destruct (string_dec (download_path w (images_dir_ready (files st)) url item_name)
              EmptyString) as [E|Hp].
  - destruct (He E) as [_ [Hf|[name [partial Hf]]]].
    + now apply grows_same_files.
    + eapply grows_image_write; eauto.
  - destruct (Hne Hp) as [u [content [name [_ [_ [_ [_ [_ [_ [Hf _]]]]]]]]]].
    eapply grows_image_write; eauto.
Qed.

Lemma process_image_grows (w : World) (image_title item_details : value)
  (st : fetcher) :
  grows st (snd (process_image w image_title item_details st)).
Proof.
  unfold process_image. run_all.
  destruct (get_image_url_run w image_title st) as [failed Hurl]. rewrite Hurl.
  pose proof (grows_after_request (imageinfo_params image_title) failed st) as Hg.
  set (st1 := after_request (imageinfo_params image_title) failed st) in *.
  destruct (truthy (resolved_url w image_title)); [|exact Hg].
  destruct (py_getitem item_details (VStr "title")) as [name|e].
  - destruct (download_images st1); [|exact Hg].
    pose proof (download_image_grows w (resolved_url w image_title) name st1) as Hd.
    destruct (download_image_run w (resolved_url w image_title) name st1)
      as [st2 [Hrun _]].
    rewrite Hrun in *. cbn [snd] in Hd. eapply grows_trans; eauto.
  - eapply grows_trans; [exact Hg|apply grows_emit].
Qed.

Lemma submit_images_grows (w : World) (titles : list value) (item_details : value)
  (st : fetcher) :
  grows st (snd (submit_images w titles item_details st)).
Proof.
  revert st. induction titles as [|t titles IH]; intros st; cbn [submit_images]; run.
  - apply grows_refl.
  - destruct (py_lower t) as [lowered|e]; [|apply grows_refl].
    destruct (keeps_image lowered); [|apply IH].
    pose proof (process_image_grows w t item_details st) as Hg.
    destruct (process_image_frame w t item_details st) as [_ [r Hr]].
    destruct (process_image w t item_details st) as [r1 st1]. cbn [fst snd] in *.
    subst r1. specialize (IH st1).
    destruct (submit_images w titles item_details st1) as [[rs|e] st2];
      cbn [fst snd] in *; eapply grows_trans; eauto.
Qed.

Lemma grows_bump_processed (st : fetcher) :
  grows st (set_processed_count (processed_count st + 1) st).
Proof.
  unfold grows, store_file_kept. cbn.
  repeat (split; [reflexivity || lia|]). apply images_kept_refl.
Qed.

Lemma grows_bump_failed (st : fetcher) :
  grows st (set_failed_count (failed_count st + 1) st).
Proof.
  unfold grows, store_file_kept. cbn.
  repeat (split; [reflexivity || lia|]). apply images_kept_refl.
Qed.

Lemma process_item_grows (w : World) (item_details : value) (items : list value)
  (st : fetcher) :
  grows st (snd (process_item w item_details items st)).
Proof.
  unfold process_item. destruct (truthy item_details).
  - run. destruct (py_getitem item_details (VStr "images")) as [imgs|e];
      [|apply grows_refl].
    destruct (py_iter imgs) as [titles|e]; [|apply grows_refl].
    pose proof (submit_images_grows w titles item_details st) as Hg.
    destruct (submit_images w titles item_details st) as [[results|e] st1];
      cbn [fst snd] in *; [|exact Hg].
    destruct (truthy (VList (filter truthy results))); [|exact Hg].
    unfold bump_processed. run. cbn [fst snd].
    destruct (py_getitem item_details (VStr "title")); cbn [fst snd].
    + eapply grows_trans; [exact Hg|].
      eapply grows_trans; [apply grows_bump_processed|apply grows_emit].
    + eapply grows_trans; [exact Hg|apply grows_bump_processed].
  - unfold bump_failed. run. cbn [fst snd]. apply grows_bump_failed.
Qed.

Lemma collect_items_grows (w : World) (details : list value) (items : list value)
  (st : fetcher) :
  grows st (snd (collect_items w details items st)).
Proof.
  revert items st. induction details as [|d details IH]; intros items st;
    cbn [collect_items]; run.
  - apply grows_refl.
  - pose proof (process_item_grows w d items st) as Hg.
    destruct (process_item w d items st) as [[items1|e] st1]; cbn [fst snd] in *;
      [|exact Hg].
    eapply grows_trans; [exact Hg|apply IH].
Qed.

Lemma submit_items_grows (w : World) (l : list value) (st : fetcher) :
  grows st (snd (submit_items w l st)).
Proof.
  revert st. induction l as [|item l IH]; intros st; cbn [submit_items]; run.
  - apply grows_refl.
  - destruct (py_getitem item (VStr "title")) as [title|e]; [|apply grows_refl].
    destruct (get_item_details_run w title st) as [failed Hd]. rewrite Hd.
    specialize (IH (after_request (details_params title) failed st)).
    destruct (submit_items w l (after_request (details_params title) failed st))
      as [[ds|e] st2]; cbn [fst snd] in *;
      (eapply grows_trans; [apply grows_after_request|exact IH]).
Qed.

Lemma process_mod_fetch_grows (w : World) (mod_name : string) (st : fetcher) :
  grows st (snd (process_mod_fetch w mod_name st)).
Proof.
  unfold process_mod_fetch.
  destruct (get_mod_items_run w mod_name st) as [failed Hg].
  unfold bind at 1. rewrite Hg.
  pose proof (grows_after_request (search_params mod_name) failed st) as Hg0.
  set (st0 := after_request (search_params mod_name) failed st) in *.
  destruct (truthy (search_reply (api_get w (search_params mod_name)))); cbn [negb].
  - run.
    destruct (py_iter (search_reply (api_get w (search_params mod_name)))) as [l|e];
      [|exact Hg0].
    pose proof (submit_items_grows w l st0) as Hg1.
    destruct (submit_items w l st0) as [[details|e] st1]; cbn [fst snd] in *;
      [|eapply grows_trans; eauto].
    pose proof (collect_items_grows w details [] st1) as Hg2.
    destruct (collect_items w details [] st1) as [[its|e] st2]; cbn [fst snd] in *;
      (eapply grows_trans; [exact Hg0|eapply grows_trans; eauto]).
  - unfold bump_failed. run. cbn [fst snd].
    eapply grows_trans; [exact Hg0|].
    eapply grows_trans; [apply grows_emit|apply grows_bump_failed].
Qed.

(* ===================================================================== *)
(** ** What the stages return *)
(* ===================================================================== *)

Lemma image_record_ok_kept (download : bool) (fs fs' : list (string * file))
  (r : value) :
  images_kept fs fs' -> image_record_ok download fs r -> image_record_ok download fs' r.
Proof.
  intros Hk [name [url [p [-> [Ht [Hoff Hfile]]]]]].
  exists name, url, p. repeat (split; [reflexivity || assumption|]).
  intros Hp. destruct (Hfile Hp) as [fname [content [-> Hget]]].
  destruct (Hk fname content Hget) as [content' Hget']. eauto.
Qed.

Lemma stored_image_kept (w : World) (download : bool) (fs fs' : list (string * file))
  (r : value) :
  images_kept fs fs' -> stored_image w download fs r -> stored_image w download fs' r.
Proof.
  intros Hk [Hres Hok]. split; [exact Hres|]. eapply image_record_ok_kept; eauto.
Qed.

Lemma stored_item_kept (w : World) (download : bool) (fs fs' : list (string * file))
  (item : value) :
  images_kept fs fs' -> stored_item w download fs item -> stored_item w download fs' item.
Proof.
  intros Hk [images [-> [Hne Hall]]]. exists images. split; [reflexivity|].
  split; [exact Hne|]. eapply Forall_impl; [|exact Hall].
  intros r. now apply stored_image_kept.
Qed.

(** The record [process_image] returns for a title that passes the
    filter is sound against the files it leaves. *)
Lemma process_image_sound (w : World) (t : string) (title description : value)
  (images : list value) (st : fetcher) :
  image_title_qualifies t = true ->
  exists st',
    process_image w (VStr t) (item_details_record title description images) st =
      (Ret (image_result w (download_images st) (images_dir_ready (files st))
              title (VStr t)), st') /\
    same_object st st' /\
    (image_result w (download_images st) (images_dir_ready (files st)) title (VStr t) =
       VNone \/
     stored_image w (download_images st) (files st')
       (image_result w (download_images st) (images_dir_ready (files st))
          title (VStr t))).
Proof.
  intros Hq.
  destruct (process_image_steps w (VStr t) title description images st)
    as [failed [st' [Hrun Hst]]].
  destruct (process_image_run w (VStr t) title description images st)
    as [st2 [Hrun2 Hso]].
  rewrite Hrun in Hrun2. inversion Hrun2; subst st2.
  exists st'. split; [exact Hrun|]. split; [exact Hso|].
  unfold image_result in *. cbv zeta in *.
  destruct (truthy (resolved_url w (VStr t))) eqn:Et; [right|now left].
  split.
  - exists title, t. eexists. split; [reflexivity|]. auto.
  - do 3 eexists. split; [reflexivity|]. split; [exact Et|].
    cbn [andb] in Hst.
    destruct (download_images st) eqn:Edl.
    + split; [discriminate|]. intros Hp.
      set (st1 := after_request (imageinfo_params (VStr t)) failed st) in *.
      assert (Hfiles : files st1 = files st)
        by (unfold st1, after_request; destruct failed; reflexivity).
      destruct (download_image_files w (resolved_url w (VStr t)) title st1)
        as [st3 [Hd [_ [_ Hne]]]].
      rewrite Hfiles in Hd, Hne. rewrite Hst in Hd. inversion Hd; subst st3.
      destruct (Hne Hp) as [u [content [name [_ [_ [Hpath [_ [_ [_ [Hf _]]]]]]]]]].
      exists name, content. split; [exact Hpath|].
      rewrite Hf, Hpath. apply fs_get_set.
    + split; [reflexivity|]. intros Hp. now contradiction Hp.
Qed.


(** Whatever the titles are, what the loop returns is sound. *)
Lemma submit_images_sound (w : World) (title description : value) (images : list value)
  (titles : list value) (st : fetcher) (results : list value) (st' : fetcher) :
  submit_images w titles (item_details_record title description images) st =
  (Ret results, st') ->
  Forall (fun r => r = VNone \/ stored_image w (download_images st) (files st') r)
         results /\
  same_object st st'.
Proof.
  revert st results st'. induction titles as [|t titles IH]; intros st results st';
    cbn [submit_images]; run.
  - intros H; inversion H; subst. split; [constructor|apply same_object_refl].
  - destruct t as [|b|z|s|l|kv]; cbn [py_lower]; try discriminate.
    fold (image_title_qualifies s).
    destruct (image_title_qualifies s) eqn:Hq.
    + destruct (process_image_sound w s title description images st Hq)
        as [st1 [Hp [Hso1 Hok]]].
      rewrite Hp.
      pose proof (submit_images_grows w titles
                    (item_details_record title description images) st1) as Hg.
      destruct (submit_images w titles (item_details_record title description images) st1)
        as [[rs|e] st2] eqn:Hs; [|discriminate].
      cbn [snd] in Hg.
      intros H; inversion H; subst.
      apply IH in Hs as [Hall Hso2].
      replace (download_images st1) with (download_images st) in Hall
        by (symmetry; apply Hso1).
      split; [|eapply same_object_trans; eauto].
      constructor; [|exact Hall].
      destruct Hok as [Hn|Hok]; [now left|right].
      eapply stored_image_kept; [|exact Hok]. now apply grows_kept.
    + apply IH.
Qed.




Lemma item_details_images (title description : value) (images : list value) :
  py_getitem (item_details_record title description images) (VStr "images") =
  Ret (VList images).
Proof. reflexivity. Qed.

Lemma item_details_title (title description : value) (images : list value) :
  py_getitem (item_details_record title description images) (VStr "title") = Ret title.
Proof. reflexivity. Qed.

Lemma item_details_truthy (title description : value) (images : list value) :
  truthy (item_details_record title description images) = true.
Proof. reflexivity. Qed.


(** Whatever the item description is, the items gathered stay sound. *)
Lemma process_item_sound (w : World) (item_details : value) (items : list value)
  (st : fetcher) (items' : list value) (st' : fetcher) :
  (item_details = VNone \/
   exists title description images,
     item_details = item_details_record title description images) ->
  process_item w item_details items st = (Ret items', st') ->
  Forall (stored_item w (download_images st) (files st)) items ->
  Forall (stored_item w (download_images st) (files st')) items' /\ same_store st st'.
Proof.
  intros Hshape Hrun Hitems.
  pose proof (process_item_grows w item_details items st) as Hg.
  rewrite Hrun in Hg. cbn [snd] in Hg.
  assert (Hold : Forall (stored_item w (download_images st) (files st')) items).
  { eapply Forall_impl; [|exact Hitems].
    intros item. apply stored_item_kept. now apply grows_kept. }
  clear Hitems. revert Hrun.
  destruct Hshape as [->|[title [description [images ->]]]].
  - unfold process_item, bump_failed. cbn [truthy]. run.
    intros H; inversion H; subst. split; [exact Hold|].
    unfold same_store; simpl; tauto.
  - unfold process_item. rewrite item_details_truthy. run.
    rewrite item_details_images, item_details_title. cbn [py_iter].
    destruct (submit_images w images (item_details_record title description images) st)
      as [[results|e] st1] eqn:Hs; [|discriminate].
    apply submit_images_sound in Hs as [Hall Hso].
    destruct (filter truthy results) as [|i rest] eqn:Hf; cbn [truthy].
    + intros H; inversion H; subst.
      split; [exact Hold|now apply same_object_store].
    + unfold bump_processed. run. cbn [fst snd].
      intros H; inversion H; subst. split.
      * apply Forall_app; split; [exact Hold|].
        constructor; [|constructor].
        exists (i :: rest). split; [reflexivity|]. split; [discriminate|].
        rewrite <- Hf. rewrite Forall_forall in *. intros r Hr.
        apply filter_In in Hr as [Hin Ht]. cbn [files emit set_processed_count].
        destruct (Hall r Hin) as [->|Hok]; [discriminate|exact Hok].
      * apply same_object_store in Hso. unfold same_store in *; simpl; tauto.
Qed.

Lemma collect_items_sound (w : World) (details : list value) :
  Forall (fun d => d = VNone \/
                   exists title description images,
                     d = item_details_record title description images) details ->
  forall (items : list value) (st : fetcher) (items' : list value) (st' : fetcher),
    collect_items w details items st = (Ret items', st') ->
    Forall (stored_item w (download_images st) (files st)) items ->
    Forall (stored_item w (download_images st) (files st')) items' /\ same_store st st'.
Proof.
  induction 1 as [|d details Hd Hds IH]; intros items st items' st';
    cbn [collect_items]; run.
  - intros H; inversion H; subst. intros Hall. split; [exact Hall|].
    unfold same_store; tauto.
  - destruct (process_item w d items st) as [[items1|e] st1] eqn:Hp; [|discriminate].
    intros Hc Hall.
    destruct (process_item_sound w d items st items1 st1 Hd Hp Hall) as [Hall1 Hst1].
    replace (download_images st) with (download_images st1) in * by apply Hst1.
    destruct (IH items1 st1 items' st' Hc Hall1) as [Hall2 Hst2].
    split; [exact Hall2|].
    unfold same_store in *. intuition congruence.
Qed.

Lemma submit_items_sound (w : World) (l : list value) (st : fetcher)
  (details : list value) (st' : fetcher) :
  submit_items w l st = (Ret details, st') ->
  Forall (fun d => d = VNone \/
                   exists title description images,
                     d = item_details_record title description images) details /\
  same_object st st'.
Proof.
  revert st details st'. induction l as [|item l IH]; intros st details st';
    cbn [submit_items]; run.
  - intros H; inversion H; subst. split; [constructor|apply same_object_refl].
  - destruct (py_getitem item (VStr "title")) as [title|e]; [|discriminate].
    destruct (get_item_details_run w title st) as [failed Hd]. rewrite Hd.
    destruct (submit_items w l (after_request (details_params title) failed st))
      as [[ds|e] st2] eqn:Hs; [|discriminate].
    intros H; inversion H; subst.
    apply IH in Hs as [Hall Hso]. split.
    + constructor; [apply details_reply_shape|exact Hall].
    + eapply same_object_trans; [apply same_object_after_request|exact Hso].
Qed.

Lemma process_mod_fetch_sound (w : World) (mod_name : string) (st : fetcher)
  (mod_data : value) (st' : fetcher) :
  process_mod_fetch w mod_name st = (Ret (Some mod_data), st') ->
  exists items,
    mod_data = mod_data_record mod_name items /\
    Forall (stored_item w (download_images st) (files st')) items /\
    same_store st st'.
Proof.
  unfold process_mod_fetch.
  destruct (get_mod_items_run w mod_name st) as [failed Hg].
  unfold bind at 1. rewrite Hg.
  pose proof (same_object_after_request (search_params mod_name) failed st) as Hso0.
  set (st0 := after_request (search_params mod_name) failed st) in *.
  destruct (truthy (search_reply (api_get w (search_params mod_name)))); cbn [negb].
  - run.
    destruct (py_iter (search_reply (api_get w (search_params mod_name)))) as [l|e];
      [|discriminate].
    destruct (submit_items w l st0) as [[details|e] st1] eqn:Hs; [|discriminate].
    apply submit_items_sound in Hs as [Hshape Hso1].
    destruct (collect_items w details [] st1) as [[its|e] st2] eqn:Hc; [|discriminate].
    intros H; inversion H; subst.
    destruct (collect_items_sound w details Hshape [] st1 its st' Hc (Forall_nil _))
      as [Hall Hst].
    exists its. split; [reflexivity|]. split.
    + replace (download_images st) with (download_images st1); [exact Hall|].
      transitivity (download_images st0); [apply Hso1|apply Hso0].
    + apply same_object_store in Hso0, Hso1.
      eapply same_store_trans; [exact Hso0|].
      eapply same_store_trans; eauto.
  - unfold bump_failed. run. discriminate.
Qed.

(* --------------------------------------------------------------------- *)
(** *** Replies whose image titles are strings *)

Lemma render_details_shape (d : typed_details) :
  render_details d = VNone \/
  exists title description images,
    render_details d = item_details_record title description images.
Proof. destruct d as [[[title description] titles]|]; cbn; eauto. Qed.




(* ===================================================================== *)
(** ** The check of the store *)
(* ===================================================================== *)

Lemma py_eq_str_true (v : value) (s : string) :
  py_eq_str v s = true <-> v = VStr s.
Proof.
  destruct v; simpl; try (split; [discriminate|congruence]).
  rewrite String.eqb_eq. split; congruence.
Qed.

Lemma store_mods_unique (store : value) (ms ms' : list value) :
  store_mods store ms -> store_mods store ms' -> ms = ms'.
Proof. intros [kv [-> H]] [kv' [E H']]. inversion E; subst. congruence. Qed.

Lemma mod_record_getitem (m name : value) :
  mod_record m name -> py_getitem m (VStr "mod_name") = Ret name /\ truthy m = true.
Proof.
  intros [r [-> H]]. simpl. rewrite H. split; [reflexivity|].
  destruct r; [discriminate|reflexivity].
Qed.

Lemma mod_record_unique (m name name' : value) :
  mod_record m name -> mod_record m name' -> name = name'.
Proof. intros [r [-> H]] [r' [E H']]. inversion E; subst. congruence. Qed.

Lemma find_mod_found (ms : list value) (mod_name : string) :
  Forall (fun m => exists name, mod_record m name) ms ->
  (exists m, In m ms /\ mod_record m (VStr mod_name)) ->
  exists m, find_mod ms mod_name = Ret m /\ truthy m = true.
Proof.
  induction 1 as [|m ms [name Hm] Hms IH]; intros [m' [Hin Hrec]].
  - destruct Hin.
  - cbn [find_mod]. destruct (mod_record_getitem m name Hm) as [Hg Ht].
    rewrite Hg. cbn [and_then].
    destruct (py_eq_str name mod_name) eqn:E.
    + exists m. split; [reflexivity|exact Ht].
    + apply IH. destruct Hin as [<-|Hin]; [|eauto].
      rewrite (mod_record_unique m name (VStr mod_name) Hm Hrec) in E.
      simpl in E. rewrite String.eqb_refl in E. discriminate.
Qed.

Lemma find_mod_absent (ms : list value) (mod_name : string) :
  Forall (fun m => exists name, mod_record m name) ms ->
  ~ (exists m, In m ms /\ mod_record m (VStr mod_name)) ->
  find_mod ms mod_name = Ret VNone.
Proof.
  induction 1 as [|m ms [name Hm] Hms IH]; intros Hno.
  - reflexivity.
  - cbn [find_mod]. destruct (mod_record_getitem m name Hm) as [Hg Ht].
    rewrite Hg. cbn [and_then].
    destruct (py_eq_str name mod_name) eqn:E.
    + apply py_eq_str_true in E. subst name.
      exfalso. apply Hno. exists m. split; [now left|exact Hm].
    + apply IH. intros [m' [Hin Hrec]]. apply Hno. exists m'. split; [now right|exact Hrec].
Qed.

Lemma process_mod_check_existing (mod_name : string) (st : fetcher) :
  well_formed_store (data st) -> has_mod (data st) mod_name ->
  process_mod_check mod_name st = (Ret true, emit (Log INFO) (emit (Log INFO) st)).
Proof.
  intros [ms [Hms Hwf]] [ms' [m [Hms' [Hin Hrec]]]].
  rewrite <- (store_mods_unique _ _ _ Hms Hms') in Hin.
  destruct Hms as [kv [Hd Hg]].
  destruct (find_mod_found ms mod_name Hwf) as [m' [Hf Ht]]; [eauto|].
  unfold process_mod_check. run_all. cbn [emit data].
  rewrite Hd. cbn [py_getitem]. rewrite Hg. cbn [py_iter]. rewrite Hf, Ht.
  reflexivity.
Qed.

Lemma process_mod_check_new (mod_name : string) (st : fetcher) :
  well_formed_store (data st) -> ~ has_mod (data st) mod_name ->
  process_mod_check mod_name st = (Ret false, emit (Log INFO) st).
Proof.
  intros [ms [Hms Hwf]] Hno.
  assert (Hf : find_mod ms mod_name = Ret VNone).
  { apply find_mod_absent; [exact Hwf|].
    intros [m [Hin Hrec]]. apply Hno. exists ms, m. auto. }
  destruct Hms as [kv [Hd Hg]].
  unfold process_mod_check. run_all. cbn [emit data].
  rewrite Hd. cbn [py_getitem]. rewrite Hg. cbn [py_iter]. rewrite Hf.
  reflexivity.
Qed.

Lemma save_data_run (w : World) (st : fetcher) :
  exists st',
    save_data w st = (Ret tt, st') /\
    data st' = data st /\
    download_images st' = download_images st /\
    files st' = (if writable w json_file
                 then fs_set (files st) json_file (JsonText (data st))
                 else match failed_write w json_file with
                      | Some partial => fs_set (files st) json_file (Blob partial)
                      | None => files st
                      end) /\
    total_count st' = total_count st /\
    failed_count st' = failed_count st /\
    processed_count st' = processed_count st.
Proof.
  unfold save_data. run. rewrite write_file_run, parent_ok_json_file.
  destruct (writable w json_file);
    [|destruct (failed_write w json_file)];
    eexists; (split; [reflexivity|]); simpl; auto 10.
Qed.

(** Appending to a well-formed store and saving it. *)
Lemma process_mod_commit_run (w : World) (mod_data : value) (st : fetcher)
  (kv : list (string * value)) (ms : list value) :
  data st = VDict kv -> dict_get kv "mods" = Some (VList ms) ->
  exists st',
    process_mod_commit w mod_data st = (Ret tt, st') /\
    data st' = VDict (dict_set kv "mods" (VList (ms ++ [mod_data]))) /\
    download_images st' = download_images st /\
    files st' = (if writable w json_file
                 then fs_set (files st) json_file (JsonText (data st'))
                 else match failed_write w json_file with
                      | Some partial => fs_set (files st) json_file (Blob partial)
                      | None => files st
                      end).
Proof.
  intros Hd Hg. unfold process_mod_commit, append_mod.
  unfold bind at 1. unfold bind at 1. unfold bind at 1. unfold get_state.
  rewrite Hd. unfold bind at 1, lift. cbn [py_getitem]. rewrite Hg.
  unfold modify at 1.
  match goal with |- context [save_data w ?s] =>
    destruct (save_data_run w s) as [st1 [Hs [Hd1 [Hdl [Hf1 _]]]]] end.
  unfold bind. rewrite Hs. unfold modify.
  eexists. split; [reflexivity|]. cbn [data emit files download_images set_data] in *.
  rewrite Hd1, Hf1, Hdl. auto.
Qed.

(* ===================================================================== *)
(** ** [process_mod] as a whole *)
(* ===================================================================== *)

Lemma save_keeps_images (w : World) (fs : list (string * file)) (store : value) :
  images_kept fs
    (if writable w json_file
     then fs_set fs json_file (JsonText store)
     else match failed_write w json_file with
          | Some partial => fs_set fs json_file (Blob partial)
          | None => fs
          end).
Proof.
  destruct (writable w json_file); [apply images_kept_store|].
  destruct (failed_write w json_file); [apply images_kept_store|apply images_kept_refl].
Qed.

Lemma process_mod_total (w : World) (mod_name : string) (st : fetcher) :
  exists ok st', process_mod w mod_name st = (Ret ok, st').
Proof.
  unfold process_mod, try_except, process_mod_failed.
  match goal with |- context [match ?m st with _ => _ end] => destruct (m st) as [[ok|e] st1] end.
  - eauto.
  - run_all. eauto.
Qed.

(** A mod that a well-formed store does not have: either nothing is
    stored, or one record for it goes to the end of the store and the
    store is saved. *)
Lemma process_mod_new_run (w : World) (mod_name : string) (st : fetcher)
  (kv : list (string * value)) (ms : list value) :
  data st = VDict kv -> dict_get kv "mods" = Some (VList ms) ->
  Forall (fun m => exists name, mod_record m name) ms ->
  ~ has_mod (data st) mod_name ->
  exists st',
    (process_mod w mod_name st = (Ret false, st') /\ data st' = data st) \/
    (exists items,
       process_mod w mod_name st = (Ret true, st') /\
       data st' =
         VDict (dict_set kv "mods" (VList (ms ++ [mod_data_record mod_name items]))) /\
       Forall (stored_item w (download_images st) (files st')) items /\
       (writable w json_file = true ->
        fs_get (files st') json_file = Some (JsonText (data st')))).
Proof.
  intros Hd Hg Hwf Hno.
  assert (Hwfs : well_formed_store (data st)).
  { exists ms. split; [exists kv; auto|exact Hwf]. }
  unfold process_mod, process_mod_failed. run_all.
  rewrite (process_mod_check_new mod_name st Hwfs Hno).
  set (st1 := emit (Log INFO) st).
  pose proof (process_mod_fetch_frame w mod_name st1) as Hfr.
  destruct (process_mod_fetch w mod_name st1) as [[[mod_data|]|e] st2] eqn:Hf;
    cbn [fst snd] in Hfr.
  - apply process_mod_fetch_sound in Hf as [items [-> [Hall _]]].
    destruct (process_mod_commit_run w (mod_data_record mod_name items) st2 kv ms)
      as [st3 [Hc [Hd3 [_ Hf3]]]]; [|exact Hg|].
    { destruct Hfr as [Hfr _]. rewrite Hfr. exact Hd. }
    rewrite Hc.
    exists st3. right. exists items. split; [reflexivity|]. split; [exact Hd3|]. split.
    + eapply Forall_impl; [|exact Hall].
      intros item. apply stored_item_kept. rewrite Hf3. apply save_keeps_images.
    + intros Hw. rewrite Hf3, Hw. apply fs_get_set.
  - exists st2. left. split; [reflexivity|]. apply Hfr.
  - eexists. left. split; [reflexivity|].
    cbn [data set_failed_count emit]. apply Hfr.
Qed.

Lemma process_mod_check_grows (mod_name : string) (st : fetcher) :
  grows st (snd (process_mod_check mod_name st)) /\
  files (snd (process_mod_check mod_name st)) = files st.
Proof.
  unfold process_mod_check. run_all. cbn [data emit].
  destruct (py_getitem (data st) (VStr "mods")) as [mods|e];
    [|split; [apply grows_emit|reflexivity]].
  destruct (py_iter mods) as [l|e]; [|split; [apply grows_emit|reflexivity]].
  destruct (find_mod l mod_name) as [existing|e];
    [|split; [apply grows_emit|reflexivity]].
  destruct (truthy existing); (split; [|reflexivity]).
  - eapply grows_trans; apply grows_emit.
  - apply grows_emit.
Qed.

Lemma process_mod_commit_cases (w : World) (mod_data : value) (st : fetcher) :
  (exists e, process_mod_commit w mod_data st = (Raise e, st)) \/
  (exists st',
     process_mod_commit w mod_data st = (Ret tt, st') /\
     download_images st' = download_images st /\
     total_count st' = total_count st /\
     failed_count st' = failed_count st /\
     processed_count st' = processed_count st).
Proof.
  unfold process_mod_commit, append_mod. run_all.
  destruct (py_getitem (data st) (VStr "mods")) as [mods|e]; [|left; eauto].
  destruct (data st) as [|b|z|s|l|kv]; try (left; eexists; reflexivity).
  destruct mods as [|b|z|s|ms|kv']; try (left; eexists; reflexivity).
  match goal with |- context [save_data w ?s] =>
    destruct (save_data_run w s) as [st1 [Hs [Hd [Hdl [Hf [Ht [Hfc Hpc]]]]]]]
  end.
  rewrite Hs. right. eexists. split; [reflexivity|]. cbn in *. intuition congruence.
Qed.

(** The append raises and changes nothing, or the store is a record
    with a list of mods. *)
Lemma process_mod_commit_shape (w : World) (mod_data : value) (st : fetcher) :
  (exists e, process_mod_commit w mod_data st = (Raise e, st)) \/
  (exists kv ms, data st = VDict kv /\ dict_get kv "mods" = Some (VList ms)).
Proof.
  unfold process_mod_commit, append_mod. run_all.
  destruct (data st) as [|b|z|s|l|kv] eqn:Ed;
    try (left; eexists; reflexivity).
  cbn [py_getitem].
  destruct (dict_get kv "mods") as [mods|] eqn:Eg; [|left; eexists; reflexivity].
  destruct mods as [|b|z|s|ms|kv']; try (left; eexists; reflexivity).
  right. eauto.
Qed.

Lemma store_image_records_append (kv : list (string * value)) (ms items : list value)
  (mod_name : string) :
  dict_get kv "mods" = Some (VList ms) ->
  store_image_records
    (VDict (dict_set kv "mods" (VList (ms ++ [mod_data_record mod_name items])))) =
  (store_image_records (VDict kv) ++ flat_map item_image_records items)%list.
Proof.
  intros Hg. unfold store_image_records. rewrite dict_get_set, Hg.
  rewrite flat_map_app. cbn [flat_map]. rewrite app_nil_r. reflexivity.
Qed.

Lemma stored_items_records (w : World) (download : bool) (fs : list (string * file))
  (items : list value) :
  Forall (stored_item w download fs) items ->
  Forall (stored_image w download fs) (flat_map item_image_records items).
Proof.
  induction 1 as [|item items [images [-> [_ Himgs]]] _ IH]; cbn [flat_map].
  - constructor.
  - apply Forall_app. split; [exact Himgs|exact IH].
Qed.

(** Whatever the store and the replies: [process_mod] leaves the store as
    it is, or appends one record whose items are sound; and what it
    downloaded before stays. *)
Lemma process_mod_outcome (w : World) (mod_name : string) (st : fetcher) :
  images_kept (files st) (files (snd (process_mod w mod_name st))) /\
  download_images (snd (process_mod w mod_name st)) = download_images st /\
  (data (snd (process_mod w mod_name st)) = data st \/
   exists kv ms items,
     data st = VDict kv /\ dict_get kv "mods" = Some (VList ms) /\
     data (snd (process_mod w mod_name st)) =
       VDict (dict_set kv "mods" (VList (ms ++ [mod_data_record mod_name items]))) /\
     Forall (stored_item w (download_images st)
               (files (snd (process_mod w mod_name st)))) items).
Proof.
  unfold process_mod, process_mod_failed. run_all.
  destruct (process_mod_check_grows mod_name st) as [Hg0 Hf0].
  destruct (process_mod_check mod_name st) as [[[|]|e] st1]; cbn [snd] in Hg0, Hf0.
  - cbn [snd]. split; [now apply grows_kept|].
    split; [now apply grows_download|]. left. apply Hg0.
  - pose proof (process_mod_fetch_grows w mod_name st1) as Hg1.
    destruct (process_mod_fetch w mod_name st1) as [[[mod_data|]|e] st2] eqn:Hf;
      cbn [snd] in Hg1.
    + pose proof (grows_trans _ _ _ Hg0 Hg1) as Hg.
      apply process_mod_fetch_sound in Hf as [items [-> [Hall _]]].
      destruct (process_mod_commit_shape w (mod_data_record mod_name items) st2)
        as [[e Hc]|[kv [ms [Hd2 Hms]]]].
      * rewrite Hc. cbn [snd files data download_images emit set_failed_count].
        split; [now apply grows_kept|]. split; [now apply grows_download|].
        left. apply Hg.
      * destruct (process_mod_commit_run w (mod_data_record mod_name items) st2 kv ms
                    Hd2 Hms) as [st3 [Hc [Hd3 [Hdl3 Hf3]]]].
        rewrite Hc. cbn [snd].
        assert (Hk : images_kept (files st2) (files st3))
          by (rewrite Hf3; apply save_keeps_images).
        split; [eapply images_kept_trans; [apply (grows_kept _ _ Hg)|exact Hk]|].
        split; [rewrite Hdl3; now apply grows_download|].
        right. exists kv, ms, items.
        split; [destruct Hg as [<- _]; exact Hd2|].
        split; [exact Hms|]. split; [exact Hd3|].
        eapply Forall_impl; [|exact Hall].
        intros item Hitem. eapply stored_item_kept; [exact Hk|].
        replace (download_images st) with (download_images st1)
          by now apply grows_download.
        exact Hitem.
    + pose proof (grows_trans _ _ _ Hg0 Hg1) as Hg. cbn [snd].
      split; [now apply grows_kept|]. split; [now apply grows_download|].
      left. apply Hg.
    + pose proof (grows_trans _ _ _ Hg0 Hg1) as Hg.
      cbn [snd files data download_images emit set_failed_count].
      split; [now apply grows_kept|]. split; [now apply grows_download|].
      left. apply Hg.
  - cbn [snd files data download_images emit set_failed_count].
    split; [now apply grows_kept|]. split; [now apply grows_download|].
    left. apply Hg0.
Qed.

Lemma mod_names_store (kv : list (string * value)) (ms : list value) :
  dict_get kv "mods" = Some (VList ms) ->
  Forall (fun m => exists name, mod_record m name) ms ->
  forall name, In name (mod_names (VDict kv)) <-> exists m, In m ms /\ mod_record m name.
Proof.
  intros Hg Hwf name. unfold mod_names. rewrite Hg. rewrite in_map_iff. split.
  - intros [m [Hn Hin]]. exists m. split; [exact Hin|].
    rewrite Forall_forall in Hwf. destruct (Hwf m Hin) as [n [r [-> Hr]]].
    rewrite Hr in Hn. subst. exists r. auto.
  - intros [m [Hin [r [-> Hr]]]]. exists (VDict r). rewrite Hr. auto.
Qed.

Lemma mod_names_append (kv : list (string * value)) (ms : list value)
  (mod_name : string) (items : list value) :
  dict_get kv "mods" = Some (VList ms) ->
  mod_names (VDict (dict_set kv "mods" (VList (ms ++ [mod_data_record mod_name items])))) =
  (mod_names (VDict kv) ++ [VStr mod_name])%list.
Proof.
  intros Hg. unfold mod_names. rewrite dict_get_set, Hg, map_app. reflexivity.
Qed.

Lemma mod_record_dec (ms : list value) (mod_name : string) :
  Forall (fun m => exists name, mod_record m name) ms ->
  (exists m, In m ms /\ mod_record m (VStr mod_name)) \/
  ~ (exists m, In m ms /\ mod_record m (VStr mod_name)).
Proof.
  induction 1 as [|m ms [name Hm] Hms [IH|IH]].
  - right. intros [m [[] _]].
  - left. destruct IH as [m' [Hin Hrec]]. exists m'. split; [now right|exact Hrec].
  - destruct (py_eq_str name mod_name) eqn:E.
    + apply py_eq_str_true in E. subst name. left. exists m. split; [now left|exact Hm].
    + right. intros [m' [[<-|Hin] Hrec]].
      * rewrite (mod_record_unique m name (VStr mod_name) Hm Hrec) in E.
        simpl in E. rewrite String.eqb_refl in E. discriminate.
      * apply IH. eauto.
Qed.

(** One [process_mod] run alone keeps the store well formed and its names
    distinct. *)
Lemma process_mod_keeps_names_distinct (w : World) (mod_name : string) (st : fetcher) :
  well_formed_store (data st) -> NoDup (mod_names (data st)) ->
  well_formed_store (data (snd (process_mod w mod_name st))) /\
  NoDup (mod_names (data (snd (process_mod w mod_name st)))).
Proof.
  intros Hwf Hnd.
  destruct (Hwf) as [ms [[kv [Hd Hg]] Hall]].
  destruct (mod_record_dec ms mod_name Hall) as [Hyes|Hno].
  - assert (Hhas : has_mod (data st) mod_name).
    { destruct Hyes as [m [Hin Hrec]]. exists ms, m. split; [exists kv; auto|auto]. }
    unfold process_mod, try_except, bind.
    rewrite (process_mod_check_existing mod_name st Hwf Hhas).
    cbn [snd data emit]. auto.
  - assert (Hnot : ~ has_mod (data st) mod_name).
    { intros [ms' [m [Hms' [Hin Hrec]]]]. apply Hno. exists m. split; [|exact Hrec].
      rewrite (store_mods_unique (data st) ms ms'); [exact Hin| |exact Hms'].
      exists kv; auto. }
    destruct (process_mod_new_run w mod_name st kv ms Hd Hg Hall Hnot)
      as [st' [[Hrun Hsame]|[items [Hrun [Hd' _]]]]]; rewrite Hrun; cbn [snd].
    + rewrite Hsame. auto.
    + rewrite Hd'. split.
      * exists (ms ++ [mod_data_record mod_name items])%list. split.
        -- eexists. split; [reflexivity|apply dict_get_set].
        -- apply Forall_app. split; [exact Hall|].
           constructor; [|constructor]. exists (VStr mod_name). eexists.
           split; reflexivity.
      * rewrite (mod_names_append kv ms mod_name items Hg).
        rewrite Hd in Hnd.
        apply NoDup_rev in Hnd. rewrite <- (rev_involutive (_ ++ _)).
        apply NoDup_rev. rewrite rev_app_distr. cbn [rev app].
        constructor; [|exact Hnd].
        rewrite <- in_rev. rewrite (mod_names_store kv ms Hg Hall). exact Hno.
Qed.

Lemma run_sequential_keeps_names_distinct (w : World) (mods : list string) :
  forall st : fetcher,
    well_formed_store (data st) -> NoDup (mod_names (data st)) ->
    well_formed_store (data (snd (run_sequential w mods st))) /\
    NoDup (mod_names (data (snd (run_sequential w mods st)))).
Proof.
  induction mods as [|mod_name mods IH]; intros st Hwf Hnd; cbn [run_sequential].
  - auto.
  - run_all.
    destruct (process_mod_total w mod_name st) as [ok [st1 Hrun]].
    destruct (process_mod_keeps_names_distinct w mod_name st Hwf Hnd) as [Hwf1 Hnd1].
    rewrite Hrun in *. cbn [snd] in Hwf1, Hnd1.
    specialize (IH st1 Hwf1 Hnd1).
    destruct (run_sequential w mods st1) as [[oks|e] st2]; exact IH.
Qed.

(** A task taken alone through its three steps is [process_mod]. *)
Lemma process_mod_as_steps (w : World) (mod_name : string) (st : fetcher) :
  exists ok st',
    process_mod w mod_name st = (Ret ok, st') /\
    run_schedule w [0; 0; 0]%nat [Pending mod_name] st = ([Done ok], st').
Proof.
  unfold process_mod, run_schedule, run_step. cbn [nth_error step_task].
  unfold process_mod_failed. run_all.
  destruct (process_mod_check mod_name st) as [[[|]|e] st1].
  - cbn [update_nth nth_error step_task]. run_all. cbn [update_nth]. eauto.
  - cbn [update_nth nth_error step_task]. run_all.
    destruct (process_mod_fetch w mod_name st1) as [[[mod_data|]|e] st2].
    + cbn [update_nth nth_error step_task]. run_all.
      destruct (process_mod_commit w mod_data st2) as [[[]|e] st3];
        cbn [update_nth]; eauto.
    + cbn [update_nth nth_error step_task]. run_all. cbn [update_nth]. eauto.
    + cbn [update_nth nth_error step_task]. run_all. cbn [update_nth]. eauto.
  - cbn [update_nth nth_error step_task]. run_all. cbn [update_nth]. eauto.
Qed.

(** Whenever two tasks for a mod that the store does not have both check
    before either appends, and both succeed, the store ends with two
    records for that mod. *)
Lemma interleaved_tasks_store_twice (w : World) (mod_name : string) (st : fetcher)
  (kv : list (string * value)) (ms : list value) :
  data st = VDict kv -> dict_get kv "mods" = Some (VList ms) ->
  Forall (fun m => exists name, mod_record m name) ms ->
  ~ has_mod (data st) mod_name ->
  fst (run_schedule w [0; 1; 0; 1; 0; 1]%nat [Pending mod_name; Pending mod_name] st) =
    [Done true; Done true] ->
  exists items1 items2,
    store_mods
      (data (snd (run_schedule w [0; 1; 0; 1; 0; 1]%nat
                    [Pending mod_name; Pending mod_name] st)))
      (ms ++ [mod_data_record mod_name items1; mod_data_record mod_name items2]).
Proof.
  intros Hd Hg Hall Hno.
  assert (Hwf : forall s, data s = data st -> well_formed_store (data s)).
  { intros s ->. exists ms. split; [exists kv; auto|exact Hall]. }
  assert (Hnew : forall s, data s = data st -> ~ has_mod (data s) mod_name).
  { intros s ->. exact Hno. }
  sched.
  rewrite (process_mod_check_new mod_name st (Hwf st eq_refl) (Hnew st eq_refl)).
  sched. set (st1 := emit (Log INFO) st).
  rewrite (process_mod_check_new mod_name st1 (Hwf st1 eq_refl) (Hnew st1 eq_refl)).
  sched. set (st2 := emit (Log INFO) st1).
  pose proof (process_mod_fetch_frame w mod_name st2) as Hfr2.
  destruct (process_mod_fetch w mod_name st2) as [[[md1|]|e1] st3] eqn:Hf1;
    cbn [fst snd] in Hfr2; sched.
  2:{ destruct (process_mod_fetch w mod_name st3) as [[[md2|]|e2] st4]; sched;
        try (destruct (process_mod_commit w md2 st4) as [[[]|e3] st5]; sched);
        discriminate. }
  2:{ match goal with |- context [process_mod_fetch w mod_name ?s] =>
        destruct (process_mod_fetch w mod_name s) as [[[md2|]|e2] st4] end; sched;
        try (destruct (process_mod_commit w md2 st4) as [[[]|e3] st5]; sched);
        discriminate. }
  apply process_mod_fetch_sound in Hf1 as [items1 [-> _]].
  pose proof (process_mod_fetch_frame w mod_name st3) as Hfr3.
  destruct (process_mod_fetch w mod_name st3) as [[[md2|]|e2] st4] eqn:Hf2;
    cbn [fst snd] in Hfr3; sched.
  2:{ destruct (process_mod_commit w (mod_data_record mod_name items1) st4)
        as [[[]|e3] st5]; sched; discriminate. }
  2:{ match goal with |- context [process_mod_commit w ?m ?s] =>
        destruct (process_mod_commit w m s) as [[[]|e3] st5] end;
        sched; discriminate. }
  apply process_mod_fetch_sound in Hf2 as [items2 [-> _]].
  assert (Hd4 : data st4 = VDict kv).
  { destruct Hfr3 as [-> _]. destruct Hfr2 as [-> _]. exact Hd. }
  destruct (process_mod_commit_run w (mod_data_record mod_name items1) st4 kv ms Hd4 Hg)
    as [st5 [Hc1 [Hd5 _]]].
  rewrite Hc1. sched.
  destruct (process_mod_commit_run w (mod_data_record mod_name items2) st5 _ _ Hd5
              (dict_get_set kv "mods" _))
    as [st6 [Hc2 [Hd6 _]]].
  rewrite Hc2. sched. intros _.
  exists items1, items2. eexists. split; [exact Hd6|].
  rewrite dict_get_set. rewrite <- app_assoc. reflexivity.
Qed.

(* ===================================================================== *)
(** ** The model at work *)
(* ===================================================================== *)

Example sanitize_every_invalid_char :
  sanitize_filename (String "034" "Iron<Pick>axe: a/b\c|d?e*.png") =
  "_Iron_Pick_axe_ a_b_c_d_e_.png".
Proof. reflexivity. Qed.

Example splitext_of_paths :
  splitext_ext "/images/a/Apple.PNG" = ".PNG" /\
  splitext_ext "/images/a.b/notes" = EmptyString /\
  splitext_ext "/images/.hidden" = EmptyString /\
  splitext_ext "/images/archive.tar.gz" = ".gz".
Proof. repeat split; reflexivity. Qed.

Example filter_on_titles :
  map image_title_qualifies
      ["File:Apple.PNG"; "File:Apple.svg"; "File:Apple.png.txt"; "File:Applepng"] =
  [true; false; true; false].
Proof. reflexivity. Qed.

Example search_swallows_bad_reply :
  fst (get_mod_items Demo.world "Broken" (Demo.start false [])) = Ret (VList []).
Proof. reflexivity. Qed.

Example whole_run_without_download :
  data (snd (process_mod Demo.world "AppleSkin" (Demo.start false []))) =
  VDict [("mods", VList [
    mod_data_record "AppleSkin"
      [VDict [("images", VList [
         image_record (VStr "Apple") (VStr "https://img.example/a/Apple.PNG?cb=1")
           EmptyString;
         image_record (VStr "Apple") (VStr "https://img.example/a/notes")
           EmptyString ])]]])].
Proof. reflexivity. Qed.

Example failed_write_keeps_record :
  fst (process_image Demo.read_only_world (VStr "File:Apple.PNG") Demo.apple
         (fresh true [])) =
  Ret (image_record (VStr "Apple") (VStr "https://img.example/a/Apple.PNG?cb=1")
         EmptyString).
Proof. reflexivity. Qed.

(* ===================================================================== *)
(** ** The claims *)
(* ===================================================================== *)



(** C2. When the store already has a record for the mod name,
    [process_mod] returns success after its two log lines and nothing
    else: no request, no write, and the store, the files and the counters
    are what they were; running it again gives the same. *)
Theorem process_mod_existing_unchanged :
  forall (w : World) (mod_name : string) (st : fetcher),
    well_formed_store (data st) ->
    has_mod (data st) mod_name ->
    exists st',
      process_mod w mod_name st = (Ret true, st') /\
      trace st' = Log INFO :: Log INFO :: trace st /\
      data st' = data st /\
      files st' = files st /\
      processed_count st' = processed_count st /\
      failed_count st' = failed_count st /\
      exists st'',
        process_mod w mod_name st' = (Ret true, st'') /\
        data st'' = data st /\ files st'' = files st.
Proof.
  intros w mod_name st Hwf Hhas.
  assert (Hrun : forall s, well_formed_store (data s) -> has_mod (data s) mod_name ->
                 process_mod w mod_name s = (Ret true, emit (Log INFO) (emit (Log INFO) s))).
  { intros s Hs1 Hs2. unfold process_mod, try_except, bind.
    now rewrite (process_mod_check_existing mod_name s Hs1 Hs2). }
  exists (emit (Log INFO) (emit (Log INFO) st)).
  split; [now apply Hrun|]. repeat (split; [reflexivity|]).
  eexists. split; [apply Hrun; assumption|]. split; reflexivity.
Qed.

Lemma process_mod_existing_unchanged_witness :
  exists st',
    process_mod Demo.world "AppleSkin" Demo.cached = (Ret true, st') /\
    data st' = data Demo.cached /\
    files st' = files Demo.cached.
Proof.
  destruct (process_mod_existing_unchanged Demo.world "AppleSkin" Demo.cached)
    as [st' [Hrun [_ [Hd [Hf _]]]]].
  - eexists. split; [eexists; split; reflexivity|].
    repeat constructor; eexists; eexists; split; reflexivity.
  - eexists. eexists. split; [eexists; split; reflexivity|].
    split; [left; reflexivity|]. eexists; split; reflexivity.
  - exists st'. auto.
Defined.

(** C4. When the store has no record for the mod and the search stage
    returns the empty list, [process_mod] returns failure, the failed
    counter goes up by one, and the store, the files of the disk and the
    processed counter stay as they were: the only effects are the search
    request and log lines. *)
Theorem process_mod_no_results_fails :
  forall (w : World) (mod_name : string) (st : fetcher),
    well_formed_store (data st) ->
    ~ has_mod (data st) mod_name ->
    (forall st0, fst (get_mod_items w mod_name st0) = Ret (VList [])) ->
    exists (st' : fetcher) (failed : bool),
      process_mod w mod_name st = (Ret false, st') /\
      failed_count st' = failed_count st + 1 /\
      data st' = data st /\
      files st' = files st /\
      processed_count st' = processed_count st /\
      trace st' =
        (Log WARNING :: (if failed then [Log ERROR] else @nil event) ++
         ApiGet (search_params mod_name) :: Log INFO :: trace st)%list.
Proof.
  intros w mod_name st Hwf Hno Hzero.
  destruct (get_mod_items_run w mod_name (emit (Log INFO) st)) as [failed Hg].
  pose proof (Hzero (emit (Log INFO) st)) as Hz. rewrite Hg in Hz.
  cbn [fst] in Hz. inversion Hz as [Hreply].
  unfold process_mod, try_except. unfold bind at 1.
  rewrite (process_mod_check_new mod_name st Hwf Hno).
  unfold process_mod_fetch. unfold bind at 1. unfold bind at 1.
  rewrite Hg, Hreply. cbn [truthy negb]. run_all.
  eexists. exists failed. split; [reflexivity|].
  destruct failed; cbn; repeat split; reflexivity.
Qed.

Lemma process_mod_no_results_fails_witness :
  exists st',
    process_mod Demo.world "Nothing" Demo.cached = (Ret false, st') /\
    failed_count st' = failed_count Demo.cached + 1 /\
    data st' = data Demo.cached /\
    files st' = files Demo.cached.
Proof.
  destruct (process_mod_no_results_fails Demo.world "Nothing" Demo.cached)
    as [st' [failed [Hrun [Hc [Hd [Hf _]]]]]].
  - eexists. split; [eexists; split; reflexivity|].
    repeat constructor; eexists; eexists; split; reflexivity.
  - intros [ms [m [[kv [Hkv Hms]] [Hin [r [Hr Hname]]]]]].
    vm_compute in Hkv. inversion Hkv; subst kv.
    vm_compute in Hms. inversion Hms; subst ms.
    destruct Hin as [<-|[]]. inversion Hr; subst r.
    vm_compute in Hname. discriminate.
  - intros st0. reflexivity.
  - exists st'. auto.
Defined.

(** C1 as the specification words it does not hold: a title that only
    contains [.png] passes the filter, and the wiki is asked for it. *)
Lemma image_filter_suffix_counterexample :
  image_title_qualifies "File:Apple.png.txt" = true /\
  ends_in_raster_extension "File:Apple.png.txt" = false /\
  In (ApiGet (imageinfo_params (VStr "File:Apple.png.txt")))
     (trace (snd (process_mod Demo.world "AppleSkin" (Demo.start false [])))) /\
  ~ (forall image_title : string,
       image_title_qualifies image_title = true <->
       ends_in_raster_extension image_title = true).
Proof.
  split; [reflexivity|]. split; [reflexivity|]. split.
  - vm_compute. tauto.
  - intros H. specialize (H "File:Apple.png.txt"). destruct H as [H _].
    specialize (H eq_refl). vm_compute in H. discriminate.
Qed.

(** C1, amended. The image loop hands a title to [process_image] exactly
    when the filter accepts it, and the filter accepts a title if and only
    if its lower-cased form contains one of [.png], [.jpg], [.gif]
    (with the dot) somewhere, not necessarily at its end. *)
Theorem image_filter_keeps_substring :
  forall (w : World) (image_title : string) (rest : list value)
         (item_details : value) (st : fetcher),
    (image_title_qualifies image_title = true <->
     exists ext pre post,
       In ext [".png"; ".jpg"; ".gif"] /\
       Str.lower image_title = pre ++ ext ++ post) /\
    submit_images w (VStr image_title :: rest) item_details st =
    (if image_title_qualifies image_title
     then (image_data <- process_image w (VStr image_title) item_details ;;
           results <- submit_images w rest item_details ;;
           ret (image_data :: results)) st
     else submit_images w rest item_details st).
Proof.
  intros w image_title rest item_details st. split.
  - unfold image_title_qualifies, keeps_image. rewrite existsb_exists. split.
    + intros [ext [Hin Hc]]. apply contains_split in Hc as [pre [post Hc]].
      exists ext, pre, post. auto.
    + intros [ext [pre [post [Hin Hc]]]]. exists ext. split; [exact Hin|].
      apply contains_split. eauto.
  - cbn [submit_images]. unfold bind at 1, lift. cbn [py_lower].
    fold (image_title_qualifies image_title).
    destruct (image_title_qualifies image_title); reflexivity.
Qed.

(** C3 fails on the code when two tasks for one mod name interleave: on
    the pool of [main] both tasks check the store before either appends,
    and the final store has two records for the name.  Run one after the
    other, the same two tasks leave one record. *)
Theorem same_mod_twice_interleaved_duplicates :
  mod_names
    (data (snd (run_schedule Demo.world [0; 1; 0; 1; 0; 1]%nat
                  [Pending "AppleSkin"; Pending "AppleSkin"]
                  (Demo.start false [])))) =
    [VStr "AppleSkin"; VStr "AppleSkin"] /\
  ~ NoDup
      (mod_names
         (data (snd (run_schedule Demo.world [0; 1; 0; 1; 0; 1]%nat
                       [Pending "AppleSkin"; Pending "AppleSkin"]
                       (Demo.start false []))))) /\
  mod_names
    (data (snd (run_schedule Demo.world [0; 0; 0; 1; 1; 1]%nat
                  [Pending "AppleSkin"; Pending "AppleSkin"]
                  (Demo.start false [])))) =
    [VStr "AppleSkin"].
Proof.
  assert (H : mod_names
    (data (snd (run_schedule Demo.world [0; 1; 0; 1; 0; 1]%nat
                  [Pending "AppleSkin"; Pending "AppleSkin"]
                  (Demo.start false [])))) =
    [VStr "AppleSkin"; VStr "AppleSkin"]) by (vm_compute; reflexivity).
  split; [exact H|]. split; [|vm_compute; reflexivity].
  rewrite H. intros Hnd. inversion Hnd as [|x l Hnin _]; subst.
  apply Hnin. now left.
Qed.


Lemma has_pages_reply (data pages : value) :
  has_pages data pages -> reply_pages data = Ret pages.
Proof.
  intros [kv [q [-> [Hq Hp]]]]. unfold reply_pages. cbn [py_getitem].
  rewrite Hq. cbn [and_then py_getitem]. now rewrite Hp.
Qed.

Lemma image_titles_collected (imgs titles : list value) :
  Forall2 (fun img t => exists r, img = VDict r /\ dict_get r "title" = Some t)
          imgs titles ->
  map_result (fun img => py_getitem img (VStr "title")) imgs = Ret titles.
Proof.
  induction 1 as [|img t imgs titles [r [-> Hr]] _ IH]; cbn [map_result].
  - reflexivity.
  - cbn [py_getitem]. rewrite Hr. cbn [and_then]. now rewrite IH.
Qed.

Lemma item_record_of_page (page : list (string * value)) (titles : list value) :
  page_image_titles page titles ->
  item_record (VDict page) =
  Ret (item_details_record (page_field page "title") (page_field page "extract") titles).
Proof.
  unfold page_image_titles, item_record, page_field. cbn [py_get py_in and_then].
  destruct (dict_get page "images") as [[| | | |imgs|]|]; try contradiction.
  - intros H. cbn [py_iter and_then]. rewrite (image_titles_collected imgs titles H).
    reflexivity.
  - intros ->. reflexivity.
Qed.

(** C9 as the specification words it does not hold: for a title that
    resolves to no page the wiki replies with one entry marked as
    missing, and the detail stage returns a record for it, with the title
    asked for, an empty description and no image, not null. *)
Lemma get_item_details_missing_page_counterexample :
  fst (get_item_details Scenario.missing_page (VStr "Nobody") (fresh false [])) =
    Ret (item_details_record (VStr "Nobody") (VStr EmptyString) []) /\
  ~ (forall (w : World) (page_title : value) (st : fetcher) (data page : value),
       api_get w (details_params page_title) = Json data ->
       reply_pages data = Ret (VDict [("-1", page)]) ->
       py_in "missing" page = Ret true ->
       fst (get_item_details w page_title st) = Ret VNone).
Proof.
  split; [reflexivity|].
  intros H.
  specialize (H Scenario.missing_page (VStr "Nobody") (fresh false []) _ _
                eq_refl eq_refl eq_refl).
  vm_compute in H. discriminate.
Qed.

(** C9, amended. For every page title the detail stage makes one request
    and never raises.  It returns null or a record with a title, a
    description and a list of image titles; it returns null when the
    request fails, when the reply is not JSON and when the reply has no
    page entry at all; when the first page entry of the reply is a record
    whose images, if any, have titles, it returns the record with that
    entry's title, extract and image titles, also when the entry is the
    one the wiki sends for a page that does not exist. *)
Theorem get_item_details_record_or_null :
  forall (w : World) (page_title : value) (st : fetcher),
  exists (r : value) (failed : bool),
    get_item_details w page_title st =
      (Ret r, after_request (details_params page_title) failed st) /\
    (r = VNone \/
     exists title description images,
       r = item_details_record title description images) /\
    (api_get w (details_params page_title) = ConnectionFailed -> r = VNone) /\
    (api_get w (details_params page_title) = NotJson -> r = VNone) /\
    (forall data,
       api_get w (details_params page_title) = Json data ->
       has_pages data (VDict []) -> r = VNone) /\
    (forall data page_id page others titles,
       api_get w (details_params page_title) = Json data ->
       has_pages data (VDict ((page_id, VDict page) :: others)) ->
       page_image_titles page titles ->
       r = item_details_record (page_field page "title") (page_field page "extract")
             titles).
Proof.
  intros w page_title st.
  destruct (get_item_details_run w page_title st) as [failed Hrun].
  exists (details_reply (api_get w (details_params page_title))), failed.
  split; [exact Hrun|]. split; [apply details_reply_shape|].
  split; [intros ->; reflexivity|]. split; [intros ->; reflexivity|]. split.
  - intros data -> Hp. unfold details_reply.
    rewrite (has_pages_reply _ _ Hp). reflexivity.
  - intros data page_id page others titles -> Hp Ht. unfold details_reply.
    rewrite (has_pages_reply _ _ Hp). cbn [and_then py_iter map fst py_getitem dict_get].
    rewrite String.eqb_refl. cbn [and_then].
    rewrite (item_record_of_page page titles Ht). reflexivity.
Qed.

Lemma get_item_details_record_or_null_witness :
  fst (get_item_details Demo.world (VStr "Apple") (Demo.start false [])) =
    Ret (item_details_record (VStr "Apple") (VStr "A fruit.")
           [VStr "File:Apple.PNG"; VStr "File:Apple.svg"; VStr "File:Apple.png.txt"]) /\
  fst (get_item_details Scenario.missing_page (VStr "Nobody") (Demo.start false [])) =
    Ret (item_details_record (VStr "Nobody") (VStr EmptyString) []) /\
  fst (get_item_details Demo.world (VStr "Nobody") (Demo.start false [])) = Ret VNone.
Proof.
  split; [|split].
  - destruct (get_item_details_record_or_null Demo.world (VStr "Apple")
                (Demo.start false [])) as [r [failed [Hrun [_ [_ [_ [_ Hrec]]]]]]].
    rewrite Hrun. cbn [fst]. f_equal.
    apply (Hrec _ "17"
             [ ("title", VStr "Apple"); ("extract", VStr "A fruit.");
               ("images",
                VList [ VDict [("title", VStr "File:Apple.PNG")];
                        VDict [("title", VStr "File:Apple.svg")];
                        VDict [("title", VStr "File:Apple.png.txt")] ]) ]
             []
             [VStr "File:Apple.PNG"; VStr "File:Apple.svg"; VStr "File:Apple.png.txt"]
             eq_refl).
    + eexists. eexists. split; [reflexivity|]. split; reflexivity.
    + repeat constructor; eexists; split; reflexivity.
  - destruct (get_item_details_record_or_null Scenario.missing_page (VStr "Nobody")
                (Demo.start false [])) as [r [failed [Hrun [_ [_ [_ [_ Hrec]]]]]]].
    rewrite Hrun. cbn [fst]. f_equal.
    apply (Hrec _ "-1"
             [ ("ns", VInt 0); ("title", VStr "Nobody"); ("missing", VStr EmptyString) ]
             [] [] eq_refl).
    + eexists. eexists. split; [reflexivity|]. split; reflexivity.
    + reflexivity.
  - destruct (get_item_details_record_or_null Demo.world (VStr "Nobody")
                (Demo.start false [])) as [r [failed [Hrun [_ [_ [_ [Hnone _]]]]]]].
    rewrite Hrun. cbn [fst]. f_equal.
    eapply Hnone.
    + reflexivity.
    + eexists. eexists. split; [reflexivity|]. split; reflexivity.
Defined.

(** C10. When the store file exists but cannot be loaded (it is not a
    JSON document, cannot be read, or is a directory),
    [load_existing_data] does not raise: it logs the error and sets the
    store to the empty store, the one it sets when there is no file.  The
    file itself is left as it is, and the next [process_mod] that
    succeeds replaces it by a store holding only the new mod. *)
Theorem load_failure_gives_empty_store :
  forall (w : World) (st : fetcher) (f : file),
    fs_get (files st) json_file = Some f ->
    (forall v, f <> JsonText v) ->
    exists st',
      load_existing_data st = (Ret tt, st') /\
      data st' = VDict [("mods", VList [])] /\
      files st' = files st /\
      trace st' = Log ERROR :: trace st /\
      (forall st0,
         fs_get (files st0) json_file = None ->
         load_existing_data st0 = (Ret tt, set_data (data st') st0)) /\
      (forall mod_name st'',
         writable w json_file = true ->
         process_mod w mod_name st' = (Ret true, st'') ->
         exists items,
           data st'' = VDict [("mods", VList [mod_data_record mod_name items])] /\
           fs_get (files st'') json_file = Some (JsonText (data st''))).
Proof.
  intros w st f Hf Hbad.
  exists (emit (Log ERROR) (set_data empty_store st)).
  split; [|split; [reflexivity|split; [reflexivity|split; [reflexivity|split]]]].
  - unfold load_existing_data. run_all. rewrite Hf.
    destruct f as [v| | |]; try reflexivity. now destruct (Hbad v).
  - intros st0 H0. unfold load_existing_data. run_all. now rewrite H0.
  - intros mod_name st'' Hw Hrun.
    destruct (process_mod_new_run w mod_name (emit (Log ERROR) (set_data empty_store st))
                [("mods", VList [])] [])
      as [st1 [[Hr _]|[items [Hr [Hd [_ Hfile]]]]]];
      try reflexivity; try constructor.
    + intros [ms [m [[kv [Hkv Hms]] [Hin _]]]].
      cbn [data emit set_data] in Hkv. inversion Hkv; subst kv.
      cbn in Hms. inversion Hms; subst ms. destruct Hin.
    + rewrite Hr in Hrun. discriminate.
    + rewrite Hr in Hrun. inversion Hrun; subst st1.
      exists items. split; [exact Hd|]. auto.
Qed.

Lemma load_failure_gives_empty_store_witness :
  exists st',
    load_existing_data Demo.corrupted = (Ret tt, st') /\
    data st' = VDict [("mods", VList [])] /\
    files st' = files Demo.corrupted.
Proof.
  destruct (load_failure_gives_empty_store Demo.world Demo.corrupted (Blob "{ mods: ["))
    as [st' [Hrun [Hd [Hf _]]]].
  - reflexivity.
  - intros v. discriminate.
  - exists st'. auto.
Defined.





(** The soundness of the image records of the store is kept by
    [process_mod], and so by any number of them in a row. *)
Lemma process_mod_keeps_image_records (w : World) (mod_name : string) (st : fetcher) :
  Forall (image_record_ok (download_images st) (files st))
         (store_image_records (data st)) ->
  Forall (image_record_ok (download_images st)
            (files (snd (process_mod w mod_name st))))
         (store_image_records (data (snd (process_mod w mod_name st)))).
Proof.
  intros Hinv.
  destruct (process_mod_outcome w mod_name st) as [Hk [_ Hdata]].
  assert (Hold : Forall (image_record_ok (download_images st)
                           (files (snd (process_mod w mod_name st))))
                        (store_image_records (data st))).
  { eapply Forall_impl; [|exact Hinv].
    intros r. now apply image_record_ok_kept. }
  destruct Hdata as [->|[kv [ms [items [Hd [Hms [-> Hitems]]]]]]]; [exact Hold|].
  rewrite (store_image_records_append kv ms items mod_name Hms).
  apply Forall_app. split; [now rewrite <- Hd|].
  eapply Forall_impl; [|apply (stored_items_records _ _ _ _ Hitems)].
  intros r [_ Hok]. exact Hok.
Qed.

Lemma run_sequential_keeps_image_records (w : World) (mods : list string) :
  forall st : fetcher,
    Forall (image_record_ok (download_images st) (files st))
           (store_image_records (data st)) ->
    Forall (image_record_ok (download_images st)
              (files (snd (run_sequential w mods st))))
           (store_image_records (data (snd (run_sequential w mods st)))).
Proof.
  induction mods as [|mod_name mods IH]; intros st Hinv; cbn [run_sequential].
  - exact Hinv.
  - run_all.
    destruct (process_mod_total w mod_name st) as [ok [st1 Hrun]].
    pose proof (process_mod_keeps_image_records w mod_name st Hinv) as H1.
    destruct (process_mod_outcome w mod_name st) as [_ [Hdl _]].
    rewrite Hrun in *. cbn [snd] in H1, Hdl.
    specialize (IH st1). rewrite Hdl in IH. specialize (IH H1).
    destruct (run_sequential w mods st1) as [[oks|e] st2]; exact IH.
Qed.

Lemma request_trace (params : list (string * value)) (failed : bool) (st : fetcher) :
  trace (after_request params failed st) =
    ((if failed then [Log ERROR] else []) ++ [ApiGet params] ++ trace st)%list /\
  files (after_request params failed st) = files st.
Proof. unfold after_request. destruct failed; split; reflexivity. Qed.

(** C6. [process_image] never raises.  Without a URL from the wiki it
    returns null.  With one it returns a record with the item title, the
    URL and a local path.  The local path is not empty if and only if
    downloading is on and an image file was written during the call; it
    is then the path of that file, a file of the images directory that
    holds the bytes fetched from the URL.  When downloading is off the
    path is empty, no image is fetched and no file changes.  When
    downloading is on and no file could be written, the image was asked
    for, the error is logged, and the record is returned with its URL and
    an empty path.  Over the store: when every image record of the store
    has a URL, an empty local path if downloading is off, and otherwise a
    local path that is empty or names a file of the images directory
    holding bytes, the same holds after [process_mod], whatever the mod
    and whatever the wiki replies, and so after any number of mods
    processed in a row; the empty store is such a store. *)
Theorem local_path_iff_downloaded :
  forall (w : World),
    (forall (image_title title description : value) (images : list value)
            (st : fetcher),
     exists (r : value) (new : list event) (st' : fetcher),
       process_image w image_title (item_details_record title description images) st =
         (Ret r, st') /\
       trace st' = (new ++ trace st)%list /\
       (truthy (resolved_url w image_title) = false -> r = VNone) /\
       (truthy (resolved_url w image_title) = true ->
        exists local_path,
          r = image_record title (resolved_url w image_title) local_path /\
          (local_path <> EmptyString <->
           download_images st = true /\ exists path, In (FileWrite path) new) /\
          (local_path <> EmptyString ->
           exists u content name,
             resolved_url w image_title = VStr u /\
             image_get w u = Some content /\
             local_path = images_dir ++ "/" ++ name /\
             In (ImageGet (VStr u)) new /\
             In (FileWrite local_path) new /\
             fs_get (files st') local_path = Some (Blob content)) /\
          (download_images st = false ->
           local_path = EmptyString /\ files st' = files st /\
           forall url, ~ In (ImageGet url) new) /\
          (download_images st = true -> local_path = EmptyString ->
           In (ImageGet (resolved_url w image_title)) new /\ In (Log ERROR) new))) /\
    (forall (image_title : value) (st : fetcher),
       fst (get_image_url w image_title st) = Ret (resolved_url w image_title)) /\
    (forall (mod_name : string) (st : fetcher),
       Forall (image_record_ok (download_images st) (files st))
              (store_image_records (data st)) ->
       Forall (image_record_ok (download_images st)
                 (files (snd (process_mod w mod_name st))))
              (store_image_records (data (snd (process_mod w mod_name st))))) /\
    (forall (mods : list string) (st : fetcher),
       Forall (image_record_ok (download_images st) (files st))
              (store_image_records (data st)) ->
       Forall (image_record_ok (download_images st)
                 (files (snd (run_sequential w mods st))))
              (store_image_records (data (snd (run_sequential w mods st))))) /\
    store_image_records empty_store = [].
Proof.
  intros w. split; [|split; [|split; [|split; [|reflexivity]]]].
  4:{ intros mods st. apply run_sequential_keeps_image_records. }
  2:{ intros image_title st.
      destruct (get_image_url_run w image_title st) as [failed Hrun]. now rewrite Hrun. }
  - intros image_title title description images st.
    destruct (process_image_steps w image_title title description images st)
      as [failed [st' [Hrun Hst]]].
    destruct (request_trace (imageinfo_params image_title) failed st) as [Htr Hfs].
    set (st1 := after_request (imageinfo_params image_title) failed st) in *.
    unfold image_result in Hrun. cbv zeta in Hrun.
    destruct (truthy (resolved_url w image_title)) eqn:Et; cbn [andb] in Hst.
    + destruct (download_images st) eqn:Edl.
      * destruct (download_image_files w (resolved_url w image_title) title st1)
          as [st2 [Hd [_ [Hempty Hpath]]]].
        rewrite Hfs in Hd, Hempty, Hpath. rewrite Hst in Hd. inversion Hd; subst st2.
        clear Hd.
        destruct (string_dec
                    (download_path w (images_dir_ready (files st))
                       (resolved_url w image_title) title) EmptyString) as [E|Hp].
        -- destruct (Hempty E) as [Htr2 _].
           exists (image_record title (resolved_url w image_title) EmptyString),
             (Log ERROR :: ImageGet (resolved_url w image_title) ::
              (if failed then [Log ERROR] else []) ++
              [ApiGet (imageinfo_params image_title)])%list, st'.
           split; [rewrite Hrun, E; reflexivity|].
           split; [rewrite Htr2, Htr; cbn [app]; now rewrite <- app_assoc|].
           split; [discriminate|]. intros _. exists EmptyString.
           split; [reflexivity|]. split; [|split; [|split]].
           ++ split; [congruence|]. intros [_ [path Hin]]. exfalso.
              destruct failed; cbn in Hin; intuition discriminate.
           ++ congruence.
           ++ discriminate.
           ++ intros _ _. split; [right; left; reflexivity|left; reflexivity].
        -- destruct (Hpath Hp)
             as [u [content [name [Hu [Hc [Hpn [_ [_ [_ [Hf Htr2]]]]]]]]]].
           exists (image_record title (resolved_url w image_title)
                     (images_dir ++ "/" ++ name)),
             (Log INFO :: FileWrite (images_dir ++ "/" ++ name) ::
              ImageGet (resolved_url w image_title) ::
              (if failed then [Log ERROR] else []) ++
              [ApiGet (imageinfo_params image_title)])%list, st'.
           split; [rewrite Hrun, Hpn; reflexivity|].
           split; [rewrite Htr2, Htr; cbn [app]; now rewrite <- app_assoc|].
           split; [discriminate|]. intros _. exists (images_dir ++ "/" ++ name).
           split; [reflexivity|]. split; [|split; [|split]].
           ++ split; [|discriminate]. intros _. split; [reflexivity|].
              exists (images_dir ++ "/" ++ name). right; left; reflexivity.
           ++ intros _. exists u, content, name.
              split; [exact Hu|]. split; [exact Hc|]. split; [reflexivity|].
              split; [rewrite <- Hu; right; right; left; reflexivity|].
              split; [right; left; reflexivity|].
              rewrite Hf. apply fs_get_set.
           ++ discriminate.
           ++ intros _ E. discriminate.
      * subst st'.
        exists (image_record title (resolved_url w image_title) EmptyString),
          ((if failed then [Log ERROR] else []) ++
           [ApiGet (imageinfo_params image_title)])%list, st1.
        split; [exact Hrun|].
        split; [rewrite Htr; now rewrite <- app_assoc|].
        split; [discriminate|]. intros _. exists EmptyString.
        split; [reflexivity|]. split; [|split; [|split]].
        -- split; [congruence|]. intros [E _]. discriminate.
        -- congruence.
        -- intros _. split; [reflexivity|]. split; [exact Hfs|].
           intros url Hin. destruct failed; cbn in Hin; intuition discriminate.
        -- discriminate.
    + subst st'.
      exists VNone,
        ((if failed then [Log ERROR] else []) ++
         [ApiGet (imageinfo_params image_title)])%list, st1.
      split; [exact Hrun|].
      split; [rewrite Htr; now rewrite <- app_assoc|].
      split; [reflexivity|discriminate].
  - intros mod_name st. apply process_mod_keeps_image_records.
Qed.

Lemma local_path_iff_downloaded_witness :
  (exists st',
     process_image Demo.world (VStr "File:Apple.PNG") Demo.apple (Demo.start true []) =
       (Ret (image_record (VStr "Apple") (VStr "https://img.example/a/Apple.PNG?cb=1")
               "mod_items_data/Apple_-36.PNG"), st') /\
     fs_get (files st') "mod_items_data/Apple_-36.PNG" = Some (Blob "PNG-bytes")) /\
  fst (process_image Scenario.full_disk (VStr "File:Apple.PNG") Demo.apple
         (Demo.start true [])) =
    Ret (image_record (VStr "Apple") (VStr "https://img.example/a/Apple.PNG?cb=1")
           EmptyString) /\
  fs_get (files (snd (process_image Scenario.full_disk (VStr "File:Apple.PNG")
                        Demo.apple (Demo.start true []))))
    "mod_items_data/Apple_-36.PNG" = Some (Blob EmptyString) /\
  Forall (image_record_ok true
            (files (snd (process_mod Demo.world "AppleSkin" (Demo.start true [])))))
         (store_image_records
            (data (snd (process_mod Demo.world "AppleSkin" (Demo.start true []))))).
Proof.
  destruct (local_path_iff_downloaded Demo.world) as [Hcall [_ [Hstore _]]].
  split; [|split; [|split]].
  - destruct (Hcall (VStr "File:Apple.PNG") (VStr "Apple") (VStr "A fruit.")
                [VStr "File:Apple.PNG"; VStr "File:Apple.svg"; VStr "File:Apple.png.txt"]
                (Demo.start true []))
      as [r [new [st' [Hrun [_ [_ Hrec]]]]]].
    destruct (Hrec eq_refl) as [local_path [Hr [_ [Hfile _]]]].
    change Demo.apple with
      (item_details_record (VStr "Apple") (VStr "A fruit.")
         [VStr "File:Apple.PNG"; VStr "File:Apple.svg"; VStr "File:Apple.png.txt"]).
    assert (Hp : r = image_record (VStr "Apple")
                       (VStr "https://img.example/a/Apple.PNG?cb=1")
                       "mod_items_data/Apple_-36.PNG").
    { assert (H : fst (process_image Demo.world (VStr "File:Apple.PNG")
                         (item_details_record (VStr "Apple") (VStr "A fruit.")
                            [VStr "File:Apple.PNG"; VStr "File:Apple.svg";
                             VStr "File:Apple.png.txt"]) (Demo.start true [])) =
                  Ret (image_record (VStr "Apple")
                         (VStr "https://img.example/a/Apple.PNG?cb=1")
                         "mod_items_data/Apple_-36.PNG")) by reflexivity.
      rewrite Hrun in H. cbn [fst] in H. now inversion H. }
    exists st'. split; [rewrite Hrun, Hp; reflexivity|].
    rewrite Hr in Hp. inversion Hp as [Hl]. rewrite Hl in Hfile.
    destruct Hfile as [u [content [name [Hu [Hc [_ [_ [_ Hget]]]]]]]]; [discriminate|].
    inversion Hu; subst u. cbn in Hc. inversion Hc; subst content. exact Hget.
  - reflexivity.
  - reflexivity.
  - apply (Hstore "AppleSkin" (Demo.start true [])). constructor.
Defined.


(* ===================================================================== *)
(** ** Further properties of the code *)
(* ===================================================================== *)

(** *** [sanitize_filename], character by character *)

Lemma replace_char_map (old : ascii) (s : string) :
  Str.replace_char old "_" s =
  map_chars (fun c => if Ascii.eqb c old then "_"%char else c) s.
Proof.
  induction s as [|c s IH]; cbn [Str.replace_char map_chars]; [reflexivity|].
  destruct (Ascii.eqb c old); cbn [String.append]; now rewrite IH.
Qed.

Lemma map_chars_ext (f g : ascii -> ascii) (s : string) :
  (forall c, f c = g c) -> map_chars f s = map_chars g s.
Proof. intros H. induction s as [|c s IH]; cbn; [reflexivity|]. now rewrite H, IH. Qed.

Lemma map_chars_map_chars (f g : ascii -> ascii) (s : string) :
  map_chars g (map_chars f s) = map_chars (fun c => g (f c)) s.
Proof. induction s as [|c s IH]; cbn; [reflexivity|]. now rewrite IH. Qed.

Lemma replace_all_map (cs : list ascii) (s : string) :
  fold_left (fun fn char => Str.replace_char char "_" fn) cs s =
  map_chars
    (fun c => fold_left (fun d old => if Ascii.eqb d old then "_"%char else d) cs c) s.
Proof.
  revert s. induction cs as [|old cs IH]; intros s; cbn [fold_left].
  - induction s as [|c s IHs]; cbn; [reflexivity|]. now rewrite <- IHs.
  - rewrite IH, replace_char_map, map_chars_map_chars. reflexivity.
Qed.

Lemma underscore_stays (cs : list ascii) :
  Forall (fun c => c <> "_"%char) cs ->
  fold_left (fun d old => if Ascii.eqb d old then "_"%char else d) cs "_"%char = "_"%char.
Proof.
  induction 1 as [|old cs Hold _ IH]; cbn [fold_left]; [reflexivity|].
  destruct (Ascii.eqb_spec "_"%char old) as [E|_]; exact IH.
Qed.

Lemma replace_one_char (cs : list ascii) (c : ascii) :
  Forall (fun c => c <> "_"%char) cs ->
  fold_left (fun d old => if Ascii.eqb d old then "_"%char else d) cs c =
  if existsb (Ascii.eqb c) cs then "_"%char else c.
Proof.
  intros Hcs. revert c. induction Hcs as [|old cs Hold Hcs IH]; intros c;
    cbn [fold_left existsb]; [reflexivity|].
  destruct (Ascii.eqb c old); cbn [orb].
  - apply underscore_stays. exact Hcs.
  - apply IH.
Qed.

Lemma take_map_chars (f : ascii -> ascii) (n : nat) (s : string) :
  Str.take n (map_chars f s) = map_chars f (Str.take n s).
Proof.
  revert s. induction n as [|n IH]; intros [|c s]; cbn; try reflexivity.
  now rewrite IH.
Qed.

Lemma take_take (n : nat) (s : string) : Str.take n (Str.take n s) = Str.take n s.
Proof.
  revert s. induction n as [|n IH]; intros [|c s]; cbn; try reflexivity.
  now rewrite IH.
Qed.

Lemma take_length_min (n : nat) (s : string) :
  String.length (Str.take n s) = Nat.min n (String.length s).
Proof.
  revert s. induction n as [|n IH]; intros [|c s]; cbn; try reflexivity.
  now rewrite IH.
Qed.

Lemma map_chars_length (f : ascii -> ascii) (s : string) :
  String.length (map_chars f s) = String.length s.
Proof. induction s as [|c s IH]; cbn; [reflexivity|]. now rewrite IH. Qed.

Lemma sanitize_char_idempotent (c : ascii) :
  sanitize_char (sanitize_char c) = sanitize_char c.
Proof.
  unfold sanitize_char. destruct (existsb (Ascii.eqb c) invalid_chars) eqn:E.
  - reflexivity.
  - now rewrite E.
Qed.

(** X13. The nine replacements of [sanitize_filename], made one after
    the other on the whole name, amount to one pass that turns each
    invalid character into an underscore and keeps every other character
    in its place, followed by the cut at 255.  So the result is as long
    as the name, up to 255, and sanitizing twice changes nothing more. *)
Theorem sanitize_filename_pointwise :
  forall filename : string,
    sanitize_filename filename = Str.take 255 (map_chars sanitize_char filename) /\
    String.length (sanitize_filename filename) = Nat.min 255 (String.length filename) /\
    sanitize_filename (sanitize_filename filename) = sanitize_filename filename.
Proof.
  assert (Hform : forall s,
             sanitize_filename s = Str.take 255 (map_chars sanitize_char s)).
  { intros s. unfold sanitize_filename. rewrite replace_all_map. f_equal.
    apply map_chars_ext. intros c. unfold sanitize_char.
    apply replace_one_char. exact invalid_chars_not_underscore. }
  intros filename. split; [apply Hform|]. split.
  - rewrite Hform, take_length_min, map_chars_length. reflexivity.
  - rewrite (Hform (sanitize_filename filename)), (Hform filename).
    rewrite take_map_chars, take_take, <- take_map_chars, map_chars_map_chars.
    f_equal. apply map_chars_ext. apply sanitize_char_idempotent.
Qed.

(** *** [get_image_url] *)

Lemma dict_get_app_first (before rest : list (string * value)) (k : string) :
  In k (map fst before) ->
  exists v, In (k, v) before /\ dict_get (before ++ rest) k = Some v.
Proof.
  induction before as [|[k' v'] before IH]; cbn [map fst In app dict_get]; [tauto|].
  intros Hin. destruct (String.eqb_spec k' k) as [->|Hne].
  - exists v'. auto.
  - destruct Hin as [E|Hin]; [contradiction|].
    destruct (IH Hin) as [v [Hv Hg]]. exists v. auto.
Qed.

Lemma dict_get_app_skip (before rest : list (string * value)) (k : string) :
  ~ In k (map fst before) -> dict_get (before ++ rest) k = dict_get rest k.
Proof.
  induction before as [|[k' v'] before IH]; cbn [map fst In app dict_get]; [reflexivity|].
  intros Hnin. destruct (String.eqb_spec k' k) as [->|Hne]; [tauto|].
  apply IH. tauto.
Qed.

Lemma first_imageinfo_skip (pages : list (string * value)) (keys : list string)
  (ids : list value) :
  Forall (fun k => exists r, dict_get pages k = Some (VDict r) /\
                             dict_get r "imageinfo" = None) keys ->
  first_imageinfo_url (VDict pages) (map VStr keys ++ ids)%list =
  first_imageinfo_url (VDict pages) ids.
Proof.
  induction 1 as [|k keys [r [Hk Hr]] _ IH]; cbn [map app first_imageinfo_url];
    [reflexivity|].
  cbn [py_getitem]. rewrite Hk. cbn [and_then py_in]. rewrite Hr. exact IH.
Qed.

Lemma pages_without_imageinfo (before rest : list (string * value)) :
  Forall no_imageinfo before ->
  Forall (fun k => exists r, dict_get (before ++ rest) k = Some (VDict r) /\
                             dict_get r "imageinfo" = None) (map fst before).
Proof.
  intros Hall. rewrite Forall_forall in *. intros k Hk.
  destruct (dict_get_app_first before rest k Hk) as [v [Hin Hg]].
  destruct (Hall (k, v) Hin) as [r [Hv Hr]]. cbn [snd] in Hv. subst v. eauto.
Qed.

Lemma iter_pages (before rest : list (string * value)) :
  py_iter (VDict (before ++ rest)) =
  Ret (map VStr (map fst before) ++ map (fun p => VStr (fst p)) rest)%list.
Proof. cbn [py_iter]. now rewrite map_app, map_map. Qed.

(** X1. [get_image_url] makes one request ([prop=imageinfo],
    [iiprop=url], the title) and never raises.  It returns the URL of the
    first [imageinfo] entry of the first page that has one, passing over
    the pages before it that have none; it returns [None] when the
    request fails, when the reply is not JSON and when no page has an
    [imageinfo]. *)
Theorem get_image_url_first_imageinfo :
  forall (w : World) (image_title : value) (st : fetcher),
  exists (url : value) (failed : bool),
    get_image_url w image_title st =
      (Ret url, after_request (imageinfo_params image_title) failed st) /\
    imageinfo_params image_title =
      [ ("action", VStr "query"); ("format", VStr "json"); ("prop", VStr "imageinfo");
        ("iiprop", VStr "url"); ("titles", image_title) ] /\
    (api_get w (imageinfo_params image_title) = ConnectionFailed -> url = VNone) /\
    (api_get w (imageinfo_params image_title) = NotJson -> url = VNone) /\
    (forall data pages,
       api_get w (imageinfo_params image_title) = Json data ->
       has_pages data (VDict pages) ->
       Forall no_imageinfo pages ->
       url = VNone) /\
    (forall data before page_id page info others after u,
       api_get w (imageinfo_params image_title) = Json data ->
       has_pages data (VDict (before ++ (page_id, VDict page) :: after)) ->
       Forall no_imageinfo before ->
       ~ In page_id (map fst before) ->
       dict_get page "imageinfo" = Some (VList (VDict info :: others)) ->
       dict_get info "url" = Some u ->
       url = u).
Proof.
  intros w image_title st.
  destruct (get_image_url_run w image_title st) as [failed Hrun].
  exists (resolved_url w image_title), failed.
  split; [exact Hrun|]. split; [reflexivity|].
  unfold resolved_url, imageinfo_reply.
  split; [intros ->; reflexivity|]. split; [intros ->; reflexivity|]. split.
  - intros data pages -> Hp Hall. rewrite (has_pages_reply _ _ Hp). cbn [and_then].
    rewrite <- (app_nil_r pages), iter_pages. cbn [and_then map].
    rewrite first_imageinfo_skip; [reflexivity|].
    now apply pages_without_imageinfo.
  - intros data before page_id page info others after u -> Hp Hall Hnin Hinfo Hu.
    rewrite (has_pages_reply _ _ Hp). cbn [and_then].
    rewrite iter_pages. cbn [and_then].
    rewrite first_imageinfo_skip by now apply pages_without_imageinfo.
    cbn [map fst first_imageinfo_url py_getitem].
    rewrite (dict_get_app_skip before _ page_id Hnin). cbn [dict_get].
    rewrite String.eqb_refl. cbn [and_then py_in py_getitem]. rewrite Hinfo.
    cbn [and_then as_index]. unfold seq_index. cbn. now rewrite Hu.
Qed.

Lemma get_image_url_first_imageinfo_witness :
  fst (get_image_url Scenario.two_pages (VStr "File:A.png") (fresh false [])) =
    Ret (VStr "https://img.example/A.png") /\
  fst (get_image_url Demo.world (VStr "File:Stick.gif") (fresh false [])) = Ret VNone.
Proof.
  split.
  - destruct (get_image_url_first_imageinfo Scenario.two_pages (VStr "File:A.png")
                (fresh false [])) as [url [failed [Hrun [_ [_ [_ [_ Hurl]]]]]]].
    rewrite Hrun. cbn [fst]. f_equal.
    apply (Hurl _ [("-1", VDict [("title", VStr "File:A.png");
                                 ("missing", VStr EmptyString)])]
             "12"
             [("imageinfo", VList [VDict [("url", VStr "https://img.example/A.png")]])]
             [("url", VStr "https://img.example/A.png")] [] []
             (VStr "https://img.example/A.png") eq_refl).
    + eexists. eexists. split; [reflexivity|]. split; reflexivity.
    + repeat constructor. eexists. split; reflexivity.
    + cbn. intros [H|[]]. discriminate.
    + reflexivity.
    + reflexivity.
  - destruct (get_image_url_first_imageinfo Demo.world (VStr "File:Stick.gif")
                (fresh false [])) as [url [failed [Hrun [_ [_ [_ [Hnone _]]]]]]].
    rewrite Hrun. cbn [fst]. f_equal.
    eapply (Hnone _ _ eq_refl).
    + eexists. eexists. split; [reflexivity|]. split; reflexivity.
    + repeat constructor. eexists. split; reflexivity.
Defined.

(** X2. A page whose [imageinfo] is an empty list ends the search of
    [get_image_url]: indexing its first entry raises inside the [try],
    and the result is [None] even when a later page has a URL. *)
Theorem get_image_url_empty_imageinfo :
  forall (w : World) (image_title : value) (st : fetcher)
         (data : value) (before after : list (string * value))
         (page_id : string) (page : list (string * value)),
    api_get w (imageinfo_params image_title) = Json data ->
    has_pages data (VDict (before ++ (page_id, VDict page) :: after)) ->
    Forall no_imageinfo before ->
    ~ In page_id (map fst before) ->
    dict_get page "imageinfo" = Some (VList []) ->
    get_image_url w image_title st =
      (Ret VNone, after_request (imageinfo_params image_title) true st).
Proof.
  intros w image_title st data before after page_id page Hdata Hp Hall Hnin Hinfo.
  unfold get_image_url, requests_get_json, after_request. run_all.
  rewrite Hdata.
  destruct Hp as [kv [q [-> [Hq Hpages]]]].
  cbn [py_getitem]. rewrite Hq. cbn [py_getitem]. rewrite Hpages.
  rewrite iter_pages.
  rewrite first_imageinfo_skip by now apply pages_without_imageinfo.
  cbn [map fst first_imageinfo_url py_getitem].
  rewrite (dict_get_app_skip before _ page_id Hnin). cbn [dict_get].
  rewrite String.eqb_refl. cbn [and_then py_in py_getitem]. rewrite Hinfo.
  reflexivity.
Qed.

Lemma get_image_url_empty_imageinfo_witness :
  get_image_url Scenario.empty_info (VStr "File:A.png") (fresh false []) =
  (Ret VNone, after_request (imageinfo_params (VStr "File:A.png")) true (fresh false [])).
Proof.
  apply (get_image_url_empty_imageinfo Scenario.empty_info (VStr "File:A.png")
           (fresh false []) _ []
           [("12", VDict [("imageinfo",
                           VList [VDict [("url", VStr "https://img.example/A.png")]])])]
           "5" [("imageinfo", VList [])] eq_refl).
  - eexists. eexists. split; [reflexivity|]. split; reflexivity.
  - constructor.
  - intros [].
  - reflexivity.
Defined.

(** *** [get_mods_from_json] *)

Lemma worklist_names_collected (entries names : list value) :
  Forall2 (fun entry name => exists r, entry = VDict r /\ dict_get r "name" = Some name)
          entries names ->
  map_result (fun entry => py_getitem entry (VStr "name")) entries = Ret names.
Proof.
  induction 1 as [|entry name entries names [r [-> Hr]] _ IH]; cbn [map_result].
  - reflexivity.
  - cbn [py_getitem]. rewrite Hr. cbn [and_then]. now rewrite IH.
Qed.

Lemma worklist_entry_without_name (entries : list value) :
  Exists (fun entry => exists r, entry = VDict r /\ dict_get r "name" = None) entries ->
  exists e, map_result (fun entry => py_getitem entry (VStr "name")) entries = Raise e.
Proof.
  induction 1 as [entry entries [r [-> Hr]]|entry entries _ [e IH]]; cbn [map_result].
  - cbn [py_getitem]. rewrite Hr. cbn [and_then]. eauto.
  - destruct (py_getitem entry (VStr "name")); cbn [and_then]; [|eauto].
    rewrite IH. cbn [and_then]. eauto.
Qed.

(** X9. [get_mods_from_json] never raises and touches neither the files
    nor the fetcher.  From a worklist file that is a list of records with
    a [name] each it returns the names in the order of the file, other
    keys ignored.  When the file is missing, unreadable or not JSON, and
    also when a single entry has no [name], it logs one error and returns
    the empty list: one bad entry discards the whole worklist. *)
Theorem get_mods_from_json_all_or_nothing :
  forall st : fetcher,
  exists (names : list value) (st' : fetcher),
    get_mods_from_json st = (Ret names, st') /\
    (st' = st \/ (names = [] /\ st' = emit (Log ERROR) st)) /\
    (forall data expected,
       fs_get (files st) mods_file = Some (JsonText data) ->
       worklist_names data expected ->
       names = expected /\ st' = st) /\
    ((forall data, fs_get (files st) mods_file <> Some (JsonText data)) ->
     names = [] /\ st' = emit (Log ERROR) st) /\
    (forall entries,
       fs_get (files st) mods_file = Some (JsonText (VList entries)) ->
       Exists (fun entry => exists r, entry = VDict r /\ dict_get r "name" = None)
              entries ->
       names = [] /\ st' = emit (Log ERROR) st).
Proof.
  intros st. unfold get_mods_from_json. run_all.
  destruct (fs_get (files st) mods_file) as [[data| | |]|] eqn:Hf.
  - destruct (py_iter data) as [l|e] eqn:Hi.
    + destruct (map_result (fun entry => py_getitem entry (VStr "name")) l)
        as [names|e] eqn:Hm.
      * exists names, st. split; [reflexivity|]. split; [now left|]. split; [|split].
        -- intros data' expected E [entries [-> Hall]]. inversion E; subst data.
           cbn in Hi. inversion Hi; subst l.
           rewrite (worklist_names_collected _ _ Hall) in Hm. inversion Hm. auto.
        -- intros Hno. now destruct (Hno data).
        -- intros entries E Hex. inversion E; subst data.
           cbn in Hi. inversion Hi; subst l.
           destruct (worklist_entry_without_name _ Hex) as [e He]. congruence.
      * exists [], (emit (Log ERROR) st). split; [reflexivity|].
        split; [now right|]. split; [|split; auto].
        intros data' expected E [entries [-> Hall]]. inversion E; subst data.
        cbn in Hi. inversion Hi; subst l.
        rewrite (worklist_names_collected _ _ Hall) in Hm. discriminate.
    + exists [], (emit (Log ERROR) st). split; [reflexivity|].
      split; [now right|]. split; [|split; auto].
      intros data' expected E [entries [-> Hall]]. inversion E; subst data.
      discriminate.
  - exists [], (emit (Log ERROR) st). split; [reflexivity|].
    split; [now right|]. split; [|split; auto]; intros; discriminate.
  - exists [], (emit (Log ERROR) st). split; [reflexivity|].
    split; [now right|]. split; [|split; auto]; intros; discriminate.
  - exists [], (emit (Log ERROR) st). split; [reflexivity|].
    split; [now right|]. split; [|split; auto]; intros; discriminate.
  - exists [], (emit (Log ERROR) st). split; [reflexivity|].
    split; [now right|]. split; [|split; auto]; intros; discriminate.
Qed.

Lemma get_mods_from_json_all_or_nothing_witness :
  fst (get_mods_from_json (fresh false Scenario.worklist)) =
    Ret [VStr "AppleSkin"; VStr "Nothing"] /\
  fst (get_mods_from_json (fresh false [])) = Ret [] /\
  fst (get_mods_from_json (fresh false Scenario.bad_worklist)) = Ret [].
Proof.
  split; [|split].
  - destruct (get_mods_from_json_all_or_nothing (fresh false Scenario.worklist))
      as [names [st' [Hrun [_ [Hnames _]]]]].
    rewrite Hrun. cbn [fst]. f_equal.
    eapply Hnames; [reflexivity|].
    eexists. split; [reflexivity|].
    repeat constructor; eexists; split; reflexivity.
  - destruct (get_mods_from_json_all_or_nothing (fresh false []))
      as [names [st' [Hrun [_ [_ [Hmissing _]]]]]].
    rewrite Hrun. cbn [fst]. f_equal. apply Hmissing. intros data. discriminate.
  - destruct (get_mods_from_json_all_or_nothing (fresh false Scenario.bad_worklist))
      as [names [st' [Hrun [_ [_ [_ Hbad]]]]]].
    rewrite Hrun. cbn [fst]. f_equal. eapply Hbad; [reflexivity|].
    apply Exists_cons_tl. apply Exists_cons_hd. eexists. split; reflexivity.
Defined.

(** *** [download_image] and the files *)

(** X4. [download_image] never raises and leaves the fetcher alone.
    When it returns a path, the images directory was there, the path is
    that directory, a slash and a name without slash or backslash, so
    the file lies directly in the directory whatever the item title is;
    the file holds the bytes fetched from the URL, its write is in the
    trace, and every other file, the log file aside, is what it was.
    When it returns the empty path, the error is logged and no write is
    in the trace; the files are what they were, or one file of the
    images directory, the one that was opened, is left with what had
    been written to it before the write failed.  Without the images
    directory it returns the empty path and changes no file.  The log
    file, to which the logging module appends, is left out of the
    statement. *)
Theorem download_image_writes_one_file :
  forall (w : World) (url item_name : value) (st : fetcher),
  exists (local_path : string) (st' : fetcher),
    download_image w url item_name st = (Ret local_path, st') /\
    same_object st st' /\
    (local_path = EmptyString ->
     trace st' = Log ERROR :: ImageGet url :: trace st /\
     (files st' = files st \/
      exists name partial,
        images_dir_ready (files st) = true /\
        Str.mem_char "/" name = false /\
        fs_get (files st') (images_dir ++ "/" ++ name) = Some (Blob partial) /\
        forall other, other <> images_dir ++ "/" ++ name -> other <> log_file ->
                      fs_get (files st') other = fs_get (files st) other)) /\
    (local_path <> EmptyString ->
     exists u content name,
       url = VStr u /\ image_get w u = Some content /\
       local_path = images_dir ++ "/" ++ name /\
       Str.mem_char "/" name = false /\ Str.mem_char "\" name = false /\
       fs_get (files st) images_dir = Some Directory /\
       trace st' = Log INFO :: FileWrite local_path :: ImageGet url :: trace st /\
       fs_get (files st') local_path = Some (Blob content) /\
       forall other, other <> local_path -> other <> log_file ->
                     fs_get (files st') other = fs_get (files st) other) /\
    (fs_get (files st) images_dir <> Some Directory ->
     local_path = EmptyString /\ files st' = files st).
Proof.
  intros w url item_name st.
  unfold download_image, requests_get_content. run_all.
  assert (Hready : images_dir_ready (files st) = true ->
                   fs_get (files st) images_dir = Some Directory).
  { unfold images_dir_ready. destruct (fs_get (files st) images_dir) as [[| | |]|];
      congruence. }
  assert (Hnot : fs_get (files st) images_dir <> Some Directory ->
                 images_dir_ready (files st) = false).
  { unfold images_dir_ready. destruct (fs_get (files st) images_dir) as [[| | |]|];
      congruence. }
  destruct url as [|b|z|u|l|kv];
    try (eexists; eexists; split; [reflexivity|]; split;
         [unfold same_object; simpl; tauto|]; split; [auto|]; split;
         [congruence|auto]).
  destruct (image_get w u) as [content|] eqn:Ei;
    [|eexists; eexists; split; [reflexivity|]; split;
      [unfold same_object; simpl; tauto|]; split; [auto|]; split;
      [congruence|auto]].
  destruct (urlparse_path w u) as [path|];
    [|eexists; eexists; split; [reflexivity|]; split;
      [unfold same_object; simpl; tauto|]; split; [auto|]; split;
      [congruence|auto]].
  cbv zeta. rewrite write_file_run. unfold local_filename.
  rewrite path_join_sanitized.
  match goal with |- context [sanitize_filename ?x] =>
    pose proof (sanitize_filename_clean x) as Hclean;
    set (name := sanitize_filename x) in * end.
  rewrite Forall_forall in Hclean.
  assert (Hs : Str.mem_char "/" name = false)
    by (apply Hclean; unfold invalid_chars; simpl; tauto).
  assert (Hb : Str.mem_char "\" name = false)
    by (apply Hclean; unfold invalid_chars; simpl; tauto).
  cbn [files emit]. rewrite (parent_ok_image _ name Hs).
  destruct (images_dir_ready (files st)) eqn:Er.
  - destruct (writable w (images_dir ++ "/" ++ name)).
    + eexists; eexists; split; [reflexivity|].
      split; [unfold same_object; simpl; tauto|].
      split; [discriminate|]. split.
      * intros _. exists u, content, name.
        repeat (split; [reflexivity || assumption || (now apply Hready)|]).
        cbn [files emit set_files]. split; [apply fs_get_set|].
        intros other Hother _. now apply fs_get_set_other.
      * intros Hd. apply Hnot in Hd. congruence.
    + destruct (failed_write w (images_dir ++ "/" ++ name)) as [partial|];
        eexists; eexists; (split; [reflexivity|]);
        (split; [unfold same_object; simpl; tauto|]);
        (split; [|split; [congruence|intros Hd; apply Hnot in Hd; congruence]]);
        intros _; (split; [reflexivity|]).
      * right. exists name, partial. split; [reflexivity|]. split; [exact Hs|].
        cbn [files emit set_files]. split; [apply fs_get_set|].
        intros other Hother _. now apply fs_get_set_other.
      * left. reflexivity.
  - eexists; eexists; split; [reflexivity|].
    split; [unfold same_object; simpl; tauto|].
    split; [auto|]. split; [congruence|auto].
Qed.

Lemma download_image_writes_one_file_witness :
  fs_get (files (snd (download_image Demo.world
                        (VStr "https://img.example/a/Apple.PNG?cb=1")
                        (VStr "../../Apple") (Demo.start true []))))
         "mod_items_data/.._.._Apple_-36.PNG" = Some (Blob "PNG-bytes") /\
  (exists st',
     download_image Demo.world (VStr "https://img.example/a/Apple.PNG?cb=1")
       (VStr "../../Apple") (fresh true []) = (Ret EmptyString, st') /\
     files st' = []).
Proof.
  split.
  - destruct (download_image_writes_one_file Demo.world
                (VStr "https://img.example/a/Apple.PNG?cb=1") (VStr "../../Apple")
                (Demo.start true [])) as [p [st' [Hrun [_ [_ [Hfile _]]]]]].
    assert (Hp : p = "mod_items_data/.._.._Apple_-36.PNG").
    { assert (H : fst (download_image Demo.world
                         (VStr "https://img.example/a/Apple.PNG?cb=1")
                         (VStr "../../Apple") (Demo.start true [])) =
                  Ret "mod_items_data/.._.._Apple_-36.PNG") by reflexivity.
      rewrite Hrun in H. cbn [fst] in H. now inversion H. }
    rewrite Hrun. cbn [snd].
    destruct Hfile as [u [content [name [Hu [Hc [_ [_ [_ [_ [_ [Hget _]]]]]]]]]]].
    + rewrite Hp. discriminate.
    + inversion Hu; subst u. cbn in Hc. inversion Hc; subst content.
      rewrite <- Hp. exact Hget.
  - destruct (download_image_writes_one_file Demo.world
                (VStr "https://img.example/a/Apple.PNG?cb=1") (VStr "../../Apple")
                (fresh true [])) as [p [st' [Hrun [_ [_ [_ Hnodir]]]]]].
    destruct Hnodir as [Hp Hf]; [discriminate|].
    exists st'. split; [now rewrite Hrun, Hp|exact Hf].
Defined.

(** *** [process_mod], whatever the store *)

(** X5. [process_mod] never raises, whatever the store in memory and
    whatever the wiki answers, and it changes neither the download switch
    nor the total; its counters never go down.  When it returns failure
    the store in memory and the store file are exactly what they were,
    and the failed counter has gone up. *)
Theorem process_mod_failure_keeps_store :
  forall (w : World) (mod_name : string) (st : fetcher),
  exists (ok : bool) (st' : fetcher),
    process_mod w mod_name st = (Ret ok, st') /\
    download_images st' = download_images st /\
    total_count st' = total_count st /\
    failed_count st <= failed_count st' /\
    processed_count st <= processed_count st' /\
    (ok = false ->
     data st' = data st /\
     fs_get (files st') json_file = fs_get (files st) json_file /\
     failed_count st < failed_count st').
Proof.
  intros w mod_name st.
  unfold process_mod, process_mod_failed. run_all.
  destruct (process_mod_check_grows mod_name st) as [Hg0 _].
  destruct (process_mod_check mod_name st) as [[[|]|e] st1]; cbn [snd] in Hg0.
  - exists true, st1. split; [reflexivity|].
    unfold grows in Hg0. intuition (try discriminate).
  - pose proof (process_mod_fetch_grows w mod_name st1) as Hg1.
    assert (Hg : forall st2, grows st1 st2 -> grows st st2)
      by (intros st2; apply grows_trans; exact Hg0).
    destruct (process_mod_fetch w mod_name st1) as [[[mod_data|]|e] st2] eqn:Hf;
      cbn [snd] in Hg1; apply Hg in Hg1.
    + destruct (process_mod_commit_cases w mod_data st2)
        as [[e Hc]|[st3 [Hc [H1 [H2 [H3 H4]]]]]]; rewrite Hc.
      * exists false. eexists. split; [reflexivity|]. cbn.
        unfold grows, store_file_kept in Hg1. intuition lia.
      * exists true, st3. split; [reflexivity|].
        unfold grows in Hg1. intuition (try discriminate; try congruence; try lia).
    + exists false, st2. split; [reflexivity|].
      (* the search gave nothing: the failed counter was bumped on the way *)
      revert Hf. unfold process_mod_fetch.
      destruct (get_mod_items_run w mod_name st1) as [failed Hgm].
      unfold bind at 1. rewrite Hgm.
      destruct (truthy (search_reply (api_get w (search_params mod_name)))); cbn [negb].
      * run.
        destruct (py_iter (search_reply (api_get w (search_params mod_name))));
          [|discriminate].
        destruct (submit_items w _ _) as [[details|e] stx]; [|discriminate].
        destruct (collect_items w details [] stx) as [[its|e] sty]; discriminate.
      * unfold bump_failed. run_all. intros H. inversion H; subst st2. cbn.
        pose proof (grows_after_request (search_params mod_name) failed st1) as Hr.
        unfold grows, store_file_kept in *. cbn in *.
        destruct failed; cbn in *; intuition (try congruence; try lia).
    + exists false. eexists. split; [reflexivity|]. cbn.
      unfold grows, store_file_kept in Hg1. intuition lia.
  - exists false. eexists. split; [reflexivity|]. cbn.
    unfold grows, store_file_kept in Hg0. intuition lia.
Qed.

(** X12. Loading accepts any JSON document as the store.  When what is
    in memory is not a record with a [mods] entry, [process_mod] fails
    for every mod before any request is made: it returns failure, counts
    one failure, logs the error, and leaves the store and all files as
    they were. *)
Theorem process_mod_on_ill_formed_store :
  forall (w : World) (mod_name : string) (st : fetcher),
    (forall kv, data st = VDict kv -> dict_get kv "mods" = None) ->
    process_mod w mod_name st =
      (Ret false,
       set_failed_count (failed_count st + 1) (emit (Log ERROR) (emit (Log INFO) st))).
Proof.
  intros w mod_name st Hbad.
  unfold process_mod, process_mod_failed, process_mod_check. run_all. cbn [data emit].
  destruct (data st) as [|b|z|s|l|kv]; try reflexivity.
  cbn [py_getitem]. now rewrite (Hbad kv eq_refl).
Qed.

Lemma process_mod_on_ill_formed_store_witness :
  exists st',
    process_mod Demo.world "AppleSkin"
      (snd (init Demo.world (fresh false Scenario.list_store))) = (Ret false, st') /\
    trace st' = [Log ERROR; Log INFO] /\
    files st' = Scenario.list_store.
Proof.
  eexists. split.
  - apply process_mod_on_ill_formed_store. intros kv H. discriminate.
  - split; reflexivity.
Defined.

Lemma process_mod_failure_keeps_store_witness :
  exists st',
    process_mod Demo.world "Broken" Scenario.one_mod = (Ret false, st') /\
    data st' = data Scenario.one_mod /\
    failed_count Scenario.one_mod < failed_count st'.
Proof.
  destruct (process_mod_failure_keeps_store Demo.world "Broken" Scenario.one_mod)
    as [ok [st' [Hrun [_ [_ [_ [_ Hfalse]]]]]]].
  assert (Hok : ok = false).
  { assert (H : fst (process_mod Demo.world "Broken" Scenario.one_mod) = Ret false)
      by reflexivity.
    rewrite Hrun in H. cbn [fst] in H. now inversion H. }
  subst ok. destruct (Hfalse eq_refl) as [Hd [_ Hc]].
  exists st'. auto.
Defined.

(** *** A mod that is stored *)

Lemma process_mod_new_success (w : World) (mod_name : string) (st st' : fetcher) :
  well_formed_store (data st) ->
  ~ has_mod (data st) mod_name ->
  process_mod w mod_name st = (Ret true, st') ->
  exists kv ms items st2,
    data st = VDict kv /\ dict_get kv "mods" = Some (VList ms) /\
    process_mod_fetch w mod_name (emit (Log INFO) st) =
      (Ret (Some (mod_data_record mod_name items)), st2) /\
    data st' =
      VDict (dict_set kv "mods" (VList (ms ++ [mod_data_record mod_name items]))) /\
    files st' = (if writable w json_file
                 then fs_set (files st2) json_file (JsonText (data st'))
                 else match failed_write w json_file with
                      | Some partial => fs_set (files st2) json_file (Blob partial)
                      | None => files st2
                      end) /\
    failed_count st' = failed_count st2 /\
    processed_count st' = processed_count st2.
Proof.
  intros Hwf Hno. destruct (Hwf) as [ms [[kv [Hd Hg]] Hall]].
  unfold process_mod, process_mod_failed. run_all.
  rewrite (process_mod_check_new mod_name st Hwf Hno).
  set (st1 := emit (Log INFO) st).
  pose proof (process_mod_fetch_frame w mod_name st1) as Hfr.
  destruct (process_mod_fetch w mod_name st1) as [[[mod_data|]|e] st2] eqn:Hf;
    cbn [fst snd] in Hfr; try discriminate.
  pose proof Hf as Hf'.
  apply process_mod_fetch_sound in Hf' as [items [-> _]].
  destruct (process_mod_commit_run w (mod_data_record mod_name items) st2 kv ms)
    as [st3 [Hc [Hd3 [_ Hf3]]]]; [|exact Hg|].
  { destruct Hfr as [Hfr _]. rewrite Hfr. exact Hd. }
  destruct (process_mod_commit_cases w (mod_data_record mod_name items) st2)
    as [[e Hc']|[st3' [Hc' [_ [_ [Hfc Hpc]]]]]]; rewrite Hc in Hc'; [discriminate|].
  inversion Hc'; subst st3'. rewrite Hc.
  intros H; inversion H; subst st3.
  exists kv, ms, items, st2. repeat split; auto.
Qed.

Lemma submit_items_length (w : World) (l : list value) (st : fetcher)
  (details : list value) (st' : fetcher) :
  submit_items w l st = (Ret details, st') -> List.length details = List.length l.
Proof.
  revert st details st'. induction l as [|item l IH]; intros st details st';
    cbn [submit_items]; run.
  - intros H; inversion H. reflexivity.
  - destruct (py_getitem item (VStr "title")) as [title|e]; [|discriminate].
    destruct (get_item_details_run w title st) as [failed Hd]. rewrite Hd.
    destruct (submit_items w l (after_request (details_params title) failed st))
      as [[ds|e] st2] eqn:Hs; [|discriminate].
    intros H; inversion H; subst. cbn [List.length]. f_equal. eapply IH; eauto.
Qed.

Lemma process_item_counts (w : World) (item_details : value) (items : list value)
  (st : fetcher) (items' : list value) (st' : fetcher) :
  process_item w item_details items st = (Ret items', st') ->
  processed_count st' - processed_count st =
    Z.of_nat (List.length items') - Z.of_nat (List.length items) /\
  0 <= processed_count st' - processed_count st /\
  0 <= failed_count st' - failed_count st /\
  (processed_count st' - processed_count st) + (failed_count st' - failed_count st) <= 1.
Proof.
  unfold process_item. destruct (truthy item_details).
  - run. destruct (py_getitem item_details (VStr "images")) as [imgs|e]; [|discriminate].
    destruct (py_iter imgs) as [titles|e]; [|discriminate].
    pose proof (submit_images_frame w titles item_details st) as Hso.
    destruct (submit_images w titles item_details st) as [[results|e] st1];
      cbn [fst snd] in *; [|discriminate].
    destruct Hso as [_ [_ [Hp [_ Hf]]]].
    destruct (truthy (VList (filter truthy results))).
    + unfold bump_processed. run. cbn [fst snd].
      destruct (py_getitem item_details (VStr "title")); [|discriminate].
      intros H; inversion H; subst. cbn. rewrite length_app. cbn [List.length].
      rewrite Hp, Hf. lia.
    + intros H; inversion H; subst. rewrite Hp, Hf. lia.
  - unfold bump_failed. run. cbn [fst snd].
    intros H; inversion H; subst. cbn. lia.
Qed.

Lemma collect_items_counts (w : World) (details : list value) :
  forall (items : list value) (st : fetcher) (items' : list value) (st' : fetcher),
    collect_items w details items st = (Ret items', st') ->
    processed_count st' - processed_count st =
      Z.of_nat (List.length items') - Z.of_nat (List.length items) /\
    0 <= processed_count st' - processed_count st /\
    0 <= failed_count st' - failed_count st /\
    (processed_count st' - processed_count st) + (failed_count st' - failed_count st)
      <= Z.of_nat (List.length details).
Proof.
  induction details as [|d details IH]; intros items st items' st';
    cbn [collect_items]; run.
  - intros H; inversion H; subst. cbn. lia.
  - destruct (process_item w d items st) as [[items1|e] st1] eqn:Hp; [|discriminate].
    intros Hc. apply process_item_counts in Hp. apply IH in Hc.
    cbn [List.length]. lia.
Qed.

(** X6. The two counters count items, not mods.  When [process_mod]
    stores a mod, the processed counter has gone up by exactly the number
    of item records of the mod stored; the failed counter has not gone
    down; and both rises together are at most the number of search hits,
    the hits whose images all failed counting in neither. *)
Theorem process_mod_counts_items :
  forall (w : World) (mod_name : string) (st st' : fetcher),
    well_formed_store (data st) ->
    ~ has_mod (data st) mod_name ->
    process_mod w mod_name st = (Ret true, st') ->
    exists ms items hits,
      store_mods (data st') (ms ++ [mod_data_record mod_name items]) /\
      py_iter (search_reply (api_get w (search_params mod_name))) = Ret hits /\
      processed_count st' = processed_count st + Z.of_nat (List.length items) /\
      failed_count st <= failed_count st' /\
      Z.of_nat (List.length items) + (failed_count st' - failed_count st)
        <= Z.of_nat (List.length hits).
Proof.
  intros w mod_name st st' Hwf Hno Hrun.
  destruct (process_mod_new_success w mod_name st st' Hwf Hno Hrun)
    as [kv [ms [items [st2 [Hd [Hg [Hf [Hd' [_ [Hfc Hpc]]]]]]]]]].
  revert Hf. unfold process_mod_fetch.
  destruct (get_mod_items_run w mod_name (emit (Log INFO) st)) as [failed Hgm].
  unfold bind at 1. rewrite Hgm.
  destruct (truthy (search_reply (api_get w (search_params mod_name)))); cbn [negb].
  2:{ unfold bump_failed. run. discriminate. }
  run.
  destruct (py_iter (search_reply (api_get w (search_params mod_name)))) as [hits|e];
    [|discriminate].
  match goal with |- context [submit_items w hits ?s] =>
    pose proof (submit_items_frame w hits s) as Hso;
    destruct (submit_items w hits s) as [[details|e] st1] eqn:Hs; [|discriminate] end.
  cbn [snd] in Hso.
  apply submit_items_length in Hs.
  destruct (collect_items w details [] st1) as [[its|e] st3] eqn:Hc; [|discriminate].
  intros H; inversion H; subst its st3.
  apply collect_items_counts in Hc. cbn [List.length] in Hc.
  destruct Hso as [_ [_ [Hp1 [_ Hf1]]]].
  unfold after_request in Hp1, Hf1.
  exists ms, items, hits. split.
  - eexists. split; [exact Hd'|apply dict_get_set].
  - split; [reflexivity|].
    destruct failed; cbn in Hp1, Hf1; lia.
Qed.

Lemma process_mod_counts_items_witness :
  processed_count (snd (process_mod Demo.world "AppleSkin" (Demo.start false []))) =
  processed_count (Demo.start false []) + 1.
Proof.
  destruct (process_mod_counts_items Demo.world "AppleSkin" (Demo.start false [])
              (snd (process_mod Demo.world "AppleSkin" (Demo.start false []))))
    as [ms [items [hits [Hms [_ [Hp _]]]]]].
  - exists []. split; [eexists; split; reflexivity|constructor].
  - intros [ms [m [[kv [Hkv Hms]] [Hin _]]]].
    vm_compute in Hkv. inversion Hkv; subst kv.
    vm_compute in Hms. inversion Hms; subst ms. destruct Hin.
  - vm_compute. reflexivity.
  - rewrite Hp. f_equal.
    destruct Hms as [kv [Hkv Hg]]. vm_compute in Hkv. inversion Hkv; subst kv.
    vm_compute in Hg. inversion Hg as [Hl].
    destruct ms as [|m ms]; cbn in Hl.
    + inversion Hl. reflexivity.
    + inversion Hl as [[Hm Hrest]]. destruct ms; discriminate.
Defined.



(** *** [main] *)

Lemma init_cases (w : World) (st : fetcher) :
  (download_images st = true /\ fs_get (files st) images_dir = None /\
   writable w images_dir = false /\ init w st = (Raise OSError, st)) \/
  (~ (download_images st = true /\ fs_get (files st) images_dir = None /\
      writable w images_dir = false) /\
   exists st' new,
     init w st = (Ret tt, st') /\
     trace st' = (new ++ trace st)%list /\
     Forall (fun e => e = MakeDirs images_dir \/ e = Log ERROR) new).
Proof.
  unfold init, load_existing_data. run_all.
  destruct (download_images st) eqn:Hd; cbn [andb].
  - destruct (fs_get (files st) images_dir) as [f|] eqn:Hf.
    + right. split; [intros [_ [H _]]; discriminate|].
      destruct (fs_get (files st) json_file) as [[v| | |]|].
      2-4: eexists; exists [Log ERROR]; split; [reflexivity|];
           split; [reflexivity|repeat (apply Forall_cons; [auto|]); apply Forall_nil].
      all: eexists; exists []; split; [reflexivity|];
           split; [reflexivity|constructor].
    + destruct (writable w images_dir) eqn:Hw.
      * right. split; [intros [_ [_ H]]; discriminate|].
        cbn [files emit set_files].
        destruct (fs_get (fs_set (files st) images_dir Directory) json_file)
          as [[v| | |]|].
        2-4: eexists; exists [Log ERROR; MakeDirs images_dir]; split; [reflexivity|];
             split; [reflexivity|repeat (apply Forall_cons; [auto|]); apply Forall_nil].
        all: eexists; exists [MakeDirs images_dir]; split; [reflexivity|];
             split; [reflexivity|repeat (apply Forall_cons; [auto|]); apply Forall_nil].
      * left. auto.
  - right. split; [intros [H _]; discriminate|].
    destruct (fs_get (files st) json_file) as [[v| | |]|].
    2-4: eexists; exists [Log ERROR]; split; [reflexivity|];
         split; [reflexivity|repeat (apply Forall_cons; [auto|]); apply Forall_nil].
    all: eexists; exists []; split; [reflexivity|];
         split; [reflexivity|constructor].
Qed.

Lemma names_of_strings (names : list string) : names_of (map VStr names) = Some names.
Proof.
  induction names as [|n names IH]; cbn [map names_of]; [reflexivity|].
  now rewrite IH.
Qed.

Lemma main_on_names (w : World) (a : args) (schedule : list nat) (st : fetcher) :
  arg_from_json a = false ->
  main w a schedule st =
  Some (run_mods w a schedule
          (match arg_mods a with
           | Some (mod_name :: rest) => mod_name :: rest
           | _ => ["AppleSkin"]
           end) st).
Proof.
  intros Hj. unfold main, select_mods. rewrite Hj.
  destruct (arg_mods a) as [[|n rest]|]; unfold ret;
    try (change [VStr "AppleSkin"] with (map VStr ["AppleSkin"]));
    now rewrite names_of_strings.
Qed.

(** [get_mods_from_json] returns, and its only effect is the error it
    logs when it returns nothing. *)
Lemma get_mods_from_json_state (st : fetcher) :
  exists names st',
    get_mods_from_json st = (Ret names, st') /\
    (st' = st \/ (names = [] /\ st' = emit (Log ERROR) st)).
Proof.
  unfold get_mods_from_json. run_all.
  destruct (fs_get (files st) mods_file) as [[data| | |]|];
    try (exists [], (emit (Log ERROR) st); split; [reflexivity|now right]).
  destruct (py_iter data) as [l|e];
    [|exists [], (emit (Log ERROR) st); split; [reflexivity|now right]].
  destruct (map_result (fun entry => py_getitem entry (VStr "name")) l) as [names|e].
  - exists names, st. split; [reflexivity|now left].
  - exists [], (emit (Log ERROR) st). split; [reflexivity|now right].
Qed.

(** X10. With [--from-json], when [get_mods_from_json] gives no name
    [main] returns before it builds the fetcher, whatever [--mods] and
    [--download] say: it only logs errors; no directory is made, the
    store file is not read, no request is sent. *)
Theorem main_stops_on_empty_worklist :
  forall (w : World) (a : args) (schedule : list nat) (st : fetcher),
    arg_from_json a = true ->
    fst (get_mods_from_json st) = Ret [] ->
    exists st',
      main w a schedule st = Some (Ret tt, st') /\
      (st' = emit (Log ERROR) st \/ st' = emit (Log ERROR) (emit (Log ERROR) st)).
Proof.
  intros w a schedule st Hj Hempty.
  destruct (get_mods_from_json_state st) as [names [st1 [Hrun Hst]]].
  rewrite Hrun in Hempty. cbn [fst] in Hempty. inversion Hempty; subst names.
  unfold main, select_mods. rewrite Hj. run_all. rewrite Hrun. cbn [truthy negb].
  eexists. split; [reflexivity|].
  destruct Hst as [->|[_ ->]]; auto.
Qed.

Lemma main_stops_on_empty_worklist_witness :
  main Demo.world Scenario.from_json_args [] (fresh true []) =
    Some (Ret tt, emit (Log ERROR) (emit (Log ERROR) (fresh true []))).
Proof.
  destruct (main_stops_on_empty_worklist Demo.world Scenario.from_json_args []
              (fresh true []) eq_refl eq_refl) as [st' [Hrun [Hst|Hst]]].
  - rewrite Hrun, Hst.
    assert (H : main Demo.world Scenario.from_json_args [] (fresh true []) =
                Some (Ret tt, emit (Log ERROR) (emit (Log ERROR) (fresh true []))))
      by reflexivity.
    rewrite Hrun, Hst in H. exact H.
  - rewrite Hrun, Hst. reflexivity.
Defined.

(** X11. Without [--from-json], [main] raises in two cases only, both
    before any mod is processed: [--download] is given and the images
    directory is missing and cannot be made, or [--workers] is not
    positive.  In every other case it returns normally, whatever the
    order in which the pool runs the tasks. *)
Theorem main_raises_only_at_startup :
  forall (w : World) (a : args) (schedule : list nat) (st : fetcher),
    arg_from_json a = false ->
    exists (r : result unit) (st' : fetcher),
      main w a schedule st = Some (r, st') /\
      ((exists e, r = Raise e) <->
       (download_images st = true /\ fs_get (files st) images_dir = None /\
        writable w images_dir = false) \/
       arg_workers a <= 0) /\
      ((exists e, r = Raise e) ->
       data st' = data st \/ data st' = data (snd (init w st))) /\
      ((exists e, r = Raise e) ->
       exists new,
         trace st' = (new ++ trace st)%list /\
         Forall (fun ev => ev = MakeDirs images_dir \/ ev = Log ERROR) new).
Proof.
  intros w a schedule st Hj. rewrite (main_on_names w a schedule st Hj).
  set (names := match arg_mods a with
                | Some (mod_name :: rest) => mod_name :: rest
                | _ => ["AppleSkin"]
                end).
  unfold run_mods. run_all.
  destruct (init_cases w st) as [[Hd [Hf [Hw Hinit]]]|[Hno [st1 [new [Hinit [Htr Hnew]]]]]];
    rewrite Hinit.
  - exists (Raise OSError), st. split; [reflexivity|]. split; [|split].
    + split; [auto|eauto].
    + auto.
    + intros _. exists []. split; [reflexivity|constructor].
  - destruct (Z.leb_spec (arg_workers a) 0) as [Hle|Hgt].
    + eexists. eexists. split; [reflexivity|]. split; [|split].
      * split; [auto|eauto].
      * intros _. right. reflexivity.
      * intros _. exists new. cbn [trace set_total_count]. auto.
    + eexists. eexists. split; [reflexivity|]. split; [|split].
      * split; [intros [e H]; discriminate|intros [H|H]; [contradiction|lia]].
      * intros [e H]. discriminate.
      * intros [e H]. discriminate.
Qed.

Lemma main_raises_only_at_startup_witness :
  (exists st', main Demo.read_only_world (Scenario.mods_args ["AppleSkin"] true 10) []
                 (fresh true []) = Some (Raise OSError, st')) /\
  (exists st', main Demo.world (Scenario.mods_args ["AppleSkin"] false 10) [0; 0]%nat
                 (fresh false []) = Some (Ret tt, st')).
Proof.
  split.
  - destruct (main_raises_only_at_startup Demo.read_only_world
                (Scenario.mods_args ["AppleSkin"] true 10) [] (fresh true []) eq_refl)
      as [r [st' [Hrun [Hiff _]]]].
    destruct (proj2 Hiff) as [e He].
    + left. repeat split; reflexivity.
    + subst r. exists st'. rewrite Hrun.
      assert (H : exists s, main Demo.read_only_world
                    (Scenario.mods_args ["AppleSkin"] true 10) [] (fresh true []) =
                  Some (Raise OSError, s)) by (eexists; reflexivity).
      destruct H as [s H]. rewrite Hrun in H. inversion H. reflexivity.
  - destruct (main_raises_only_at_startup Demo.world
                (Scenario.mods_args ["AppleSkin"] false 10) [0; 0]%nat (fresh false [])
                eq_refl)
      as [r [st' [Hrun [Hiff _]]]].
    exists st'. rewrite Hrun. destruct r as [[]|e]; [reflexivity|].
    destruct (proj1 Hiff) as [[H _]|H]; [eauto|discriminate|].
    cbn in H. lia.
Defined.

Lemma run_schedule_app (w : World) (s1 s2 : list nat) (ts : list task) (st : fetcher) :
  run_schedule w (s1 ++ s2) ts st =
  run_schedule w s2 (fst (run_schedule w s1 ts st)) (snd (run_schedule w s1 ts st)).
Proof.
  revert ts st. induction s1 as [|i s1 IH]; intros ts st; cbn [app run_schedule].
  - reflexivity.
  - destruct (run_step w i ts st) as [ts' st']. apply IH.
Qed.

Lemma update_nth_middle {A : Type} (pre post : list A) (a b : A) :
  update_nth (List.length pre) b (pre ++ a :: post) = (pre ++ b :: post)%list.
Proof.
  induction pre as [|c pre IH]; cbn [List.length app update_nth]; [reflexivity|].
  now rewrite IH.
Qed.

Lemma nth_error_middle {A : Type} (pre post : list A) (a : A) :
  nth_error (pre ++ a :: post) (List.length pre) = Some a.
Proof.
  induction pre as [|c pre IH]; cbn [List.length app nth_error]; [reflexivity|exact IH].
Qed.

Lemma run_step_middle (w : World) (pre post : list task) (t t' : task)
  (st st' : fetcher) :
  step_task w t st = (Ret t', st') ->
  run_step w (List.length pre) (pre ++ t :: post) st = ((pre ++ t' :: post)%list, st').
Proof.
  intros H. unfold run_step. rewrite nth_error_middle, H. now rewrite update_nth_middle.
Qed.

Lemma task_three_steps (w : World) (mod_name : string) (st : fetcher) :
  exists ok st' t1 s1 t2 s2,
    process_mod w mod_name st = (Ret ok, st') /\
    step_task w (Pending mod_name) st = (Ret t1, s1) /\
    step_task w t1 s1 = (Ret t2, s2) /\
    step_task w t2 s2 = (Ret (Done ok), st').
Proof.
  unfold process_mod. cbn [step_task]. unfold process_mod_failed. run_all.
  destruct (process_mod_check mod_name st) as [[[|]|e] st1].
  - do 6 eexists. repeat split; reflexivity.
  - destruct (process_mod_fetch w mod_name st1) as [[[mod_data|]|e] st2] eqn:Hf.
    + destruct (process_mod_commit w mod_data st2) as [[[]|e] st3] eqn:Hc.
      * exists true, st3, (Checked mod_name), st1, (Fetched mod_data), st2.
        split; [reflexivity|]. split; [reflexivity|]. cbn [step_task].
        unfold process_mod_failed. run_all. rewrite Hf, Hc. auto.
      * eexists false, _, (Checked mod_name), st1, (Fetched mod_data), st2.
        split; [reflexivity|]. split; [reflexivity|]. cbn [step_task].
        unfold process_mod_failed. run_all. rewrite Hf, Hc. auto.
    + exists false, st2, (Checked mod_name), st1, (Done false), st2.
      split; [reflexivity|]. split; [reflexivity|]. cbn [step_task].
      unfold process_mod_failed. run_all. rewrite Hf. auto.
    + eexists false, _, (Checked mod_name), st1, (Done false), _.
      split; [reflexivity|]. split; [reflexivity|]. cbn [step_task].
      unfold process_mod_failed. run_all. rewrite Hf. auto.
  - do 6 eexists. repeat split; reflexivity.
Qed.

Lemma run_task_alone (w : World) (pre post : list task) (mod_name : string)
  (st : fetcher) :
  exists ok st',
    process_mod w mod_name st = (Ret ok, st') /\
    run_schedule w [List.length pre; List.length pre; List.length pre]
      (pre ++ Pending mod_name :: post) st =
    ((pre ++ Done ok :: post)%list, st').
Proof.
  destruct (task_three_steps w mod_name st)
    as [ok [st' [t1 [s1 [t2 [s2 [Hp [H1 [H2 H3]]]]]]]]].
  exists ok, st'. split; [exact Hp|]. cbn [run_schedule].
  rewrite (run_step_middle w pre post _ _ _ _ H1).
  rewrite (run_step_middle w pre post _ _ _ _ H2).
  rewrite (run_step_middle w pre post _ _ _ _ H3). reflexivity.
Qed.

Lemma run_sequential_total (w : World) (mods : list string) (st : fetcher) :
  exists oks st', run_sequential w mods st = (Ret oks, st').
Proof.
  revert st. induction mods as [|m mods IH]; intros st; cbn [run_sequential]; run_all.
  - eauto.
  - destruct (process_mod_total w m st) as [ok [st1 Hp]]. rewrite Hp.
    destruct (IH st1) as [oks [st2 Hr]]. rewrite Hr. eauto.
Qed.

(** The tasks run one after the other are [run_sequential]. *)
Lemma drain_is_sequential (w : World) (names : list string) :
  forall (pre : list task) (st : fetcher),
  exists oks st',
    run_sequential w names st = (Ret oks, st') /\
    run_schedule w
      (flat_map (fun i => [i; i; i]) (seq (List.length pre) (List.length names)))
      (pre ++ map Pending names) st =
    ((pre ++ map Done oks)%list, st').
Proof.
  induction names as [|n names IH]; intros pre st;
    cbn [run_sequential List.length seq flat_map map].
  - exists [], st. split; [reflexivity|]. reflexivity.
  - destruct (run_task_alone w pre (map Pending names) n st) as [ok [st1 [Hp Hsched]]].
    destruct (IH (pre ++ [Done ok])%list st1) as [oks [st2 [Hseq Hrest]]].
    exists (ok :: oks), st2. split.
    + run_all. now rewrite Hp, Hseq.
    + rewrite run_schedule_app.
      change ([List.length pre; List.length pre; List.length pre] ++ [])%list
        with [List.length pre; List.length pre; List.length pre].
      cbn [app] in *. rewrite Hsched. cbn [fst snd].
      rewrite length_app in Hrest. cbn [List.length] in Hrest.
      rewrite Nat.add_1_r in Hrest. rewrite <- app_assoc in Hrest. cbn [app] in Hrest.
      rewrite Hrest. now rewrite <- app_assoc.
Qed.

(** X8. When the pool runs the tasks one after the other (one worker),
    [main] is [process_mod] on each name of the worklist in turn, and
    the names of the store stay distinct: a name given twice is stored
    once. *)
Theorem main_one_worker_distinct_names :
  forall (w : World) (a : args) (st st1 : fetcher),
    arg_from_json a = false ->
    0 < arg_workers a ->
    init w st = (Ret tt, st1) ->
    well_formed_store (data st1) ->
    NoDup (mod_names (data st1)) ->
    exists names oks st2 st',
      main w a [] st = Some (Ret tt, st') /\
      names = match arg_mods a with
              | Some (mod_name :: rest) => mod_name :: rest
              | _ => ["AppleSkin"]
              end /\
      run_sequential w names (set_total_count (Z.of_nat (List.length names)) st1) =
        (Ret oks, st2) /\
      data st' = data st2 /\ files st' = files st2 /\
      well_formed_store (data st') /\
      NoDup (mod_names (data st')).
Proof.
  intros w a st st1 Hj Hw Hinit Hwf Hnd.
  rewrite (main_on_names w a [] st Hj).
  set (names := match arg_mods a with
                | Some (mod_name :: rest) => mod_name :: rest
                | _ => ["AppleSkin"]
                end).
  unfold run_mods. run_all. rewrite Hinit.
  destruct (Z.leb_spec (arg_workers a) 0) as [Hle|_]; [lia|].
  set (s1 := set_total_count (Z.of_nat (List.length names)) st1).
  destruct (drain_is_sequential w names [] s1) as [oks [st2 [Hseq Hsched]]].
  cbn [app List.length] in Hsched. unfold drain. cbn [app]. rewrite Hsched.
  exists names, oks, st2. eexists. split; [reflexivity|]. split; [reflexivity|].
  split; [exact Hseq|]. split; [reflexivity|]. split; [reflexivity|].
  cbn [data emit].
  pose proof (run_sequential_keeps_names_distinct w names s1 Hwf Hnd) as H.
  rewrite Hseq in H. exact H.
Qed.

Lemma main_one_worker_distinct_names_witness :
  exists st',
    main Demo.world (Scenario.mods_args ["AppleSkin"; "AppleSkin"] false 1) []
      (fresh false []) = Some (Ret tt, st') /\
    mod_names (data st') = [VStr "AppleSkin"].
Proof.
  destruct (main_one_worker_distinct_names Demo.world
              (Scenario.mods_args ["AppleSkin"; "AppleSkin"] false 1)
              (fresh false []) (snd (init Demo.world (fresh false []))))
    as [names [oks [st2 [st' [Hrun [_ [_ [Hd _]]]]]]]].
  - reflexivity.
  - reflexivity.
  - reflexivity.
  - exists []. split; [eexists; split; reflexivity|constructor].
  - constructor.
  - exists st'. split; [exact Hrun|].
    assert (H : forall s, main Demo.world
                  (Scenario.mods_args ["AppleSkin"; "AppleSkin"] false 1) []
                  (fresh false []) = Some (Ret tt, s) ->
                mod_names (data s) = [VStr "AppleSkin"]).
    { intros s Hs. vm_compute in Hs. inversion Hs. reflexivity. }
    now apply H.
Defined.

(** *** Without [--download] *)

Lemma process_image_no_download (w : World) (image_title item_details : value)
  (st : fetcher) :
  download_images st = false ->
  files (snd (process_image w image_title item_details st)) = files st.
Proof.
  intros Hd. unfold process_image. run_all.
  destruct (get_image_url_run w image_title st) as [failed Hurl]. rewrite Hurl.
  assert (Hf : files (after_request (imageinfo_params image_title) failed st) = files st)
    by (unfold after_request; destruct failed; reflexivity).
  assert (Hd1 : download_images (after_request (imageinfo_params image_title) failed st)
                = false)
    by (unfold after_request; destruct failed; exact Hd).
  destruct (truthy (resolved_url w image_title)); [|exact Hf].
  destruct (py_getitem item_details (VStr "title")) as [name|e]; [|exact Hf].
  rewrite Hd1. exact Hf.
Qed.

Lemma submit_images_no_download (w : World) (titles : list value) (item_details : value)
  (st : fetcher) :
  download_images st = false ->
  files (snd (submit_images w titles item_details st)) = files st.
Proof.
  revert st. induction titles as [|t titles IH]; intros st Hd; cbn [submit_images]; run.
  - reflexivity.
  - destruct (py_lower t) as [lowered|e]; [|reflexivity].
    destruct (keeps_image lowered); [|now apply IH].
    pose proof (process_image_no_download w t item_details st Hd) as Hf.
    destruct (process_image_frame w t item_details st) as [Hso [r Hr]].
    destruct (process_image w t item_details st) as [r1 st1]. cbn [fst snd] in *.
    subst r1.
    assert (Hd1 : download_images st1 = false) by (destruct Hso as [_ [-> _]]; exact Hd).
    specialize (IH st1 Hd1).
    destruct (submit_images w titles item_details st1) as [[rs|e] st2];
      cbn [fst snd] in *; congruence.
Qed.

Lemma process_item_no_download (w : World) (item_details : value) (items : list value)
  (st : fetcher) :
  download_images st = false ->
  files (snd (process_item w item_details items st)) = files st.
Proof.
  intros Hd. unfold process_item. destruct (truthy item_details).
  - run. destruct (py_getitem item_details (VStr "images")) as [imgs|e]; [|reflexivity].
    destruct (py_iter imgs) as [titles|e]; [|reflexivity].
    pose proof (submit_images_no_download w titles item_details st Hd) as Hf.
    destruct (submit_images w titles item_details st) as [[results|e] st1];
      cbn [fst snd] in *; [|exact Hf].
    destruct (truthy (VList (filter truthy results))); [|exact Hf].
    unfold bump_processed. run. cbn [fst snd].
    destruct (py_getitem item_details (VStr "title")); cbn [fst snd]; exact Hf.
  - unfold bump_failed. run. reflexivity.
Qed.

Lemma collect_items_no_download (w : World) (details : list value) (items : list value)
  (st : fetcher) :
  download_images st = false ->
  files (snd (collect_items w details items st)) = files st.
Proof.
  revert items st. induction details as [|d details IH]; intros items st Hd;
    cbn [collect_items]; run.
  - reflexivity.
  - pose proof (process_item_no_download w d items st Hd) as Hf.
    pose proof (process_item_frame w d items st) as Hso.
    destruct (process_item w d items st) as [[items1|e] st1]; cbn [fst snd] in *;
      [|exact Hf].
    rewrite IH; [exact Hf|]. destruct Hso as [_ ->]. exact Hd.
Qed.

Lemma submit_items_files (w : World) (l : list value) (st : fetcher) :
  files (snd (submit_items w l st)) = files st.
Proof.
  revert st. induction l as [|item l IH]; intros st; cbn [submit_items]; run.
  - reflexivity.
  - destruct (py_getitem item (VStr "title")) as [title|e]; [|reflexivity].
    destruct (get_item_details_run w title st) as [failed Hd]. rewrite Hd.
    specialize (IH (after_request (details_params title) failed st)).
    destruct (submit_items w l (after_request (details_params title) failed st))
      as [[ds|e] st2]; cbn [fst snd] in *; rewrite IH;
      unfold after_request; destruct failed; reflexivity.
Qed.

Lemma process_mod_fetch_no_download (w : World) (mod_name : string) (st : fetcher) :
  download_images st = false ->
  files (snd (process_mod_fetch w mod_name st)) = files st.
Proof.
  intros Hd. unfold process_mod_fetch.
  destruct (get_mod_items_run w mod_name st) as [failed Hg].
  unfold bind at 1. rewrite Hg.
  assert (Hf0 : files (after_request (search_params mod_name) failed st) = files st)
    by (unfold after_request; destruct failed; reflexivity).
  assert (Hd0 : download_images (after_request (search_params mod_name) failed st) = false)
    by (unfold after_request; destruct failed; exact Hd).
  set (st0 := after_request (search_params mod_name) failed st) in *.
  destruct (truthy (search_reply (api_get w (search_params mod_name)))); cbn [negb].
  - run.
    destruct (py_iter (search_reply (api_get w (search_params mod_name)))) as [l|e];
      [|exact Hf0].
    pose proof (submit_items_files w l st0) as Hf1.
    pose proof (submit_items_frame w l st0) as Hso1.
    destruct (submit_items w l st0) as [[details|e] st1]; cbn [fst snd] in *;
      [|congruence].
    assert (Hd1 : download_images st1 = false) by (destruct Hso1 as [_ [-> _]]; exact Hd0).
    pose proof (collect_items_no_download w details [] st1 Hd1) as Hf2.
    destruct (collect_items w details [] st1) as [[its|e] st2]; cbn [fst snd] in *;
      congruence.
  - unfold bump_failed. run. cbn [fst snd]. exact Hf0.
Qed.

Lemma process_mod_commit_files (w : World) (mod_data : value) (st : fetcher) :
  files (snd (process_mod_commit w mod_data st)) = files st \/
  files (snd (process_mod_commit w mod_data st)) =
    fs_set (files st) json_file
      (JsonText (data (snd (process_mod_commit w mod_data st)))) \/
  exists partial,
    writable w json_file = false /\ failed_write w json_file = Some partial /\
    files (snd (process_mod_commit w mod_data st)) =
      fs_set (files st) json_file (Blob partial).
Proof.
  unfold process_mod_commit, append_mod. run_all.
  destruct (py_getitem (data st) (VStr "mods")) as [mods|e]; [|now left].
  destruct (data st) as [|b|z|s|l|kv]; try (now left).
  destruct mods as [|b|z|s|ms|kv']; try (now left).
  match goal with |- context [save_data w ?s] =>
    destruct (save_data_run w s) as [st1 [Hs [Hd [_ [Hf _]]]]] end.
  rewrite Hs. cbn [snd files emit data]. rewrite Hf, Hd.
  destruct (writable w json_file); [right; left; reflexivity|].
  destruct (failed_write w json_file) as [partial|]; [|left; reflexivity].
  right; right. exists partial. auto.
Qed.

(** X14. Without [--download] the only file [process_mod] ever writes,
    the log file aside, is the store file.  Every other file is what it
    was, so no image file appears.  The store file is what it was, or it
    holds the store now in memory, or, when it was opened and the write
    failed, it holds what had been written until then. *)
Theorem process_mod_without_download_writes_store_only :
  forall (w : World) (mod_name : string) (st : fetcher),
    download_images st = false ->
    (forall path,
       path <> json_file -> path <> log_file ->
       fs_get (files (snd (process_mod w mod_name st))) path = fs_get (files st) path) /\
    (fs_get (files (snd (process_mod w mod_name st))) json_file =
       fs_get (files st) json_file \/
     fs_get (files (snd (process_mod w mod_name st))) json_file =
       Some (JsonText (data (snd (process_mod w mod_name st)))) \/
     exists partial,
       writable w json_file = false /\ failed_write w json_file = Some partial /\
       fs_get (files (snd (process_mod w mod_name st))) json_file =
         Some (Blob partial)).
Proof.
  intros w mod_name st Hd.
  assert (H : files (snd (process_mod w mod_name st)) = files st \/
              files (snd (process_mod w mod_name st)) =
                fs_set (files st) json_file
                  (JsonText (data (snd (process_mod w mod_name st)))) \/
              exists partial,
                writable w json_file = false /\ failed_write w json_file = Some partial /\
                files (snd (process_mod w mod_name st)) =
                  fs_set (files st) json_file (Blob partial)).
  { unfold process_mod, process_mod_failed. run_all.
    destruct (process_mod_check_grows mod_name st) as [Hg0 Hf0].
    destruct (process_mod_check mod_name st) as [[[|]|e] st1]; cbn [snd] in *;
      try (left; exact Hf0).
    assert (Hd1 : download_images st1 = false) by (destruct Hg0 as [_ [-> _]]; exact Hd).
    pose proof (process_mod_fetch_no_download w mod_name st1 Hd1) as Hf1.
    destruct (process_mod_fetch w mod_name st1) as [[[mod_data|]|e] st2];
      cbn [snd] in Hf1; try (left; cbn [snd files emit set_failed_count]; congruence).
    pose proof (process_mod_commit_files w mod_data st2) as Hc.
    destruct (process_mod_commit w mod_data st2) as [[[]|e] st3]; cbn [snd] in *;
      cbn [files emit set_failed_count data];
      (destruct Hc as [Hc|[Hc|[partial [Hw [Hp Hc]]]]];
       [left|right; left|right; right; exists partial; split; [exact Hw|split; [exact Hp|]]];
       congruence). }
  destruct H as [H|[H|[partial [Hw [Hp H]]]]]; rewrite H.
  - split; [reflexivity|now left].
  - split; [intros path Hj _; now apply fs_get_set_other|].
    right; left. apply fs_get_set.
  - split; [intros path Hj _; now apply fs_get_set_other|].
    right; right. exists partial. split; [exact Hw|]. split; [exact Hp|]. apply fs_get_set.
Qed.

Lemma process_mod_without_download_writes_store_only_witness :
  fs_get (files (snd (process_mod Demo.world "AppleSkin" (Demo.start false []))))
    "mod_items_data/Apple_-36.PNG" = None /\
  map fst (files (snd (process_mod Demo.world "AppleSkin" (Demo.start false [])))) =
    [json_file].
Proof.
  destruct (process_mod_without_download_writes_store_only Demo.world "AppleSkin"
              (Demo.start false []) eq_refl) as [Hother _].
  split; [|reflexivity].
  rewrite Hother; [reflexivity|discriminate|discriminate].
Defined.

(** *** The cache across runs *)

(** X15. A mod that [process_mod] has stored and saved is not fetched
    again: a later process that starts on the files left behind loads a
    store that has the mod, and its [process_mod] for that name returns
    success at once, without a request and without a write. *)
Theorem stored_mod_is_skipped_by_next_run :
  forall (w : World) (mod_name : string) (st st' : fetcher),
    well_formed_store (data st) ->
    ~ has_mod (data st) mod_name ->
    writable w json_file = true ->
    process_mod w mod_name st = (Ret true, st') ->
    exists st0,
      init w (fresh false (files st')) = (Ret tt, st0) /\
      data st0 = data st' /\
      process_mod w mod_name st0 = (Ret true, emit (Log INFO) (emit (Log INFO) st0)).
Proof.
  intros w mod_name st st' Hwf Hno Hw Hrun.
  destruct (process_mod_new_success w mod_name st st' Hwf Hno Hrun)
    as [kv [ms [items [st2 [Hd [Hg [_ [Hd' [Hfiles _]]]]]]]]].
  rewrite Hw in Hfiles.
  assert (Hfile : fs_get (files st') json_file = Some (JsonText (data st'))).
  { rewrite Hfiles. apply fs_get_set. }
  exists (set_data (data st') (fresh false (files st'))).
  split; [|split; [reflexivity|]].
  - unfold init, load_existing_data. run_all. cbn [download_images fresh andb files].
    now rewrite Hfile.
  - destruct Hwf as [ms0 [[kv0 [Hd0 Hg0]] Hall]].
    assert (kv0 = kv) by congruence. subst kv0.
    assert (ms0 = ms) by congruence. subst ms0.
    unfold process_mod, try_except, bind.
    rewrite process_mod_check_existing; [reflexivity| |]; cbn [data set_data]; rewrite Hd'.
    + exists (ms ++ [mod_data_record mod_name items])%list. split.
      * eexists. split; [reflexivity|apply dict_get_set].
      * apply Forall_app. split; [exact Hall|].
        constructor; [|constructor]. exists (VStr mod_name). eexists. split; reflexivity.
    + exists (ms ++ [mod_data_record mod_name items])%list,
        (mod_data_record mod_name items).
      split; [eexists; split; [reflexivity|apply dict_get_set]|]. split.
      * apply in_or_app. right. now left.
      * eexists. split; reflexivity.
Qed.

Lemma stored_mod_is_skipped_by_next_run_witness :
  exists st0,
    init Demo.world
      (fresh false (files (snd (process_mod Demo.world "AppleSkin" (Demo.start false [])))))
      = (Ret tt, st0) /\
    fst (process_mod Demo.world "AppleSkin" st0) = Ret true.
Proof.
  destruct (stored_mod_is_skipped_by_next_run Demo.world "AppleSkin" (Demo.start false [])
              (snd (process_mod Demo.world "AppleSkin" (Demo.start false []))))
    as [st0 [Hinit [_ Hskip]]].
  - exists []. split; [eexists; split; reflexivity|constructor].
  - intros [ms [m [[kv [Hkv Hms]] [Hin _]]]].
    vm_compute in Hkv. inversion Hkv; subst kv.
    vm_compute in Hms. inversion Hms; subst ms. destruct Hin.
  - reflexivity.
  - vm_compute. reflexivity.
  - exists st0. split; [exact Hinit|]. now rewrite Hskip.
Defined.
